(** * My Life Diary: the client logic of [App.jsx], embedded in Rocq

    The repository is a voice-journaling web client written as one React
    component.  Three revisions of the component are kept side by side:
    [src/App.jsx] (the current one, with the colour theme), and two earlier
    ones that differ from it in the search-expansion effect and in how the
    grouping guards a missing timestamp.  This development embeds

    - the JavaScript string and number primitives the component calls
      ([JS]),
    - the colour utilities [getTextColor] and [shadeColor] ([Color]),
    - Firestore timestamps and the calendar view that [Date] gives of them
      ([Calendar]),
    - the notes, the component state and the calls to the outside
      ([Notes]), and the document store that answers them ([Store]),
    - the functions of the component of [src/App.jsx] ([App]) and, where
      they differ, of the earlier revision ([Earlier]),

    then states what the specification says of them ([ColorSpec],
    [GroupingSpec], [ExpansionSpec], [HandlersSpec]) and proves it, or
    shows where the code departs from it.  The rest of the component, its
    effects, the callbacks of the recognition object and of the snapshot
    listener, the colours and the conditions of the render, is embedded in
    [Component] (and [EarlierComponent] for the earlier revision); the
    last modules prove what the code shows of these and of how the
    handlers, the store and the render work together.

    Conventions.  A JavaScript string is a [string]: its code units are
    read as Latin-1, so whitespace and case mapping are those of the code
    units below 256.  An integral JavaScript number is a [Z]; [NaN] and
    [undefined] are [None].  A number that need not be integral (the
    luminance) is a binary64 [float].  A JavaScript object used as a map
    is a [gmap string _], keyed by the property names.  A function that
    can throw returns a [JS.Completion]; an effect that throws leaves no
    state behind, since React unmounts the component.  What depends on the
    browser is a parameter: the time zone and the month names
    ([Calendar.Host]), the two clocks ([Calendar.Clocks]), what
    [new Date()] reads in each call of a callback ([Calendar.Readings]),
    how an awaited call to the store ends ([Notes.Answer]) and
    [Math.pow]. *)

From Stdlib Require Import ZArith Lia Ascii Uint63 PrimFloat FloatOps Sorted.
From Stdlib Require Import DecimalString DecimalZ DecimalN DecimalPos.
From stdpp Require Import base option list gmap strings stringmap.

#[local] Set Warnings "-inexact-float".
Local Open Scope Z_scope.

(** ** JavaScript primitives *)

Module JS.

(** [StrWhiteSpaceChar] restricted to Latin-1: TAB, LF, VT, FF, CR, SP and
    NBSP. *)
Definition isWhiteSpace (c : ascii) : bool :=
  let n := Z.of_N (N_of_ascii c) in
  ((9 <=? n) && (n <=? 13)) || (n =? 32) || (n =? 160).

Fixpoint trimStart (s : string) : string :=
  match s with
  | EmptyString => EmptyString
  | String c s' => if isWhiteSpace c then trimStart s' else s
  end.

Fixpoint trimEnd (s : string) : string :=
  match s with
  | EmptyString => EmptyString
  | String c s' =>
      match trimEnd s' with
      | EmptyString => if isWhiteSpace c then EmptyString else String c EmptyString
      | t => String c t
      end
  end.

(** [String.prototype.trim] *)
Definition trim (s : string) : string := trimEnd (trimStart s).

(** A string is truthy when it is not empty. *)
Definition truthy (s : string) : bool :=
  match s with EmptyString => false | String _ _ => true end.

Definition lowerChar (c : ascii) : ascii :=
  let n := N_of_ascii c in
  if ((65 <=? n) && (n <=? 90))%N
     || ((192 <=? n) && (n <=? 222) && negb (n =? 215))%N
  then ascii_of_N (n + 32) else c.

(** [String.prototype.toLowerCase] on code units below 256.  There the
    method works character by character: the capital letters of Basic
    Latin and of Latin-1 move 32 up and nothing else changes.  Beyond
    Latin-1 the method also has a rule that looks at the neighbours of a
    character (the final sigma), so it does not go through concatenation
    there; what is proved through concatenation is stated of ASCII search
    terms. *)
Fixpoint toLowerCase (s : string) : string :=
  match s with
  | EmptyString => EmptyString
  | String c s' => String (lowerChar c) (toLowerCase s')
  end.

(** [s.includes(sub)]: [sub] is a prefix of some suffix of [s]. *)
Fixpoint includes (s sub : string) : bool :=
  String.prefix sub s
  || match s with
     | EmptyString => false
     | String _ s' => includes s' sub
     end.

(** [s.substring(a, b)] for [a <= b]; both ends are clamped to the length. *)
Definition substring (a b : nat) (s : string) : string :=
  String.substring a (b - a) s.

(** [s.charAt(i)]: the empty string past the end. *)
Definition charAt (i : nat) (s : string) : string :=
  String.substring i 1 s.

(** The value of a digit of [parseInt], for radices up to 36. *)
Definition digitValue (c : ascii) : option Z :=
  let n := Z.of_N (N_of_ascii c) in
  if (48 <=? n) && (n <=? 57) then Some (n - 48)
  else if (97 <=? n) && (n <=? 122) then Some (n - 87)
  else if (65 <=? n) && (n <=? 90) then Some (n - 55)
  else None.

(** The longest prefix of digits of the radix; [None] when it is empty. *)
Fixpoint parseDigits (radix : Z) (acc : option Z) (s : string) : option Z :=
  match s with
  | EmptyString => acc
  | String c s' =>
      match digitValue c with
      | Some d =>
          if d <? radix
          then parseDigits radix (Some (default 0 acc * radix + d)) s'
          else acc
      | None => acc
      end
  end.

Definition stripSign (s : string) : Z * string :=
  match s with
  | String "-" s' => (-1, s')
  | String "+" s' => (1, s')
  | _ => (1, s)
  end.

Definition stripHexPrefix (s : string) : string :=
  match s with
  | String "0" (String "x" s') => s'
  | String "0" (String "X" s') => s'
  | _ => s
  end.

(** [parseInt(s, radix)] on a string: leading whitespace, a sign, for radix
    16 an optional [0x], then the digits.  [None] is [NaN]. *)
Definition parseInt (s : string) (radix : Z) : option Z :=
  let '(sign, s1) := stripSign (trimStart s) in
  let s2 := if radix =? 16 then stripHexPrefix s1 else s1 in
  (λ v, sign * v) <$> parseDigits radix None s2.

(** [parseInt(x)] on a number [n / d] that came out of integer operands:
    the number is printed and its integer part read back, which truncates
    towards zero.  This is exact while the operands are below [2^53] in
    magnitude and the quotient prints without an exponent (it is zero, or
    between [10^-6] and [10^21] in magnitude). *)
Definition parseIntOfQuotient (n d : Z) : Z := Z.quot n d.

Definition digitChar (d : Z) : ascii :=
  if d <? 10 then ascii_of_N (Z.to_N (d + 48)) else ascii_of_N (Z.to_N (d + 87)).

Fixpoint digitsOf (fuel : nat) (radix n : Z) (acc : string) : string :=
  match fuel with
  | O => acc
  | S f =>
      let acc' := String (digitChar (n mod radix)) acc in
      if n / radix =? 0 then acc' else digitsOf f radix (n / radix) acc'
  end.

(** [n.toString(radix)] on an integer: a minus sign and the digits of the
    magnitude, lower case, no padding. *)
Definition toStringRadix (n radix : Z) : string :=
  let m := Z.abs n in
  let ds := digitsOf (S (Z.to_nat (Z.log2 m))) radix m EmptyString in
  if n <? 0 then String "-" ds else ds.

(** [String(n)] on an integer: decimal digits, a minus sign when negative. *)
Definition numberToString (n : Z) : string :=
  NilEmpty.string_of_int (Z.to_int n).

Fixpoint padUint (k : nat) (u : Decimal.uint) : Decimal.uint :=
  match k with
  | O => u
  | S k' => Decimal.D0 (padUint k' u)
  end.

(** [ToZeroPaddedDecimalString(n, minLength)] for [n >= 0]. *)
Definition toZeroPaddedDecimalString (n : Z) (minLength : nat) : string :=
  let u := N.to_uint (Z.to_N n) in
  NilEmpty.string_of_uint (padUint (minLength - Decimal.nb_digits u) u).

(** How a computation ends: with a value, or by throwing. *)
Inductive Completion (A : Type) : Type :=
| Normal (a : A)
| Throw (e : string).
Arguments Normal {A} a.
Arguments Throw {A} e.

#[global] Instance Completion_ret : MRet Completion := @Normal.
#[global] Instance Completion_bind : MBind Completion :=
  λ A B f m, match m with Normal a => f a | Throw e => Throw e end.

(** Whether a computation ends with a value. *)
Definition completes {A} (c : Completion A) : bool :=
  match c with Normal _ => true | Throw _ => false end.

(** [o.name] where [o] may be [undefined]. *)
Definition member {A} (o : option A) (name : string) : Completion A :=
  match o with
  | Some a => Normal a
  | None =>
      Throw ("TypeError: Cannot read properties of undefined (reading '"
             +:+ name +:+ "')")
  end.

(** [Array.prototype.filter] with a callback that may throw. *)
Fixpoint filterM {A} (f : A -> Completion bool) (l : list A) : Completion (list A) :=
  match l with
  | [] => Normal []
  | x :: l' =>
      b ← f x; r ← filterM f l'; Normal (if b : bool then x :: r else r)
  end.

(** [Array.prototype.filter] with a callback whose answer also depends on
    which call it is: the callback is called once per element, in order,
    and the calls are numbered from [k]. *)
Fixpoint filterMi {A} (f : nat -> A -> Completion bool) (k : nat) (l : list A)
    : Completion (list A) :=
  match l with
  | [] => Normal []
  | x :: l' =>
      b ← f k x; r ← filterMi f (S k) l'; Normal (if b : bool then x :: r else r)
  end.

(** [Array.prototype.reduce] with an initial value. *)
Fixpoint reduceM {A B} (f : B -> A -> Completion B) (acc : B) (l : list A)
    : Completion B :=
  match l with
  | [] => Normal acc
  | x :: l' => acc' ← f acc x; reduceM f acc' l'
  end.

(** An integer as a binary64 number (exact below [2^53]). *)
Definition toNumber (n : Z) : float :=
  if n <? 0 then (- PrimFloat.of_uint63 (Uint63.of_Z (- n)))%float
  else PrimFloat.of_uint63 (Uint63.of_Z n).

(** A number that may be [NaN]. *)
Definition toNumberOrNaN (n : option Z) : float :=
  match n with Some z => toNumber z | None => PrimFloat.nan end.

End JS.

(** ** Colour utilities *)

Module Color.

Section WithMathPow.

(** [Math.pow] is implementation-approximated: it is a parameter of the
    embedding. *)
Variable Math_pow : float -> float -> float.

(** The callback of [uicolors.map] in [getTextColor]. *)
Definition gamma (col : float) : float :=
  if (col <=? 0.03928)%float then (col / 12.92)%float
  else Math_pow ((col + 0.055) / 1.055)%float 2.4%float.

Definition getTextColor (bgColor : string) : string :=
  if negb (JS.truthy bgColor) then "#ffffff"
  else
    let color :=
      if String.eqb (JS.charAt 0 bgColor) "#"
      then JS.substring 1 7 bgColor else bgColor in
    let r := JS.parseInt (JS.substring 0 2 color) 16 in
    let g := JS.parseInt (JS.substring 2 4 color) 16 in
    let b := JS.parseInt (JS.substring 4 6 color) 16 in
    let uicolors :=
      [ (JS.toNumberOrNaN r / 255)%float;
        (JS.toNumberOrNaN g / 255)%float;
        (JS.toNumberOrNaN b / 255)%float ] in
    let c := gamma <$> uicolors in
    let L :=
      (0.2126 * nth 0 c PrimFloat.nan
       + 0.7152 * nth 1 c PrimFloat.nan
       + 0.0722 * nth 2 c PrimFloat.nan)%float in
    if (0.179 <? L)%float then "#000000" else "#ffffff".

End WithMathPow.

(** One channel of [shadeColor]: scale, truncate, clamp from above. *)
Definition shadeChannel (R : option Z) (percent : Z) : Z :=
  let R1 := (λ r, JS.parseIntOfQuotient (r * (100 + percent)) 100) <$> R in
  match R1 with
  | Some r => if r <? 255 then r else 255
  | None => 255
  end.

(** [(R.toString(16).length==1) ? "0"+R.toString(16) : R.toString(16)] *)
Definition hexByte (R : Z) : string :=
  let h := JS.toStringRadix R 16 in
  if (String.length h =? 1)%nat then "0" +:+ h else h.

Definition shadeColor (color : string) (percent : Z) : string :=
  let R := JS.parseInt (JS.substring 1 3 color) 16 in
  let G := JS.parseInt (JS.substring 3 5 color) 16 in
  let B := JS.parseInt (JS.substring 5 7 color) 16 in
  let R := shadeChannel R percent in
  let G := shadeChannel G percent in
  let B := shadeChannel B percent in
  let RR := hexByte R in
  let GG := hexByte G in
  let BB := hexByte B in
  "#" +:+ RR +:+ GG +:+ BB.

End Color.

(** A reference [Math.pow] for positive bases, [exp (y * ln x)] by series:
    one admissible host, used to run the colour functions. *)

Module RefMath.

Fixpoint lnSum (fuel : nat) (zpow z2 d acc : float) : float :=
  match fuel with
  | O => acc
  | S f => lnSum f (zpow * z2)%float z2 (d + 2)%float (acc + zpow / d)%float
  end.

Definition ln (x : float) : float :=
  let '(m0, e0) := Z.frexp x in
  let '(m, e) := if (m0 <? 0.7071)%float then ((m0 * 2)%float, e0 - 1) else (m0, e0) in
  let z := ((m - 1) / (m + 1))%float in
  (2 * lnSum 30 z (z * z) 1 0 + JS.toNumber e * 0.6931471805599453)%float.

Fixpoint expSum (fuel : nat) (t term k acc : float) : float :=
  match fuel with
  | O => acc
  | S f => expSum f t (term * t / k)%float (k + 1)%float (acc + term)%float
  end.

Definition exp (y : float) : float :=
  let s := expSum 25 (y / 16)%float 1 1 0 in
  let s2 := (s * s)%float in
  let s4 := (s2 * s2)%float in
  let s8 := (s4 * s4)%float in
  (s8 * s8)%float.

Definition pow (x y : float) : float :=
  if (x =? 0)%float then 0%float
  else if (0 <? x)%float then exp (y * ln x)%float
  else PrimFloat.nan.

End RefMath.

(** ** Timestamps and the calendar view of [Date] *)

Module Calendar.

(** A Firestore [Timestamp]. *)
Record Timestamp := { seconds : Z; nanoseconds : Z }.

(** A [Date]: its time value, milliseconds since the epoch, UTC. *)
Record Date := { getTime : Z }.

(** The time value of [ts.toDate()]: the SDK adds [seconds * 1000] and
    [nanoseconds / 1e6] and [new Date] drops the fraction of the sum,
    towards zero.  The sum is taken exactly here; the SDK takes it in
    binary64, which is exact on the stamps of whole milliseconds below
    [2^53] in magnitude, such as [Timestamp.now()] and [fromMillis]
    make. *)
Definition toMillis (ts : Timestamp) : Z :=
  Z.quot (seconds ts * 1000000000 + nanoseconds ts) 1000000.

(** [ts.toDate()] *)
Definition toDate (ts : Timestamp) : Date := {| getTime := toMillis ts |}.

(** [Timestamp.fromMillis(ms)] *)
Definition fromMillis (ms : Z) : Timestamp :=
  {| seconds := ms / 1000; nanoseconds := (ms - ms / 1000 * 1000) * 1000000 |}.

(** What the host decides: the offset of local time from UTC in force at an
    instant (minutes, east positive), and the long month name that
    [toLocaleString('default', {month: 'long'})] gives for a date (a name
    of a month, so never the name of a property every object inherits). *)
Record Host := {
  tzOffsetMinutes : Z -> Z;
  toLocaleMonthLong : Date -> string
}.

(** The two clocks a write could be stamped with: the browser's
    ([Date.now()]) and the store's own. *)
Record Clocks := { clientNow : Z; serverNow : Z }.

(** What [new Date()] reads in the calls of a callback during one render,
    or one run of an effect: the call numbered [i] reads [clock i]. *)
Definition Readings : Type := nat -> Date.

(** [Timestamp.now()]: the SDK builds it from [Date.now()]. *)
Definition Timestamp_now (clk : Clocks) : Timestamp := fromMillis (clientNow clk).

Definition msPerDay : Z := 86400000.

Definition localTime (h : Host) (d : Date) : Z :=
  getTime d + tzOffsetMinutes h (getTime d) * 60000.

(** The local day, counted from 1 January 1970. *)
Definition dayNumber (h : Host) (d : Date) : Z := localTime h d / msPerDay.

(** Year, month (0 to 11) and day of the month of a day number, in the
    proleptic Gregorian calendar. *)
Definition civil (z : Z) : Z * Z * Z :=
  let z := z + 719468 in
  let era := z / 146097 in
  let doe := z - era * 146097 in
  let yoe := (doe - doe / 1460 + doe / 36524 - doe / 146096) / 365 in
  let y := yoe + era * 400 in
  let doy := doe - (365 * yoe + yoe / 4 - yoe / 100) in
  let mp := (5 * doy + 2) / 153 in
  let d := doy - (153 * mp + 2) / 5 + 1 in
  let m := if mp <? 10 then mp + 3 else mp - 9 in
  (if m <=? 2 then y + 1 else y, m - 1, d).

(** The day number of a year, month (0 to 11) and day of the month. *)
Definition daysFromCivil (ymd : Z * Z * Z) : Z :=
  let '(y0, m0, d) := ymd in
  let m := m0 + 1 in
  let y := if m <=? 2 then y0 - 1 else y0 in
  let era := y / 400 in
  let yoe := y - era * 400 in
  let doy := (153 * (if 2 <? m then m - 3 else m + 9) + 2) / 5 + d - 1 in
  let doe := yoe * 365 + yoe / 4 - yoe / 100 + doy in
  era * 146097 + doe - 719468.

(** 0 is Sunday; 1 January 1970 was a Thursday. *)
Definition weekDay (z : Z) : Z := (z + 4) mod 7.

Definition localDate (h : Host) (d : Date) : Z * Z * Z := civil (dayNumber h d).

Definition getFullYear (h : Host) (d : Date) : Z := (localDate h d).1.1.
Definition getMonth (h : Host) (d : Date) : Z := (localDate h d).1.2.
Definition getDate (h : Host) (d : Date) : Z := (localDate h d).2.

Definition dayNames : list string :=
  ["Sun"; "Mon"; "Tue"; "Wed"; "Thu"; "Fri"; "Sat"].

Definition monthNames : list string :=
  ["Jan"; "Feb"; "Mar"; "Apr"; "May"; "Jun";
   "Jul"; "Aug"; "Sep"; "Oct"; "Nov"; "Dec"].

Definition yearString (y : Z) : string :=
  (if y <? 0 then "-" else "") +:+ JS.toZeroPaddedDecimalString (Z.abs y) 4.

(** The date string of a local day: weekday, month, two-digit day, year. *)
Definition dateString (z : Z) : string :=
  let '(y, m, d) := civil z in
  nth (Z.to_nat (weekDay z)) dayNames ""
  +:+ " " +:+ nth (Z.to_nat m) monthNames ""
  +:+ " " +:+ JS.toZeroPaddedDecimalString d 2
  +:+ " " +:+ yearString y.

(** [d.toDateString()] *)
Definition toDateString (h : Host) (d : Date) : string :=
  dateString (dayNumber h d).

Definition monthLongNames : list string :=
  ["January"; "February"; "March"; "April"; "May"; "June"; "July";
   "August"; "September"; "October"; "November"; "December"].

(** A host on UTC with the English month names. *)
Definition utcEnglish : Host :=
  {| tzOffsetMinutes := λ _, 0;
     toLocaleMonthLong := λ d,
       nth (Z.to_nat (civil (getTime d / msPerDay)).1.2) monthLongNames "" |}.

(** A host five and a half hours east of UTC, same names. *)
Definition istEnglish : Host :=
  {| tzOffsetMinutes := λ _, 330;
     toLocaleMonthLong := λ d,
       nth (Z.to_nat (civil ((getTime d + 330 * 60000) / msPerDay)).1.2)
           monthLongNames "" |}.

End Calendar.

(** ** Notes, the store and the component state *)

Module Notes.
Import Calendar.

(** A note as the snapshot listener builds it: [{id: d.id, ...d.data()}].
    Every document the component writes has a [text]; the [timestamp] is
    the field the component guards against being absent. *)
Record Note := { id : string; text : string; timestamp : option Timestamp }.

(** The data of a document of the notes collection. *)
Record NoteDoc := { docText : string; docTimestamp : option Timestamp }.

#[global] Instance Timestamp_eq_dec : EqDecision Timestamp.
Proof. solve_decision. Defined.
#[global] Instance Date_eq_dec : EqDecision Date.
Proof. solve_decision. Defined.
#[global] Instance Note_eq_dec : EqDecision Note.
Proof. solve_decision. Defined.
#[global] Instance NoteDoc_eq_dec : EqDecision NoteDoc.
Proof. solve_decision. Defined.

Record User := { uid : string }.

(** The selection of the delete dialog: [{type:'all'}], [{type:'year',
    year}] or [{type:'month', year, month}]. *)
Inductive Selection :=
| SelAll
| SelYear (year : Z)
| SelMonth (year : Z) (month : string).

(** How an awaited call to the store ends: the promise resolves, or it
    rejects (the store refuses the write, or cannot be reached). *)
Inductive Answer := Resolved | Rejected.

(** The speech recognition object behind [recognitionRef]. *)
Record Recognition := { lang : string }.

(** The state of the component: the [useState] cells and the two refs. *)
Record AppState := {
  notes : list Note;
  user : option User;
  authReady : bool;
  isRecording : bool;
  editingNote : option Note;
  editText : string;
  showPastNotes : bool;
  showDeleteConfirm : option Selection;
  micError : string;
  language : string;
  searchTerm : string;
  expandedItems : gmap string bool;
  themeColor : string;
  isLoadingSamples : bool;
  firestoreError : option string;
  recognitionRef : option Recognition;
  transcriptRef : string
}.

Definition setIsRecording (v : bool) (s : AppState) : AppState :=
  {| notes := notes s; user := user s; authReady := authReady s;
     isRecording := v; editingNote := editingNote s; editText := editText s;
     showPastNotes := showPastNotes s; showDeleteConfirm := showDeleteConfirm s;
     micError := micError s; language := language s; searchTerm := searchTerm s;
     expandedItems := expandedItems s; themeColor := themeColor s;
     isLoadingSamples := isLoadingSamples s; firestoreError := firestoreError s;
     recognitionRef := recognitionRef s; transcriptRef := transcriptRef s |}.

Definition setTranscript (v : string) (s : AppState) : AppState :=
  {| notes := notes s; user := user s; authReady := authReady s;
     isRecording := isRecording s; editingNote := editingNote s;
     editText := editText s; showPastNotes := showPastNotes s;
     showDeleteConfirm := showDeleteConfirm s; micError := micError s;
     language := language s; searchTerm := searchTerm s;
     expandedItems := expandedItems s; themeColor := themeColor s;
     isLoadingSamples := isLoadingSamples s; firestoreError := firestoreError s;
     recognitionRef := recognitionRef s; transcriptRef := v |}.

Definition setEditingNote (v : option Note) (s : AppState) : AppState :=
  {| notes := notes s; user := user s; authReady := authReady s;
     isRecording := isRecording s; editingNote := v; editText := editText s;
     showPastNotes := showPastNotes s; showDeleteConfirm := showDeleteConfirm s;
     micError := micError s; language := language s; searchTerm := searchTerm s;
     expandedItems := expandedItems s; themeColor := themeColor s;
     isLoadingSamples := isLoadingSamples s; firestoreError := firestoreError s;
     recognitionRef := recognitionRef s; transcriptRef := transcriptRef s |}.

Definition setEditText (v : string) (s : AppState) : AppState :=
  {| notes := notes s; user := user s; authReady := authReady s;
     isRecording := isRecording s; editingNote := editingNote s; editText := v;
     showPastNotes := showPastNotes s; showDeleteConfirm := showDeleteConfirm s;
     micError := micError s; language := language s; searchTerm := searchTerm s;
     expandedItems := expandedItems s; themeColor := themeColor s;
     isLoadingSamples := isLoadingSamples s; firestoreError := firestoreError s;
     recognitionRef := recognitionRef s; transcriptRef := transcriptRef s |}.

Definition setShowPastNotes (v : bool) (s : AppState) : AppState :=
  {| notes := notes s; user := user s; authReady := authReady s;
     isRecording := isRecording s; editingNote := editingNote s;
     editText := editText s; showPastNotes := v;
     showDeleteConfirm := showDeleteConfirm s; micError := micError s;
     language := language s; searchTerm := searchTerm s;
     expandedItems := expandedItems s; themeColor := themeColor s;
     isLoadingSamples := isLoadingSamples s; firestoreError := firestoreError s;
     recognitionRef := recognitionRef s; transcriptRef := transcriptRef s |}.

Definition setShowDeleteConfirm (v : option Selection) (s : AppState) : AppState :=
  {| notes := notes s; user := user s; authReady := authReady s;
     isRecording := isRecording s; editingNote := editingNote s;
     editText := editText s; showPastNotes := showPastNotes s;
     showDeleteConfirm := v; micError := micError s;
     language := language s; searchTerm := searchTerm s;
     expandedItems := expandedItems s; themeColor := themeColor s;
     isLoadingSamples := isLoadingSamples s; firestoreError := firestoreError s;
     recognitionRef := recognitionRef s; transcriptRef := transcriptRef s |}.

Definition setNotes (v : list Note) (s : AppState) : AppState :=
  {| notes := v; user := user s; authReady := authReady s;
     isRecording := isRecording s; editingNote := editingNote s;
     editText := editText s; showPastNotes := showPastNotes s;
     showDeleteConfirm := showDeleteConfirm s; micError := micError s;
     language := language s; searchTerm := searchTerm s;
     expandedItems := expandedItems s; themeColor := themeColor s;
     isLoadingSamples := isLoadingSamples s; firestoreError := firestoreError s;
     recognitionRef := recognitionRef s; transcriptRef := transcriptRef s |}.

Definition setSearchTerm (v : string) (s : AppState) : AppState :=
  {| notes := notes s; user := user s; authReady := authReady s;
     isRecording := isRecording s; editingNote := editingNote s;
     editText := editText s; showPastNotes := showPastNotes s;
     showDeleteConfirm := showDeleteConfirm s; micError := micError s;
     language := language s; searchTerm := v;
     expandedItems := expandedItems s; themeColor := themeColor s;
     isLoadingSamples := isLoadingSamples s; firestoreError := firestoreError s;
     recognitionRef := recognitionRef s; transcriptRef := transcriptRef s |}.

(** [setExpandedItems(f)] with an updater function. *)
Definition setExpandedItems (f : gmap string bool -> gmap string bool)
    (s : AppState) : AppState :=
  {| notes := notes s; user := user s; authReady := authReady s;
     isRecording := isRecording s; editingNote := editingNote s;
     editText := editText s; showPastNotes := showPastNotes s;
     showDeleteConfirm := showDeleteConfirm s; micError := micError s;
     language := language s; searchTerm := searchTerm s;
     expandedItems := f (expandedItems s); themeColor := themeColor s;
     isLoadingSamples := isLoadingSamples s; firestoreError := firestoreError s;
     recognitionRef := recognitionRef s; transcriptRef := transcriptRef s |}.

(** The state of [useState] and [useRef] at the first render. *)
Definition initialState : AppState :=
  {| notes := []; user := None; authReady := false; isRecording := false;
     editingNote := None; editText := ""; showPastNotes := false;
     showDeleteConfirm := None; micError := ""; language := "en-US";
     searchTerm := ""; expandedItems := ∅; themeColor := "#2d3748";
     isLoadingSamples := false; firestoreError := None;
     recognitionRef := None; transcriptRef := "" |}.

(** The calls the component makes to the document store and to the speech
    capability.  A document is addressed by the path of its collection and
    its id. *)
Inductive Request :=
| AddDoc (collection : string) (data : NoteDoc)
| UpdateDoc (collection docId : string) (newText : string)
| DeleteDoc (collection docId : string)
| CommitBatch (deletes : list (string * string))
| RecognitionStart
| RecognitionStop
| Alert (message : string).

(** [`users/${user.uid}/notes`] *)
Definition notesPath (u : User) : string := "users/" +:+ uid u +:+ "/notes".

(** The year/month/day hierarchy: three nested objects and an array. *)
Abbreviation Hierarchy := (gmap string (gmap string (gmap string (list Note)))).

(** [acc[y][m][day]], the empty list where a level is missing. *)
Definition bucket (acc : Hierarchy) (y m day : string) : list Note :=
  match acc !! y with
  | Some ym =>
      match ym !! m with
      | Some md => default [] (md !! day)
      | None => []
      end
  | None => []
  end.

(** [if (!o[k]) o[k] = v] *)
Definition ensure {A} (k : string) (v : A) (o : gmap string A) : gmap string A :=
  match o !! k with
  | Some _ => o
  | None => <[k := v]> o
  end.

(** The body of the reducer once the date is known:
    [if(!acc[y])acc[y]={}; if(!acc[y][m])acc[y][m]={};
     if(!acc[y][m][day])acc[y][m][day]=[]; acc[y][m][day].push(note)]. *)
Definition pushNote (acc : Hierarchy) (y m day : string) (note : Note) : Hierarchy :=
  let acc1 := ensure y ∅ acc in
  let acc2 := alter (ensure m ∅) y acc1 in
  let acc3 := alter (alter (ensure day []) m) y acc2 in
  alter (alter (alter (λ l, l ++ [note]) day) m) y acc3.

(** What one render computes from the notes and the search term. *)
Record Groups := {
  filtered : list Note;
  today : list Note;
  pastRaw : list Note;
  structured : Hierarchy
}.

End Notes.

(** ** The document store *)

Module Store.
Import Calendar Notes.

(** Collections by path, documents by id. *)
Abbreviation Firestore := (gmap string (gmap string NoteDoc)).

Definition collectionOf (db : Firestore) (path : string) : gmap string NoteDoc :=
  default ∅ (db !! path).

Definition lookupDoc (db : Firestore) (path docId : string) : option NoteDoc :=
  collectionOf db path !! docId.

(** The id the store gives a new document: one not in use. *)
Definition autoId (c : gmap string NoteDoc) : string := fresh_string "note" c.

Definition deleteAt (db : Firestore) (ref : string * string) : Firestore :=
  alter (delete ref.2) ref.1 db.

(** The effect of a call on the store, when the store accepts it.
    An update changes the [text] field of an existing document and nothing
    else; on a missing document it changes nothing. *)
Definition apply (db : Firestore) (r : Request) : Firestore :=
  match r with
  | AddDoc path data =>
      let c := collectionOf db path in
      <[path := <[autoId c := data]> c]> db
  | UpdateDoc path docId newText =>
      alter (alter (λ d, {| docText := newText;
                            docTimestamp := docTimestamp d |}) docId) path db
  | DeleteDoc path docId => deleteAt db (path, docId)
  | CommitBatch deletes => foldl deleteAt db deletes
  | RecognitionStart | RecognitionStop | Alert _ => db
  end.

Definition run (db : Firestore) (rs : list Request) : Firestore :=
  foldl apply db rs.

(** The comparator of the snapshot listener orders by
    [(timestamp?.toDate() || 0)], newest first. *)
Definition sortKey (n : Note) : Z :=
  match timestamp n with
  | Some ts => getTime (toDate ts)
  | None => 0
  end.

Fixpoint insertNewestFirst (n : Note) (l : list Note) : list Note :=
  match l with
  | [] => [n]
  | m :: l' =>
      if sortKey m <=? sortKey n then n :: l else m :: insertNewestFirst n l'
  end.

(** [Array.prototype.sort] with that comparator (the sort is stable). *)
Definition sortNewestFirst (l : list Note) : list Note :=
  foldr insertNewestFirst [] l.

(** The notes that the snapshot listener stores for a collection:
    [snap.docs.map(d => ({id: d.id, ...d.data()})).sort(...)]. *)
Definition snapshotNotes (c : gmap string NoteDoc) : list Note :=
  sortNewestFirst
    ((λ kv, {| id := kv.1; text := docText kv.2; timestamp := docTimestamp kv.2 |})
       <$> map_to_list c).

End Store.

(** ** The component of [src/App.jsx] *)

Module App.
Import Calendar Notes JS.

Section WithHost.

Context (h : Host).

(** [n.text.toLowerCase().includes(searchTerm.toLowerCase())] *)
Definition matchesSearch (searchTerm : string) (n : Note) : bool :=
  includes (toLowerCase (text n)) (toLowerCase searchTerm).

(** [n.timestamp?.toDate()]: [undefined] when there is no timestamp. *)
Definition toDateOpt (n : Note) : option Date := toDate <$> timestamp n.

(** [n.timestamp?.toDate().toDateString()] *)
Definition dateStringOpt (n : Note) : option string :=
  toDateString h <$> toDateOpt n.

(** [... === new Date().toDateString()] in one call of a callback, [now]
    being what [new Date()] reads in that call. *)
Definition isToday (now : Date) (n : Note) : bool :=
  bool_decide (dateStringOpt n = Some (toDateString h now)).

Definition filteredNotes (notes : list Note) (searchTerm : string)
    : Completion (list Note) :=
  filterM (λ n, Normal (matchesSearch searchTerm n)) notes.

(** The callback reads the clock itself, once in each call; the calls of
    the render are numbered from [k]. *)
Definition todayNotes (clock : Readings) (k : nat) (filteredNotes : list Note)
    : Completion (list Note) :=
  filterMi (λ i n, Normal (isToday (clock i) n)) k filteredNotes.

Definition pastNotesRaw (clock : Readings) (k : nat) (filteredNotes : list Note)
    : Completion (list Note) :=
  filterMi (λ i n, Normal (negb (isToday (clock i) n))) k filteredNotes.

Definition reducer (acc : Hierarchy) (note : Note) : Completion Hierarchy :=
  match toDateOpt note with
  | None => Normal acc
  | Some d =>
      let y := getFullYear h d in
      let m := toLocaleMonthLong h d in
      let day := getDate h d in
      Normal (pushNote acc (numberToString y) m (numberToString day) note)
  end.

Definition structuredPastNotes (pastNotesRaw : list Note) : Completion Hierarchy :=
  reduceM reducer ∅ pastNotesRaw.

(** The "UI Data Processing" block of one render.  The two filters on the
    date call their callback once per filtered note, first all the calls of
    [todayNotes], then all those of [pastNotesRaw]. *)
Definition grouping (clock : Readings) (notes : list Note) (searchTerm : string)
    : Completion Groups :=
  f ← filteredNotes notes searchTerm;
  t ← todayNotes clock 0 f;
  p ← pastNotesRaw clock (length f) f;
  s ← structuredPastNotes p;
  Normal {| filtered := f; today := t; pastRaw := p; structured := s |}.

(** The body of [matches.forEach] in the search-expansion effect. *)
Definition expandFor (newExpanded : gmap string bool) (n : Note)
    : Completion (gmap string bool) :=
  ts ← member (timestamp n) "toDate";
  let d := toDate ts in
  let e1 := <[numberToString (getFullYear h d) := true]> newExpanded in
  Normal (<[numberToString (getFullYear h d) +:+ "-" +:+ toLocaleMonthLong h d
            := true]> e1).

(** The search-expansion effect.  When it ends normally the state is the
    one its setters leave.  When it throws nothing is left: the exception
    is not caught anywhere, so React unmounts the component, and what the
    setters had asked for before is dropped with it.  The callback of the
    filter reads the clock itself, once in each call. *)
Definition searchExpansionEffect (clock : Readings) (s : AppState)
    : Completion AppState :=
  if String.eqb (trim (searchTerm s)) "" then Normal s
  else
    matches ← filterMi (λ i n, Normal (matchesSearch (searchTerm s) n
                                       && negb (isToday (clock i) n)))
                       0 (notes s);
    let s1 := if (0 <? length matches)%nat
              then setShowPastNotes true s else s in
    newExpanded ← reduceM expandFor ∅ matches;
    Normal (setExpandedItems (λ prev, newExpanded ∪ prev) s1).

Definition addNote (clk : Clocks) (s : AppState) (text : string) : list Request :=
  match user s with
  | Some u =>
      if truthy (trim text)
      then [AddDoc (notesPath u)
              {| docText := trim text; docTimestamp := Some (Timestamp_now clk) |}]
      else []
  | None => []
  end.

Definition deleteNote (s : AppState) (docId : string) : list Request :=
  match user s with
  | Some u => [DeleteDoc (notesPath u) docId]
  | None => []
  end.

Definition handleDeleteSelection (sel : Selection) (s : AppState) : AppState :=
  setShowDeleteConfirm (Some sel) s.

(** The callback of [notes.filter] in [handleConfirmDelete]. *)
Definition selectedBy (sel : Selection) (n : Note) : bool :=
  match toDateOpt n with
  | None => false
  | Some d =>
      match sel with
      | SelYear y => bool_decide (getFullYear h d = y)
      | SelMonth y m =>
          bool_decide (getFullYear h d = y)
          && bool_decide (toLocaleMonthLong h d = m)
      | SelAll => false
      end
  end.

(** [showDeleteConfirm.type === 'all' ? notes : notes.filter(...)] *)
Definition toDelete (sel : Selection) (notes : list Note) : list Note :=
  match sel with
  | SelAll => notes
  | _ => List.filter (selectedBy sel) notes
  end.

(** The dialog is closed after [await batch.commit()]: when the commit is
    rejected the handler ends there and the dialog stays. *)
Definition handleConfirmDelete (answer : Answer) (s : AppState)
    : AppState * list Request :=
  match user s, showDeleteConfirm s with
  | Some u, Some sel =>
      let toDelete := toDelete sel (notes s) in
      if (length toDelete =? 0)%nat then (setShowDeleteConfirm None s, [])
      else (match answer with
            | Resolved => setShowDeleteConfirm None s
            | Rejected => s
            end,
            [CommitBatch ((λ n, (notesPath u, id n)) <$> toDelete)])
  | _, _ => (s, [])
  end.

Definition startEditing (n : Note) (s : AppState) : AppState :=
  setEditText (text n) (setEditingNote (Some n) s).

(** The editing state is cleared after [await updateDoc(...)]: when the
    update is rejected the handler ends there and the state stays; with no
    user or no note being edited nothing is awaited. *)
Definition saveEdit (answer : Answer) (s : AppState) : AppState * list Request :=
  match user s, editingNote s with
  | Some u, Some n =>
      (match answer with
       | Resolved => setEditText "" (setEditingNote None s)
       | Rejected => s
       end,
       [UpdateDoc (notesPath u) (id n) (editText s)])
  | _, _ => (setEditText "" (setEditingNote None s), [])
  end.

Definition handleRecordStart (s : AppState) : AppState * list Request :=
  if truthy (micError s) || negb (bool_decide (is_Some (recognitionRef s)))
  then (s, [])
  else (setIsRecording true (setTranscript "" s), [RecognitionStart]).

Definition handleRecordStop (s : AppState) : AppState * list Request :=
  if truthy (micError s) || negb (bool_decide (is_Some (recognitionRef s)))
     || negb (isRecording s)
  then (s, [])
  else (s, [RecognitionStop]).

(** [prev => ({ ...prev, [key]: !prev[key] })] *)
Definition toggleExpand (key : string) (s : AppState) : AppState :=
  setExpandedItems
    (λ prev, <[key := negb (default false (prev !! key))]> prev) s.

End WithHost.

End App.

(** ** The earlier revision with sign-in and the light/dark theme

    Only what differs from [App] in the functions embedded above.  The
    state cells these functions read and write are those of [App], so the
    state record is shared. *)

Module Earlier.
Import Calendar Notes JS.

Section WithHost.

Context (h : Host).

(** [note.timestamp && test(note.timestamp.toDate().toDateString())] *)
Definition guardedDateTest (test : string -> bool) (n : Note) : Completion bool :=
  match timestamp n with
  | None => Normal false
  | Some _ =>
      ts ← member (timestamp n) "toDate";
      Normal (test (toDateString h (toDate ts)))
  end.

Definition filteredNotes (notes : list Note) (searchTerm : string)
    : Completion (list Note) :=
  filterM (λ n, Normal (App.matchesSearch searchTerm n)) notes.

Definition todayNotes (todayString : string) (filteredNotes : list Note)
    : Completion (list Note) :=
  filterM (guardedDateTest (λ s, bool_decide (s = todayString))) filteredNotes.

Definition pastNotesRaw (todayString : string) (filteredNotes : list Note)
    : Completion (list Note) :=
  filterM (guardedDateTest (λ s, negb (bool_decide (s = todayString))))
          filteredNotes.

Definition reducer (acc : Hierarchy) (note : Note) : Completion Hierarchy :=
  match timestamp note with
  | None => Normal acc
  | Some _ =>
      ts ← member (timestamp note) "toDate";
      let date := toDate ts in
      let year := getFullYear h date in
      let month := toLocaleMonthLong h date in
      let day := getDate h date in
      Normal (pushNote acc (numberToString year) month (numberToString day) note)
  end.

Definition structuredPastNotes (pastNotesRaw : list Note) : Completion Hierarchy :=
  reduceM reducer ∅ pastNotesRaw.

(** The "UI Grouping and Filtering" block of one render. *)
Definition grouping (now : Date) (notes : list Note) (searchTerm : string)
    : Completion Groups :=
  f ← filteredNotes notes searchTerm;
  let today := now in
  let todayString := toDateString h today in
  t ← todayNotes todayString f;
  p ← pastNotesRaw todayString f;
  s ← structuredPastNotes p;
  Normal {| filtered := f; today := t; pastRaw := p; structured := s |}.

(** The search-expansion effect of this revision: the mapping is replaced,
    and cleared when the term is blank.  Here too the callback of the
    filter reads the clock itself, and a throw would leave nothing. *)
Definition searchExpansionEffect (clock : Readings) (s : AppState)
    : Completion AppState :=
  if String.eqb (trim (searchTerm s)) ""
  then Normal (setExpandedItems (λ _, ∅) s)
  else
    pastMatchingNotes ← filterMi (λ i n,
        if App.matchesSearch (searchTerm s) n
        then guardedDateTest
               (λ d, negb (bool_decide (d = toDateString h (clock i)))) n
        else Normal false) 0 (notes s);
    let s1 := if (0 <? length pastMatchingNotes)%nat
              then setShowPastNotes true s else s in
    newExpanded ← reduceM (App.expandFor h) ∅ pastMatchingNotes;
    Normal (setExpandedItems (λ _, newExpanded) s1).

Definition addNote (clk : Clocks) (s : AppState) (text : string) : list Request :=
  match user s with
  | None => []
  | Some u =>
      if negb (truthy (trim text)) then []
      else [AddDoc (notesPath u)
              {| docText := trim text; docTimestamp := Some (Timestamp_now clk) |}]
  end.

(** The two setters are inside the [try], after the [await]: a rejected
    update is caught and logged, and the editing state stays. *)
Definition saveEdit (answer : Answer) (s : AppState) : AppState * list Request :=
  match user s, editingNote s with
  | Some u, Some n =>
      (match answer with
       | Resolved => setEditText "" (setEditingNote None s)
       | Rejected => s
       end,
       [UpdateDoc (notesPath u) (id n) (editText s)])
  | _, _ => (s, [])
  end.

Definition handleRecordStart (s : AppState) : AppState * list Request :=
  if truthy (micError s) || negb (bool_decide (is_Some (recognitionRef s)))
  then (s, [])
  else (setIsRecording true (setTranscript "" s), [RecognitionStart]).

End WithHost.

End Earlier.

(** ** What the specification says of the colour utilities *)

Module ColorSpec.

(** A two-digit hexadecimal byte, either case. *)
Definition hexPair (c1 c2 : ascii) : option Z :=
  match JS.digitValue c1, JS.digitValue c2 with
  | Some h, Some l => if (h <? 16) && (l <? 16) then Some (16 * h + l) else None
  | _, _ => None
  end.

(** "decode 6-hex-digit RGB": a [#] and exactly six hexadecimal digits. *)
Definition hexColor (s : string) : option (Z * Z * Z) :=
  match s with
  | String "#" (String r1 (String r2 (String g1 (String g2
      (String b1 (String b2 EmptyString)))))) =>
      match hexPair r1 r2, hexPair g1 g2, hexPair b1 b2 with
      | Some r, Some g, Some b => Some (r, g, b)
      | _, _, _ => None
      end
  | _ => None
  end.

(** "zero-padded per byte" *)
Definition hex2 (n : Z) : string :=
  String (JS.digitChar (n / 16)) (String (JS.digitChar (n mod 16)) EmptyString).

(** "scales each RGB channel by (100+percent)/100, clamped to [0,255]" *)
Definition scaled (c percent : Z) : Z :=
  Z.max 0 (Z.min 255 (c * (100 + percent) / 100)).

(** "apply the standard piecewise gamma-correction (linear segment below
    0.03928 scaled by 1/12.92, else ((c+0.055)/1.055)^2.4)" *)
Definition linearize (pow : float -> float -> float) (c : float) : float :=
  if (c <? 0.03928)%float then (c / 12.92)%float
  else pow ((c + 0.055) / 1.055)%float 2.4%float.

(** "normalize each channel to [0,1] ... combine with weights
    0.2126/0.7152/0.0722" *)
Definition relativeLuminance (pow : float -> float -> float) (r g b : Z) : float :=
  (0.2126 * linearize pow (JS.toNumber r / 255)
   + 0.7152 * linearize pow (JS.toNumber g / 255)
   + 0.0722 * linearize pow (JS.toNumber b / 255))%float.

(** The range of [percent] on which the integer reading of
    [R * (100 + percent) / 100] is the JavaScript one. *)
Definition exactPercent (percent : Z) : Prop := Z.abs percent <= 2 ^ 44.

End ColorSpec.

(** ** What the specification says of the grouping *)

Module GroupingSpec.
Import Calendar Notes JS.

(** The keys of the bucket of a date: the year, the month name and the
    day of the month, as property names. *)
Definition bucketKey (h : Host) (d : Date) : string * string * string :=
  (numberToString (getFullYear h d), toLocaleMonthLong h d,
   numberToString (getDate h d)).

(** [filter] with a test that depends on which call it is, the calls
    numbered from [k]. *)
Fixpoint filterAt {A} (p : nat -> A -> bool) (k : nat) (l : list A) : list A :=
  match l with
  | [] => []
  | x :: l' => if p k x then x :: filterAt p (S k) l' else filterAt p (S k) l'
  end.

(** Every reading of the clock falls on the local day of [now]. *)
Definition SameDay (h : Host) (clock : Readings) (now : Date) : Prop :=
  forall i, localDate h (clock i) = localDate h now.

(** The bucket a note is filed under, if it has a timestamp. *)
Definition bucketKeyOf (h : Host) (n : Note) : option (string * string * string) :=
  bucketKey h <$> (toDate <$> timestamp n).

(** One step of the reducer, as a function on hierarchies. *)
Definition place (h : Host) (acc : Hierarchy) (n : Note) : Hierarchy :=
  match bucketKeyOf h n with
  | Some (y, m, day) => pushNote acc y m day n
  | None => acc
  end.

(** "grouping is a partition: every such note appears in exactly one of
    {today, a single (year,month,day) bucket}", the today bucket being for
    the notes whose local calendar date is today's. *)
Definition Partition (h : Host) (now : Date) (g : Groups) : Prop :=
  forall n ts, n ∈ filtered g -> timestamp n = Some ts ->
    (localDate h (toDate ts) = localDate h now ->
       n ∈ today g
       /\ (forall y m day, n ∉ bucket (structured g) y m day))
    /\ (localDate h (toDate ts) <> localDate h now ->
       (n ∉ today g)
       /\ (forall y m day,
            n ∈ bucket (structured g) y m day
            <-> (y, m, day) = bucketKey h (toDate ts))).

(** "For all notes lacking a timestamp, they appear in neither today nor
    the hierarchy." *)
Definition Dropped (n : Note) (g : Groups) : Prop :=
  (n ∉ today g) /\ (forall y m day, n ∉ bucket (structured g) y m day).

End GroupingSpec.

(** ** What the specification says of the search expansion *)

Module ExpansionSpec.
Import Calendar Notes JS.

(** The node keys of a date: the bare year and ["{year}-{monthName}"]. *)
Definition yearKey (h : Host) (d : Date) : string :=
  numberToString (getFullYear h d).

Definition yearMonthKey (h : Host) (d : Date) : string :=
  numberToString (getFullYear h d) +:+ "-" +:+ toLocaleMonthLong h d.

(** [k] is a key of a past note that matches the search term of [s]: a
    note with a timestamp that is not of the local day of the clock reading
    of its call, the call numbered [i] being that on the note at index
    [i]. *)
Definition MatchedKey (h : Host) (clock : Readings) (s : AppState) (k : string)
    : Prop :=
  exists i n ts,
    notes s !! i = Some n
    /\ App.matchesSearch (searchTerm s) n = true
    /\ timestamp n = Some ts
    /\ localDate h (toDate ts) <> localDate h (clock i)
    /\ (k = yearKey h (toDate ts) \/ k = yearMonthKey h (toDate ts)).

(** One keystroke in the search box (and whatever snapshot arrived with
    it), followed by the effect; and a sequence of them, which ends where
    an effect throws. *)
Definition searchStep (h : Host) (s : AppState)
    (ev : Readings * string * list Note) : Completion AppState :=
  let '(clock, term, newNotes) := ev in
  App.searchExpansionEffect h clock (setNotes newNotes (setSearchTerm term s)).

Definition searchSession (h : Host) (s : AppState)
    (evs : list (Readings * string * list Note)) : Completion AppState :=
  reduceM (searchStep h) s evs.

End ExpansionSpec.

(** ** What the specification says of the handlers *)

Module HandlersSpec.
Import Calendar Notes JS.

(** "whose timestamp's local year is y (respectively whose year is y and
    whose locale month name is m)"; the whole collection for [SelAll]. *)
Definition selectsDoc (h : Host) (sel : Selection) (d : NoteDoc) : bool :=
  match sel with
  | SelAll => true
  | SelYear y =>
      match docTimestamp d with
      | Some ts => bool_decide (getFullYear h (toDate ts) = y)
      | None => false
      end
  | SelMonth y m =>
      match docTimestamp d with
      | Some ts =>
          bool_decide (getFullYear h (toDate ts) = y
                       /\ toLocaleMonthLong h (toDate ts) = m)
      | None => false
      end
  end.

(** The document behind a note of the snapshot. *)
Definition docOf (n : Note) : NoteDoc :=
  {| docText := text n; docTimestamp := timestamp n |}.

(** "update one document's text" *)
Definition withText (t : string) (d : NoteDoc) : NoteDoc :=
  {| docText := t; docTimestamp := docTimestamp d |}.

End HandlersSpec.

(** ** Sample data *)

Module Samples.
Import Calendar Notes.

(** 20 January 2024, 15:30 UTC; 5 November 2023, 12:00 UTC; and an
    instant in September 2026 taken as now. *)
Definition jan2024 : Note :=
  {| id := "a"; text := "Thinking about the new year, back in January 2024.";
     timestamp := Some (fromMillis 1705764600000) |}.

Definition nov2023 : Note :=
  {| id := "b"; text := "A memory from a different year entirely.";
     timestamp := Some (fromMillis 1699185600000) |}.

Definition fromToday : Note :=
  {| id := "c"; text := "This is a note from today.";
     timestamp := Some (fromMillis 1790000000000) |}.

Definition pending : Note :=
  {| id := "d"; text := "Just now"; timestamp := None |}.

Definition now : Date := {| getTime := 1790000040000 |}.

Definition alice : User := {| uid := "alice" |}.

Definition signedIn : AppState := setNotes [fromToday; jan2024; nov2023; pending]
  {| notes := []; user := Some alice; authReady := true; isRecording := false;
     editingNote := None; editText := ""; showPastNotes := false;
     showDeleteConfirm := None; micError := ""; language := "en-US";
     searchTerm := ""; expandedItems := ∅; themeColor := "#2d3748";
     isLoadingSamples := false; firestoreError := None;
     recognitionRef := Some {| lang := "en-US" |}; transcriptRef := "" |}.

Definition clocks : Clocks :=
  {| clientNow := 1790000040000; serverNow := 1790000047500 |}.

(** Alice's collection in the store, holding the four notes. *)
Definition db : Store.Firestore :=
  {[ notesPath alice :=
       {[ "a" := HandlersSpec.docOf jan2024; "b" := HandlersSpec.docOf nov2023;
          "c" := HandlersSpec.docOf fromToday; "d" := HandlersSpec.docOf pending ]} ]}.

(** Alice after the snapshot of [db] arrived. *)
Definition synced : AppState :=
  setNotes (Store.snapshotNotes (Store.collectionOf db (notesPath alice))) signedIn.

(** ... about to delete the year 2024. *)
Definition deleting2024 : AppState := setShowDeleteConfirm (Some (SelYear 2024)) synced.

(** ... about to delete the year 1999, of which there is no note. *)
Definition deleting1999 : AppState := setShowDeleteConfirm (Some (SelYear 1999)) synced.

(** ... editing the note of November 2023. *)
Definition editing : AppState :=
  setEditText "A memory, corrected." (setEditingNote (Some nov2023) synced).

(** ... with 2023 opened by hand, typing "january" in the search box. *)
Definition searching : AppState :=
  setExpandedItems (λ _, {["2023" := true]}) (setSearchTerm "january" synced).

(** ... holding the microphone button, half a sentence heard. *)
Definition recording : AppState :=
  setTranscript "half a sentence" (setIsRecording true synced).

(** A clock that reads the same instant in every call. *)
Definition steady (now : Date) : Readings := λ _, now.

(** A note written in the last second of that day, UTC, and a render that
    runs across the midnight that follows: the call of the first filter
    reads the clock 10 ms before midnight, every later call 10 ms after. *)
Definition lateNote : Note :=
  {| id := "e"; text := "Almost midnight.";
     timestamp := Some (fromMillis 1790035199000) |}.

Definition acrossMidnight : Readings :=
  λ i, if (i <? 1)%nat then {| getTime := 1790035199990 |}
       else {| getTime := 1790035200010 |}.

(** Two more notes, one of the same day as [fromToday] and one of the same
    day as [jan2024], and the five dated notes newest first. *)
Definition fromToday2 : Note :=
  {| id := "f"; text := "And another one from today.";
     timestamp := Some (fromMillis 1790000020000) |}.

Definition jan2024b : Note :=
  {| id := "g"; text := "An hour earlier, the same January day.";
     timestamp := Some (fromMillis 1705761000000) |}.

Definition diary : list Note := [fromToday2; fromToday; jan2024; jan2024b; nov2023].

End Samples.

(** ** Finite checks *)

Module Enumerate.

(** Every character. *)
Definition allAscii : list ascii := ascii_of_nat <$> seq 0 256.

(** [P] on the [n] integers from [lo] on. *)
Fixpoint allFrom (P : Z -> bool) (n : nat) (lo : Z) : bool :=
  match n with
  | O => true
  | S k => P lo && allFrom P k (lo + 1)
  end.

End Enumerate.

(** ** The rest of the component of [src/App.jsx]: effects, callbacks and
    what the render shows *)

Module Component.
Import Calendar Notes JS.

Definition setMicError (v : string) (s : AppState) : AppState :=
  {| notes := notes s; user := user s; authReady := authReady s;
     isRecording := isRecording s; editingNote := editingNote s;
     editText := editText s; showPastNotes := showPastNotes s;
     showDeleteConfirm := showDeleteConfirm s; micError := v;
     language := language s; searchTerm := searchTerm s;
     expandedItems := expandedItems s; themeColor := themeColor s;
     isLoadingSamples := isLoadingSamples s; firestoreError := firestoreError s;
     recognitionRef := recognitionRef s; transcriptRef := transcriptRef s |}.

Definition setThemeColor (v : string) (s : AppState) : AppState :=
  {| notes := notes s; user := user s; authReady := authReady s;
     isRecording := isRecording s; editingNote := editingNote s;
     editText := editText s; showPastNotes := showPastNotes s;
     showDeleteConfirm := showDeleteConfirm s; micError := micError s;
     language := language s; searchTerm := searchTerm s;
     expandedItems := expandedItems s; themeColor := v;
     isLoadingSamples := isLoadingSamples s; firestoreError := firestoreError s;
     recognitionRef := recognitionRef s; transcriptRef := transcriptRef s |}.

Definition setFirestoreError (v : option string) (s : AppState) : AppState :=
  {| notes := notes s; user := user s; authReady := authReady s;
     isRecording := isRecording s; editingNote := editingNote s;
     editText := editText s; showPastNotes := showPastNotes s;
     showDeleteConfirm := showDeleteConfirm s; micError := micError s;
     language := language s; searchTerm := searchTerm s;
     expandedItems := expandedItems s; themeColor := themeColor s;
     isLoadingSamples := isLoadingSamples s; firestoreError := v;
     recognitionRef := recognitionRef s; transcriptRef := transcriptRef s |}.

(** [recognitionRef.current = r] *)
Definition setRecognition (v : option Recognition) (s : AppState) : AppState :=
  {| notes := notes s; user := user s; authReady := authReady s;
     isRecording := isRecording s; editingNote := editingNote s;
     editText := editText s; showPastNotes := showPastNotes s;
     showDeleteConfirm := showDeleteConfirm s; micError := micError s;
     language := language s; searchTerm := searchTerm s;
     expandedItems := expandedItems s; themeColor := themeColor s;
     isLoadingSamples := isLoadingSamples s; firestoreError := firestoreError s;
     recognitionRef := v; transcriptRef := transcriptRef s |}.

(** *** Theme management *)

(** [localStorage]: strings by key. *)
Abbreviation LocalStorage := (gmap string string).

Definition themeKey : string := "life-diary-theme-color".

(** The first effect: [localStorage.getItem(...) || '#2d3748'], then
    [setThemeColor]. *)
Definition loadThemeEffect (storage : LocalStorage) (s : AppState) : AppState :=
  let savedColor :=
    match storage !! themeKey with
    | Some v => if truthy v then v else "#2d3748"
    | None => "#2d3748"
    end in
  setThemeColor savedColor s.

(** The second effect: [localStorage.setItem(..., themeColor)]. *)
Definition saveThemeEffect (storage : LocalStorage) (s : AppState) : LocalStorage :=
  <[themeKey := themeColor s]> storage.

(** *** The snapshot listener *)

(** The first callback of [onSnapshot], on the documents of the user's
    collection. *)
Definition onSnapshotNext (c : gmap string NoteDoc) (s : AppState) : AppState :=
  setNotes (Store.snapshotNotes c) (setFirestoreError None s).

(** The second callback, on an error with its [code] and [message]. *)
Definition onSnapshotError (code message : string) (s : AppState) : AppState :=
  if String.eqb code "permission-denied"
  then setFirestoreError
         (Some "Permission Denied: Your Firestore security rules have likely expired. Please update them in the Firebase console to allow access.") s
  else setFirestoreError (Some ("Database error: " +:+ message)) s.

(** *** Speech recognition *)

(** The body of the set-up effect; [supported] says whether the browser has
    a [SpeechRecognition] constructor. *)
Definition speechSetupEffect (supported : bool) (s : AppState) : AppState :=
  if negb supported then setMicError "Speech recognition not supported." s
  else setRecognition (Some {| lang := language s |}) s.

(** [r.onresult], on the transcript [e.results[0][0].transcript]. *)
Definition onresult (transcript : string) (s : AppState) : AppState :=
  setTranscript transcript s.

(** [r.onerror], on the error code [e.error]. *)
Definition onerror (error : string) (s : AppState) : AppState :=
  setIsRecording false (setMicError ("Speech error: " +:+ error) s).

(** [r.onend] *)
Definition onend (clk : Clocks) (s : AppState) : AppState * list Request :=
  (setIsRecording false s,
   if truthy (trim (transcriptRef s))
   then App.addNote clk s (transcriptRef s) else []).

(** What can happen around the microphone button: it is pressed or
    released, or the recognition object calls one of its handlers. *)
Inductive SpeechEvent :=
| Pressed
| Released
| Heard (transcript : string)
| Failed (error : string)
| Ended.

Definition speechStep (clk : Clocks) (s : AppState) (ev : SpeechEvent)
    : AppState * list Request :=
  match ev with
  | Pressed => App.handleRecordStart s
  | Released => App.handleRecordStop s
  | Heard t => (onresult t s, [])
  | Failed e => (onerror e s, [])
  | Ended => onend clk s
  end.

(** A sequence of events, with the calls made along the way in order. *)
Fixpoint speechRun (clk : Clocks) (s : AppState) (evs : list SpeechEvent)
    : AppState * list Request :=
  match evs with
  | [] => (s, [])
  | ev :: evs' =>
      let '(s1, r1) := speechStep clk s ev in
      let '(s2, r2) := speechRun clk s1 evs' in
      (s2, r1 ++ r2)
  end.

(** *** The colours of one render *)

Section WithMathPow.

Variable Math_pow : float -> float -> float.

Definition textColor (s : AppState) : string :=
  Color.getTextColor Math_pow (themeColor s).

Definition subtleBgColor (s : AppState) : string :=
  Color.shadeColor (themeColor s)
    (if String.eqb (textColor s) "#ffffff" then 20 else -10).

Definition accentColor (s : AppState) : string :=
  Color.shadeColor (themeColor s)
    (if String.eqb (textColor s) "#ffffff" then 40 else -20).

Definition micColor (s : AppState) : string :=
  Color.getTextColor Math_pow (accentColor s).

End WithMathPow.

(** [shadeColor(themeColor, -5) + '80'], the background of the header and
    the footer. *)
Definition barBackground (s : AppState) : string :=
  Color.shadeColor (themeColor s) (-5) +:+ "80".

(** *** What the render shows of the past notes *)

(** [expandedItems[key]] read as a condition. *)
Definition isExpanded (s : AppState) (key : string) : bool :=
  default false (expandedItems s !! key).

(** The conditions under which the days of [structuredPastNotes[year][month]]
    are rendered: [pastNotesRaw.length > 0 && ...], [showPastNotes && ...],
    [expandedItems[year] && ...] and [expandedItems[`${year}-${month}`] && ...]. *)
Definition monthShown (s : AppState) (g : Groups) (year month : string) : bool :=
  (0 <? length (pastRaw g))%nat
  && showPastNotes s
  && isExpanded s year
  && isExpanded s (year +:+ "-" +:+ month).

(** *** The delete buttons of the hierarchy *)

(** [parseInt(s)] with no radix: leading whitespace, a sign, then
    hexadecimal digits after a [0x] prefix and decimal digits otherwise. *)
Definition parseIntAuto (s : string) : option Z :=
  let '(sign, s1) := stripSign (trimStart s) in
  match s1 with
  | String "0" (String "x" s2) | String "0" (String "X" s2) =>
      (λ v, sign * v) <$> parseDigits 16 None s2
  | _ => (λ v, sign * v) <$> parseDigits 10 None s1
  end.

(** The button beside a year: [handleDeleteSelection({type:'year',
    year:parseInt(year)})], [year] being a key of the hierarchy.  [None]
    stands for a selection whose year is [NaN]. *)
Definition deleteYearClicked (year : string) (s : AppState) : option AppState :=
  (λ y, App.handleDeleteSelection (SelYear y) s) <$> parseIntAuto year.

(** The button beside a month: [handleDeleteSelection({type:'month',
    year:parseInt(year), month})]. *)
Definition deleteMonthClicked (year month : string) (s : AppState)
    : option AppState :=
  (λ y, App.handleDeleteSelection (SelMonth y month) s) <$> parseIntAuto year.

End Component.

(** ** More of the earlier revision *)

Module EarlierComponent.
Import Calendar Notes JS.

(** [handleConfirmDeleteAll]: the documents are read from the store with
    [getDocs], not taken from the notes of the state; [read] says how that
    call ends.  The dialog is closed after the [try], whatever happened in
    it; the dialog flag of this revision is a boolean, [false] being [None]
    here. *)
Definition handleConfirmDeleteAll (read : Answer) (db : Store.Firestore)
    (s : AppState) : AppState * list Request :=
  match user s with
  | None => (s, [])
  | Some u =>
      match read with
      | Rejected => (setShowDeleteConfirm None s, [])
      | Resolved =>
          let querySnapshot := map_to_list (Store.collectionOf db (notesPath u)) in
          (setShowDeleteConfirm None s,
           [CommitBatch ((λ kv, (notesPath u, kv.1)) <$> querySnapshot)])
      end
  end.

(** [deleteNote] of this revision. *)
Definition deleteNote (s : AppState) (docId : string) : list Request :=
  match user s with
  | None => []
  | Some u => [DeleteDoc (notesPath u) docId]
  end.

End EarlierComponent.

(** ** Properties of strings and of what is on screen, to state results
    with *)

Module ViewSpec.
Import Calendar Notes JS.

(** Only whitespace. *)
Fixpoint blank (s : string) : bool :=
  match s with
  | EmptyString => true
  | String c s' => isWhiteSpace c && blank s'
  end.

Definition firstChar (s : string) : option ascii :=
  match s with EmptyString => None | String c _ => Some c end.

Fixpoint lastChar (s : string) : option ascii :=
  match s with
  | EmptyString => None
  | String c EmptyString => Some c
  | String _ s' => lastChar s'
  end.

(** Only characters of ASCII. *)
Fixpoint asciiOnly (s : string) : bool :=
  match s with
  | EmptyString => true
  | String c s' => (N_of_ascii c <? 128)%N && asciiOnly s'
  end.

(** No whitespace at either end. *)
Definition Trimmed (s : string) : Prop :=
  (forall c, firstChar s = Some c -> isWhiteSpace c = false)
  /\ (forall c, lastChar s = Some c -> isWhiteSpace c = false).

(** No level of the hierarchy is empty. *)
Definition NoEmptyLevel (acc : Hierarchy) : Prop :=
  forall y ym, acc !! y = Some ym ->
    ym <> ∅
    /\ forall m md, ym !! m = Some md ->
         md <> ∅
         /\ forall day l, md !! day = Some l -> l <> [].

(** Newest first, a note without a timestamp counting as the epoch. *)
Definition NewestFirst (l : list Note) : Prop :=
  StronglySorted (λ a b, Store.sortKey b <= Store.sortKey a) l.

(** From [s] to [s'] two cells only are written, the expansion mapping and
    the flag of the past section, and the flag is not lowered. *)
Definition Framed (s s' : AppState) : Prop :=
  s' = setExpandedItems (λ _, expandedItems s')
         (setShowPastNotes (showPastNotes s') s)
  /\ (showPastNotes s = true -> showPastNotes s' = true).

(** The call is to the collection at [path], or to no collection. *)
Definition addresses (path : string) (r : Request) : Prop :=
  match r with
  | AddDoc p _ | UpdateDoc p _ _ | DeleteDoc p _ => p = path
  | CommitBatch refs => forall ref, ref ∈ refs -> ref.1 = path
  | RecognitionStart | RecognitionStop | Alert _ => True
  end.

(** The note is rendered: in the list under "Today", or under a day of a
    month whose list is open. *)
Definition OnScreen (s : AppState) (g : Groups) (n : Note) : Prop :=
  n ∈ today g
  \/ exists y m day,
       n ∈ bucket (structured g) y m day /\ Component.monthShown s g y m = true.

End ViewSpec.

(** * Proofs *)

(** ** Finite enumerations *)

Module EnumerateFacts.
Import Enumerate.

Lemma allAscii_complete (c : ascii) : c ∈ allAscii.
Proof.
  rewrite <- (ascii_nat_embedding c).
  apply list_elem_of_fmap_2, elem_of_seq.
  pose proof (nat_ascii_bounded c). lia.
Qed.

Lemma forallb_ascii (P : ascii -> bool) :
  forallb P allAscii = true -> forall c, P c = true.
Proof.
  intros H c. rewrite forallb_forall in H.
  apply H, list_elem_of_In, allAscii_complete.
Qed.

Lemma allFrom_spec (P : Z -> bool) (n : nat) (lo : Z) :
  allFrom P n lo = true ->
  forall z, lo <= z < lo + Z.of_nat n -> P z = true.
Proof.
  revert lo. induction n as [|n IH]; intros lo H z Hz; [lia|].
  cbn [allFrom] in H. apply andb_prop in H as [H0 H1].
  destruct (decide (z = lo)) as [->|Hne]; [done|].
  apply (IH (lo + 1) H1). lia.
Qed.

Lemma forallb_range (P : Z -> bool) (lo : Z) (n : Z) :
  allFrom P (Z.to_nat n) lo = true -> forall z, lo <= z < lo + n -> P z = true.
Proof. intros H z Hz. apply (allFrom_spec P (Z.to_nat n) lo H). lia. Qed.

Lemma forallb_ascii2 (P : ascii -> ascii -> bool) :
  forallb (λ a, forallb (P a) allAscii) allAscii = true ->
  forall a b, P a b = true.
Proof.
  intros H a b.
  apply (forallb_ascii (P a)).
  apply (forallb_ascii (λ a, forallb (P a) allAscii) H).
Qed.

End EnumerateFacts.

Module ColorFacts.
Import Enumerate EnumerateFacts ColorSpec.

Lemma hexPair_range c1 c2 v : hexPair c1 c2 = Some v -> 0 <= v <= 255.
Proof.
  intros H.
  assert (Hall : forall a b,
    match hexPair a b with
    | Some v => (0 <=? v) && (v <=? 255)
    | None => true
    end = true).
  { apply (forallb_ascii2 (λ a b, match hexPair a b with
                                   | Some v => (0 <=? v) && (v <=? 255)
                                   | None => true
                                   end)).
    vm_compute. reflexivity. }
  specialize (Hall c1 c2). rewrite H in Hall. lia.
Qed.

Lemma parseInt_hexPair c1 c2 v :
  hexPair c1 c2 = Some v ->
  JS.parseInt (String c1 (String c2 EmptyString)) 16 = Some v.
Proof.
  intros H.
  assert (Hall : forall a b,
    match hexPair a b with
    | Some v =>
        match JS.parseInt (String a (String b EmptyString)) 16 with
        | Some w => w =? v
        | None => false
        end
    | None => true
    end = true).
  { apply (forallb_ascii2 (λ a b,
      match hexPair a b with
      | Some v =>
          match JS.parseInt (String a (String b EmptyString)) 16 with
          | Some w => w =? v
          | None => false
          end
      | None => true
      end)).
    vm_compute. reflexivity. }
  specialize (Hall c1 c2). rewrite H in Hall.
  destruct (JS.parseInt _ 16) as [w|]; [|done].
  f_equal. lia.
Qed.

(** The padded byte of [shadeColor] is the two-digit byte, and reads back. *)
Lemma hexByte_hex2 n : 0 <= n <= 255 -> Color.hexByte n = hex2 n.
Proof.
  intros Hn.
  assert (Hall : forall z, 0 <= z < 0 + 256 ->
            String.eqb (Color.hexByte z) (hex2 z) = true).
  { apply (forallb_range (λ z, String.eqb (Color.hexByte z) (hex2 z))).
    vm_compute. reflexivity. }
  apply String.eqb_eq, Hall. lia.
Qed.

Lemma hexPair_hex2 n :
  0 <= n <= 255 ->
  hexPair (JS.digitChar (n / 16)) (JS.digitChar (n mod 16)) = Some n.
Proof.
  intros Hn.
  assert (Hall : forall z, 0 <= z < 0 + 256 ->
    match hexPair (JS.digitChar (z / 16)) (JS.digitChar (z mod 16)) with
    | Some w => w =? z
    | None => false
    end = true).
  { apply (forallb_range (λ z,
      match hexPair (JS.digitChar (z / 16)) (JS.digitChar (z mod 16)) with
      | Some w => w =? z
      | None => false
      end)).
    vm_compute. reflexivity. }
  specialize (Hall n ltac:(lia)).
  destruct (hexPair _ _) as [w|]; [|done]. f_equal. lia.
Qed.

(** On a channel in range and a percent of at least -100 the code's
    truncation and one-sided clamp are the two-sided clamp of the scaled
    channel. *)
Lemma shadeChannel_scaled c p :
  0 <= c -> -100 <= p ->
  Color.shadeChannel (Some c) p = scaled c p.
Proof.
  intros Hc Hp. unfold Color.shadeChannel, scaled, JS.parseIntOfQuotient. simpl.
  rewrite Z.quot_div_nonneg by nia.
  assert (0 <= c * (100 + p) / 100) by (apply Z.div_pos; nia).
  destruct (Z.ltb_spec (c * (100 + p) / 100) 255); lia.
Qed.

Lemma scaled_range c p : 0 <= scaled c p <= 255.
Proof. unfold scaled. lia. Qed.

Lemma hexColor_inv s r g b :
  hexColor s = Some (r, g, b) ->
  exists r1 r2 g1 g2 b1 b2,
    s = String "#" (String r1 (String r2 (String g1 (String g2
          (String b1 (String b2 EmptyString))))))
    /\ hexPair r1 r2 = Some r /\ hexPair g1 g2 = Some g /\ hexPair b1 b2 = Some b.
Proof.
  unfold hexColor. intros H.
  destruct s as [|c0 s]; [done|].
  destruct c0 as [[] [] [] [] [] [] [] []]; try discriminate.
  destruct s as [|r1 [|r2 [|g1 [|g2 [|b1 [|b2 [|? ?]]]]]]]; try discriminate.
  destruct (hexPair r1 r2) as [r'|] eqn:Hr; [|done].
  destruct (hexPair g1 g2) as [g'|] eqn:Hg; [|done].
  destruct (hexPair b1 b2) as [b'|] eqn:Hb; [|done].
  inversion H; subst. by exists r1, r2, g1, g2, b1, b2.
Qed.

Lemma substring_channels r1 r2 g1 g2 b1 b2 :
  let s := String "#" (String r1 (String r2 (String g1 (String g2
             (String b1 (String b2 EmptyString)))))) in
  JS.substring 1 3 s = String r1 (String r2 EmptyString)
  /\ JS.substring 3 5 s = String g1 (String g2 EmptyString)
  /\ JS.substring 5 7 s = String b1 (String b2 EmptyString)
  /\ JS.substring 1 7 s
     = String r1 (String r2 (String g1 (String g2 (String b1 (String b2 EmptyString))))).
Proof. by repeat split. Qed.

Lemma leb_ltb_channel r :
  0 <= r <= 255 ->
  ((JS.toNumber r / 255 <=? 0.03928) = (JS.toNumber r / 255 <? 0.03928))%float.
Proof.
  intros Hr.
  assert (Hall : forall z, 0 <= z < 0 + 256 ->
    Bool.eqb (JS.toNumber z / 255 <=? 0.03928)%float
             (JS.toNumber z / 255 <? 0.03928)%float = true).
  { apply (forallb_range (λ z,
      Bool.eqb (JS.toNumber z / 255 <=? 0.03928)%float
               (JS.toNumber z / 255 <? 0.03928)%float)).
    vm_compute. reflexivity. }
  apply Bool.eqb_prop, Hall. lia.
Qed.

Lemma gamma_linearize pow r :
  0 <= r <= 255 ->
  Color.gamma pow (JS.toNumber r / 255)%float
  = linearize pow (JS.toNumber r / 255)%float.
Proof.
  intros Hr. unfold Color.gamma, linearize. by rewrite leb_ltb_channel.
Qed.

Lemma getTextColor_hexColor pow bg r g b :
  hexColor bg = Some (r, g, b) ->
  Color.getTextColor pow bg
  = if (0.179 <? relativeLuminance pow r g b)%float then "#000000" else "#ffffff".
Proof.
  intros H.
  destruct (hexColor_inv _ _ _ _ H) as (r1 & r2 & g1 & g2 & b1 & b2 & -> & Hr & Hg & Hb).
  unfold Color.getTextColor.
  change (JS.truthy (String "#" _)) with true.
  change (JS.charAt 0 (String "#" _)) with "#".
  change (("#" =? "#")%string) with true.
  cbv iota. change (negb true) with false. cbv iota.
  destruct (substring_channels r1 r2 g1 g2 b1 b2) as (_ & _ & _ & ->).
  change (JS.substring 0 2 (String r1 (String r2 ?t))) with (String r1 (String r2 EmptyString)).
  change (JS.substring 2 4 (String r1 (String r2 (String g1 (String g2 ?t)))))
    with (String g1 (String g2 EmptyString)).
  change (JS.substring 4 6 (String r1 (String r2 (String g1 (String g2
            (String b1 (String b2 EmptyString)))))))
    with (String b1 (String b2 EmptyString)).
  rewrite (parseInt_hexPair _ _ _ Hr), (parseInt_hexPair _ _ _ Hg),
    (parseInt_hexPair _ _ _ Hb).
  cbn [fmap list_fmap nth JS.toNumberOrNaN].
  rewrite !gamma_linearize by eauto using hexPair_range.
  reflexivity.
Qed.

Lemma hexColor_append r1 r2 g1 g2 b1 b2 :
  hexColor ("#" +:+ String r1 (String r2 EmptyString)
                +:+ String g1 (String g2 EmptyString)
                +:+ String b1 (String b2 EmptyString))
  = match hexPair r1 r2, hexPair g1 g2, hexPair b1 b2 with
    | Some r, Some g, Some b => Some (r, g, b)
    | _, _, _ => None
    end.
Proof. reflexivity. Qed.

(** C8, as amended: on a [#rrggbb] colour and a percent of at least -100
    (and within the exact range of the arithmetic) [shadeColor] scales each
    channel by (100+p)/100, truncated, clamps it into [0,255], and writes
    the three channels as two lower-case hexadecimal digits each: the result
    is again a six-digit colour, with every channel in [0,255]; and
    [shadeColor "#808080" 0 = "#808080"]. *)
Theorem shadeColor_scales_and_clamps (color : string) (r g b p : Z) :
  hexColor color = Some (r, g, b) ->
  -100 <= p ->
  exactPercent p ->
  Color.shadeColor color p
    = "#" +:+ hex2 (scaled r p) +:+ hex2 (scaled g p) +:+ hex2 (scaled b p)
  /\ hexColor (Color.shadeColor color p)
     = Some (scaled r p, scaled g p, scaled b p)
  /\ (0 <= scaled r p <= 255 /\ 0 <= scaled g p <= 255 /\ 0 <= scaled b p <= 255)
  /\ Color.shadeColor "#808080" 0 = "#808080".
Proof.
  intros H Hp _.
  destruct (hexColor_inv _ _ _ _ H) as (r1 & r2 & g1 & g2 & b1 & b2 & -> & Hr & Hg & Hb).
  pose proof (hexPair_range _ _ _ Hr). pose proof (hexPair_range _ _ _ Hg).
  pose proof (hexPair_range _ _ _ Hb).
  assert (Heq : Color.shadeColor
      (String "#" (String r1 (String r2 (String g1 (String g2
         (String b1 (String b2 EmptyString))))))) p
    = "#" +:+ hex2 (scaled r p) +:+ hex2 (scaled g p) +:+ hex2 (scaled b p)).
  { unfold Color.shadeColor.
    destruct (substring_channels r1 r2 g1 g2 b1 b2) as (-> & -> & -> & _).
    rewrite (parseInt_hexPair _ _ _ Hr), (parseInt_hexPair _ _ _ Hg),
      (parseInt_hexPair _ _ _ Hb).
    rewrite !shadeChannel_scaled by lia.
    by rewrite !hexByte_hex2 by apply scaled_range. }
  split; [exact Heq|]. split.
  - rewrite Heq. unfold hex2. rewrite hexColor_append.
    by rewrite !hexPair_hex2 by apply scaled_range.
  - split; [auto using scaled_range | by vm_compute].
Qed.

Lemma shadeColor_scales_and_clamps_witness :
  Color.shadeColor "#2d3748" 20 = "#364256"
  /\ hexColor (Color.shadeColor "#2d3748" 20) = Some (54, 66, 86).
Proof.
  destruct (shadeColor_scales_and_clamps "#2d3748" 45 55 72 20)
    as (H1 & H2 & _).
  - reflexivity.
  - lia.
  - unfold exactPercent. vm_compute. discriminate.
  - split; [exact H1 | exact H2].
Defined.

(** C8, as stated, fails below -100: the code clamps from above only, so a
    non-zero channel goes negative and is written with a minus sign. *)
Lemma shadeColor_not_clamped_below :
  Color.shadeColor "#808080" (-200) = "#-80-80-80"
  /\ Color.shadeChannel (Some 128) (-200) = -128
  /\ hexColor "#808080" = Some (128, 128, 128)
  /\ scaled 128 (-200) = 0
  /\ hexColor (Color.shadeColor "#808080" (-200)) = None.
Proof. by vm_compute. Qed.

(** C9: on a [#rrggbb] background the picker returns black exactly when the
    relative luminance of the specification exceeds 0.179 and white
    otherwise, whatever the host's [Math.pow]; black background gives
    white; and white background gives black on a host whose [Math.pow]
    maps base 1 to 1. *)
Theorem getTextColor_luminance_threshold
    (Math_pow : float -> float -> float) (bg : string) (r g b : Z) :
  hexColor bg = Some (r, g, b) ->
  (Color.getTextColor Math_pow bg = "#000000"
     <-> (0.179 <? relativeLuminance Math_pow r g b)%float = true)
  /\ (Color.getTextColor Math_pow bg = "#ffffff"
     <-> (0.179 <? relativeLuminance Math_pow r g b)%float = false)
  /\ Color.getTextColor Math_pow "#000000" = "#ffffff"
  /\ (Math_pow 1%float 2.4%float = 1%float ->
      Color.getTextColor Math_pow "#ffffff" = "#000000").
Proof.
  intros H. rewrite (getTextColor_hexColor _ _ _ _ _ H).
  split; [|split; [|split]].
  - destruct (0.179 <? _)%float; split; done.
  - destruct (0.179 <? _)%float; split; done.
  - by vm_compute.
  - intros Hpow.
    rewrite (getTextColor_hexColor Math_pow "#ffffff" 255 255 255 eq_refl).
    unfold relativeLuminance, linearize.
    change (JS.toNumber 255 / 255)%float with 1%float.
    change (1 <? 0.03928)%float with false. cbv iota.
    change ((1 + 0.055) / 1.055)%float with 1%float.
    rewrite Hpow. by vm_compute.
Qed.

Lemma getTextColor_luminance_threshold_witness :
  Color.getTextColor RefMath.pow "#2d3748" = "#ffffff"
  /\ Color.getTextColor RefMath.pow "#ffffff" = "#000000".
Proof.
  destruct (getTextColor_luminance_threshold RefMath.pow "#2d3748" 45 55 72 eq_refl)
    as (_ & Hw & _ & Hwhite).
  split.
  - apply Hw. vm_compute. reflexivity.
  - apply Hwhite. vm_compute. reflexivity.
Defined.

End ColorFacts.


(** ** The calendar: a date string names one local day *)

Module CalendarFacts.
Import Enumerate EnumerateFacts Calendar.

Lemma yearOfEra_bounds doe :
  0 <= doe < 146097 ->
  let yoe := (doe - doe / 1460 + doe / 36524 - doe / 146096) / 365 in
  let doy := doe - (365 * yoe + yoe / 4 - yoe / 100) in
  0 <= yoe <= 399 /\ 0 <= doy <= 365.
Proof.
  intros H yoe doy. subst yoe doy.
  Z.to_euclidean_division_equations; lia.
Qed.

Lemma month_day_bounds doy :
  0 <= doy <= 365 ->
  let mp := (5 * doy + 2) / 153 in
  0 <= mp <= 11 /\ 1 <= doy - (153 * mp + 2) / 5 + 1 <= 31.
Proof.
  intros H mp. subst mp.
  Z.to_euclidean_division_equations; lia.
Qed.

(** [civil] has [daysFromCivil] as a left inverse, and yields a month
    index and a day of the month in range. *)
Lemma civil_spec z :
  daysFromCivil (civil z) = z
  /\ 0 <= (civil z).1.2 <= 11 /\ 1 <= (civil z).2 <= 31.
Proof.
  unfold civil.
  set (era := (z + 719468) / 146097).
  set (doe := z + 719468 - era * 146097).
  assert (Hdoe : 0 <= doe < 146097).
  { unfold doe, era. pose proof (Z.div_mod (z + 719468) 146097).
    pose proof (Z.mod_pos_bound (z + 719468) 146097). lia. }
  pose proof (yearOfEra_bounds doe Hdoe) as Hy. cbv zeta in Hy.
  set (yoe := (doe - doe / 1460 + doe / 36524 - doe / 146096) / 365) in *.
  set (doy := doe - (365 * yoe + yoe / 4 - yoe / 100)) in *.
  pose proof (month_day_bounds doy ltac:(lia)) as Hm. cbv zeta in Hm.
  set (mp := (5 * doy + 2) / 153) in *.
  set (d := doy - (153 * mp + 2) / 5 + 1) in *.
  cbv zeta.
  assert (Hera : (yoe + era * 400) / 400 = era).
  { rewrite Z.div_add by lia. rewrite Z.div_small by lia. lia. }
  destruct (Z.ltb_spec mp 10).
  - destruct (Z.leb_spec (mp + 3) 2); [lia|].
    cbn [fst snd]. split; [|lia].
    unfold daysFromCivil.
    destruct (Z.leb_spec (mp + 3 - 1 + 1) 2); [lia|].
    destruct (Z.ltb_spec 2 (mp + 3 - 1 + 1)); [|lia].
    rewrite Hera.
    replace (mp + 3 - 1 + 1 - 3) with mp by lia.
    replace (yoe + era * 400 - era * 400) with yoe by lia.
    unfold d, doy, doe. lia.
  - destruct (Z.leb_spec (mp - 9) 2); [|lia].
    cbn [fst snd]. split; [|lia].
    unfold daysFromCivil.
    destruct (Z.leb_spec (mp - 9 - 1 + 1) 2); [|lia].
    destruct (Z.ltb_spec 2 (mp - 9 - 1 + 1)); [lia|].
    replace (yoe + era * 400 + 1 - 1) with (yoe + era * 400) by lia.
    rewrite Hera.
    replace (mp - 9 - 1 + 1 + 9) with mp by lia.
    replace (yoe + era * 400 - era * 400) with yoe by lia.
    unfold d, doy, doe. lia.
Qed.

Lemma civil_inj z1 z2 : civil z1 = civil z2 -> z1 = z2.
Proof.
  intros H. rewrite <- (proj1 (civil_spec z1)), <- (proj1 (civil_spec z2)).
  by rewrite H.
Qed.

Lemma append_inj_length (a a' b b' : string) :
  String.length a = String.length a' ->
  a +:+ b = a' +:+ b' -> a = a' /\ b = b'.
Proof.
  revert a'. induction a as [|c a IH]; intros [|c' a'] Hlen Heq;
    try discriminate; [done|].
  cbn in Hlen, Heq. injection Heq; clear Heq; intros Heq ->.
  destruct (IH a' ltac:(lia) Heq) as [-> ->]. done.
Qed.

Lemma padUint_value k u : N.of_uint (JS.padUint k u) = N.of_uint u.
Proof. induction k as [|k IH]; [done|]. exact IH. Qed.

(** A zero-padded decimal string reads back as the number. *)
Lemma toZeroPaddedDecimalString_inj n n' k k' :
  0 <= n -> 0 <= n' ->
  JS.toZeroPaddedDecimalString n k = JS.toZeroPaddedDecimalString n' k' ->
  n = n'.
Proof.
  unfold JS.toZeroPaddedDecimalString. intros Hn Hn' H.
  apply (f_equal NilEmpty.uint_of_string) in H.
  rewrite !NilEmpty.usu in H. injection H; clear H; intros H.
  apply (f_equal N.of_uint) in H.
  rewrite !padUint_value, !DecimalN.Unsigned.of_to in H. lia.
Qed.

Lemma numberToString_inj (a b : Z) :
  JS.numberToString a = JS.numberToString b -> a = b.
Proof.
  unfold JS.numberToString. intros H.
  apply (f_equal NilEmpty.int_of_string) in H.
  rewrite !NilEmpty.isi in H. injection H; clear H; intros H.
  by apply DecimalZ.to_int_inj.
Qed.

Lemma string_of_uint_not_dash u s :
  NilEmpty.string_of_uint u <> String "-" s.
Proof. destruct u; discriminate. Qed.

Lemma yearString_inj y y' : yearString y = yearString y' -> y = y'.
Proof.
  unfold yearString.
  destruct (Z.ltb_spec y 0) as [Hy|Hy], (Z.ltb_spec y' 0) as [Hy'|Hy'];
    cbn [String.append]; intros H.
  - injection H; clear H; intros H. apply toZeroPaddedDecimalString_inj in H; lia.
  - symmetry in H. by apply string_of_uint_not_dash in H.
  - by apply string_of_uint_not_dash in H.
  - apply toZeroPaddedDecimalString_inj in H; lia.
Qed.

Lemma dayNames_length wd :
  0 <= wd < 7 -> String.length (nth (Z.to_nat wd) dayNames "") = 3%nat.
Proof.
  intros H.
  assert (Hall : forall z, 0 <= z < 0 + 7 ->
    (String.length (nth (Z.to_nat z) dayNames "") =? 3)%nat = true).
  { apply (forallb_range (λ z,
      (String.length (nth (Z.to_nat z) dayNames "") =? 3)%nat)).
    vm_compute. reflexivity. }
  apply Nat.eqb_eq, Hall. lia.
Qed.

Lemma monthNames_length m :
  0 <= m <= 11 -> String.length (nth (Z.to_nat m) monthNames "") = 3%nat.
Proof.
  intros H.
  assert (Hall : forall z, 0 <= z < 0 + 12 ->
    (String.length (nth (Z.to_nat z) monthNames "") =? 3)%nat = true).
  { apply (forallb_range (λ z,
      (String.length (nth (Z.to_nat z) monthNames "") =? 3)%nat)).
    vm_compute. reflexivity. }
  apply Nat.eqb_eq, Hall. lia.
Qed.

Lemma monthNames_inj m m' :
  0 <= m <= 11 -> 0 <= m' <= 11 ->
  nth (Z.to_nat m) monthNames "" = nth (Z.to_nat m') monthNames "" -> m = m'.
Proof.
  intros Hm Hm' H.
  assert (Hall : forall a, 0 <= a < 0 + 12 ->
    allFrom (λ b, implb (String.eqb (nth (Z.to_nat a) monthNames "")
                                    (nth (Z.to_nat b) monthNames ""))
                        (a =? b)) 12 0 = true).
  { apply (forallb_range (λ a,
      allFrom (λ b, implb (String.eqb (nth (Z.to_nat a) monthNames "")
                                      (nth (Z.to_nat b) monthNames ""))
                          (a =? b)) 12 0)).
    vm_compute. reflexivity. }
  pose proof (allFrom_spec _ _ _ (Hall m ltac:(lia)) m' ltac:(lia)) as Hb.
  cbv beta in Hb. rewrite H, String.eqb_refl in Hb. cbn in Hb. lia.
Qed.

Lemma dayOfMonth_length d :
  1 <= d <= 31 -> String.length (JS.toZeroPaddedDecimalString d 2) = 2%nat.
Proof.
  intros H.
  assert (Hall : forall z, 0 <= z < 0 + 100 ->
    (String.length (JS.toZeroPaddedDecimalString z 2) =? 2)%nat = true).
  { apply (forallb_range (λ z,
      (String.length (JS.toZeroPaddedDecimalString z 2) =? 2)%nat)).
    vm_compute. reflexivity. }
  apply Nat.eqb_eq, Hall. lia.
Qed.

Lemma space_append_inj (x y : string) : " " +:+ x = " " +:+ y -> x = y.
Proof. intros H. by injection H. Qed.

(** Two local days with the same date string are the same day. *)
Lemma dateString_inj z1 z2 : dateString z1 = dateString z2 -> z1 = z2.
Proof.
  unfold dateString. intros H. apply civil_inj.
  pose proof (civil_spec z1) as (_ & Hm1 & Hd1).
  pose proof (civil_spec z2) as (_ & Hm2 & Hd2).
  destruct (civil z1) as [[y1 m1] d1], (civil z2) as [[y2 m2] d2].
  cbn [fst snd] in *.
  apply append_inj_length in H as [_ H].
  2:{ rewrite !dayNames_length; [done| |]; unfold weekDay;
      apply Z.mod_pos_bound; lia. }
  apply space_append_inj in H.
  apply append_inj_length in H as [Hm H].
  2:{ by rewrite !monthNames_length. }
  apply monthNames_inj in Hm as ->; [|done..].
  apply space_append_inj in H.
  apply append_inj_length in H as [Hd H].
  2:{ by rewrite !dayOfMonth_length. }
  apply toZeroPaddedDecimalString_inj in Hd as ->; [|lia..].
  apply space_append_inj in H.
  by apply yearString_inj in H as ->.
Qed.

(** [toDateString] compares local calendar days: two dates have the same
    string exactly when they fall on the same local year, month and day. *)
Lemma toDateString_same_day h a b :
  toDateString h a = toDateString h b <-> localDate h a = localDate h b.
Proof.
  unfold toDateString, localDate. split.
  - intros H. by rewrite (dateString_inj _ _ H).
  - intros H. by rewrite (civil_inj _ _ H).
Qed.

End CalendarFacts.

(** ** The grouping *)

Module GroupingFacts.
Import Calendar Notes JS GroupingSpec.

Lemma filterM_Normal {A} (p : A -> bool) (l : list A) :
  filterM (λ x, Normal (p x)) l = Normal (List.filter p l).
Proof.
  induction l as [|x l IH]; [done|].
  cbn [filterM List.filter]. rewrite IH. cbn. by destruct (p x).
Qed.

Lemma elem_of_filter {A} (p : A -> bool) (l : list A) (x : A) :
  x ∈ List.filter p l <-> x ∈ l /\ p x = true.
Proof. rewrite !list_elem_of_In. apply filter_In. Qed.

Lemma filterMi_Normal {A} (p : nat -> A -> bool) (k : nat) (l : list A) :
  filterMi (λ i x, Normal (p i x)) k l = Normal (filterAt p k l).
Proof.
  revert k. induction l as [|x l IH]; intros k; [done|].
  cbn [filterMi filterAt]. rewrite IH. cbn. by destruct (p k x).
Qed.

(** A test that does not look at the number of the call. *)
Lemma filterAt_filter {A} (p : nat -> A -> bool) (q : A -> bool) (k : nat)
    (l : list A) :
  (forall i x, p i x = q x) -> filterAt p k l = List.filter q l.
Proof.
  intros H. revert k. induction l as [|x l IH]; intros k; [done|].
  cbn [filterAt List.filter]. by rewrite H, IH.
Qed.

Lemma elem_of_filterAt {A} (p : nat -> A -> bool) (k : nat) (l : list A) (x : A) :
  x ∈ filterAt p k l <-> exists i, l !! i = Some x /\ p (k + i)%nat x = true.
Proof.
  revert k. induction l as [|x0 l IH]; intros k; cbn [filterAt].
  - split; [by intros ?%elem_of_nil | by intros (i & Hi & _)].
  - assert (Hrhs : (exists i, (x0 :: l) !! i = Some x /\ p (k + i)%nat x = true)
                   <-> (x0 = x /\ p k x = true)
                       \/ exists j, l !! j = Some x /\ p (S k + j)%nat x = true).
    { split.
      - intros ([|j] & Hi & Hp).
        + left. rewrite Nat.add_0_r in Hp. by injection Hi.
        + right. exists j. rewrite Nat.add_succ_r in Hp. done.
      - intros [[-> Hp]|(j & Hj & Hp)].
        + exists 0%nat. by rewrite Nat.add_0_r.
        + exists (S j). by rewrite Nat.add_succ_r. }
    rewrite Hrhs. destruct (p k x0) eqn:Hp0.
    + rewrite elem_of_cons, IH. split.
      * intros [->|H]; [left|right]; done.
      * intros [[-> _]|H]; [left|right]; done.
    + rewrite IH. split; [by right|].
      intros [[-> Hp]|H]; [congruence|done].
Qed.

Lemma filterAt_all {A} (p : nat -> A -> bool) (k : nat) (l : list A) :
  (forall i x, x ∈ l -> p i x = true) -> filterAt p k l = l.
Proof.
  revert k. induction l as [|x l IH]; intros k H; [done|]. cbn [filterAt].
  rewrite (H k x) by left. f_equal. apply IH. intros i y Hy. apply H. by right.
Qed.

Lemma filterAt_none {A} (p : nat -> A -> bool) (k : nat) (l : list A) :
  (forall i x, x ∈ l -> p i x = false) -> filterAt p k l = [].
Proof.
  revert k. induction l as [|x l IH]; intros k H; [done|]. cbn [filterAt].
  rewrite (H k x) by left. apply IH. intros i y Hy. apply H. by right.
Qed.

Lemma filterAt_sublist {A} (p : nat -> A -> bool) (k : nat) (l : list A) :
  filterAt p k l `sublist_of` l.
Proof.
  revert k. induction l as [|x l IH]; intros k; [constructor|].
  cbn [filterAt]. destruct (p k x); by constructor.
Qed.

Lemma filter_sublist {A} (p : A -> bool) (l : list A) :
  List.filter p l `sublist_of` l.
Proof.
  induction l as [|x l IH]; [constructor|].
  cbn [List.filter]. destruct (p x); by constructor.
Qed.

Lemma StronglySorted_sublist {A} (R : A -> A -> Prop) (l1 l2 : list A) :
  l1 `sublist_of` l2 -> StronglySorted R l2 -> StronglySorted R l1.
Proof.
  induction 1 as [|x l1 l2 Hsub IH|x l1 l2 Hsub IH]; intros Hs; [done| |].
  - apply StronglySorted_inv in Hs as [Hs Hx]. constructor; [by apply IH|].
    rewrite Forall_forall in Hx |- *. intros y Hy. apply Hx.
    by apply (elem_of_sublist l1).
  - apply StronglySorted_inv in Hs as [Hs _]. by apply IH.
Qed.

Lemma elem_of_filterAt_1 {A} (p : nat -> A -> bool) (k : nat) (l : list A) (x : A) :
  x ∈ filterAt p k l -> x ∈ l.
Proof.
  intros (i & Hi & _)%elem_of_filterAt. by apply list_elem_of_lookup_2 in Hi.
Qed.

Lemma lookup_ensure_eq {A} (k : string) (v : A) (o : gmap string A) :
  ensure k v o !! k = Some (default v (o !! k)).
Proof.
  unfold ensure. destruct (o !! k) as [a|] eqn:Hk; [done|].
  by rewrite lookup_insert_eq.
Qed.

Lemma lookup_ensure_ne {A} (k : string) (v : A) (o : gmap string A) (k' : string) :
  k <> k' -> ensure k v o !! k' = o !! k'.
Proof.
  intros Hne. unfold ensure. destruct (o !! k) as [a|] eqn:Hk; [done|].
  by rewrite lookup_insert_ne.
Qed.

(** Pushing a note extends its own bucket and leaves the others. *)
Lemma bucket_pushNote acc y m day n y' m' day' :
  bucket (pushNote acc y m day n) y' m' day'
  = if decide ((y, m, day) = (y', m', day'))
    then bucket acc y m day ++ [n]
    else bucket acc y' m' day'.
Proof.
  unfold bucket, pushNote.
  destruct (decide (y = y')) as [<-|Hy].
  2:{ rewrite !lookup_alter_ne, lookup_ensure_ne by done.
      case_decide; [congruence|done]. }
  rewrite !lookup_alter_eq, lookup_ensure_eq. cbn [fmap option_fmap option_map].
  destruct (decide (m = m')) as [<-|Hm].
  2:{ rewrite !lookup_alter_ne, lookup_ensure_ne by done.
      case_decide; [congruence|]. by destruct (acc !! y). }
  rewrite !lookup_alter_eq, lookup_ensure_eq. cbn [fmap option_fmap option_map].
  destruct (decide (day = day')) as [<-|Hd].
  2:{ rewrite !lookup_alter_ne, lookup_ensure_ne by done.
      case_decide; [congruence|].
      destruct (acc !! y) as [ym|]; cbn; [|done].
      by destruct (ym !! m). }
  rewrite !lookup_alter_eq, lookup_ensure_eq. cbn [fmap option_fmap option_map].
  rewrite decide_True by done. cbn.
  destruct (acc !! y) as [ym|]; cbn; [|done].
  destruct (ym !! m) as [md|]; cbn; [|done].
  by destruct (md !! day).
Qed.

Lemma bucket_empty y m day : bucket ∅ y m day = [].
Proof. unfold bucket. by rewrite lookup_empty. Qed.

(** A bucket of the folded hierarchy holds, in order, the notes filed
    under its keys. *)
Lemma bucket_foldl h l acc y m day :
  bucket (foldl (place h) acc l) y m day
  = bucket acc y m day
    ++ List.filter (λ n, bool_decide (bucketKeyOf h n = Some (y, m, day))) l.
Proof.
  revert acc. induction l as [|n l IH]; intros acc; cbn [foldl List.filter].
  - by rewrite app_nil_r.
  - rewrite IH. unfold place.
    destruct (bucketKeyOf h n) as [[[y0 m0] d0]|] eqn:Hk.
    + rewrite bucket_pushNote. case_decide as Hd.
      * injection Hd as -> -> ->.
        rewrite bool_decide_true by done. by rewrite <- app_assoc.
      * rewrite bool_decide_false by congruence. done.
    + by rewrite bool_decide_false.
Qed.

Lemma bind_Normal {A B} (a : A) (f : A -> Completion B) :
  (Normal a ≫= f) = f a.
Proof. reflexivity. Qed.

Lemma App_reducer_place h acc n : App.reducer h acc n = Normal (place h acc n).
Proof.
  unfold App.reducer, place, bucketKeyOf, App.toDateOpt.
  by destruct (timestamp n).
Qed.

Lemma Earlier_reducer_place h acc n :
  Earlier.reducer h acc n = Normal (place h acc n).
Proof.
  unfold Earlier.reducer, place, bucketKeyOf.
  by destruct (timestamp n).
Qed.

Lemma reduceM_App_reducer h l acc :
  reduceM (App.reducer h) acc l = Normal (foldl (place h) acc l).
Proof.
  revert acc. induction l as [|n l IH]; intros acc; [done|].
  cbn [reduceM foldl]. rewrite App_reducer_place, bind_Normal. apply IH.
Qed.

Lemma reduceM_Earlier_reducer h l acc :
  reduceM (Earlier.reducer h) acc l = Normal (foldl (place h) acc l).
Proof.
  revert acc. induction l as [|n l IH]; intros acc; [done|].
  cbn [reduceM foldl]. rewrite Earlier_reducer_place, bind_Normal. apply IH.
Qed.

(** The guarded test of the earlier revision never throws: it is the
    test on the date string where there is a timestamp, and false where
    there is none. *)
Lemma guardedDateTest_Normal h test n :
  Earlier.guardedDateTest h test n
  = Normal (match App.dateStringOpt h n with
            | Some s => test s
            | None => false
            end).
Proof.
  unfold Earlier.guardedDateTest, App.dateStringOpt, App.toDateOpt.
  by destruct (timestamp n).
Qed.

Lemma filterM_ext {A} (f g : A -> Completion bool) (l : list A) :
  (forall x, f x = g x) -> filterM f l = filterM g l.
Proof.
  intros H. induction l as [|x l IH]; [done|].
  cbn [filterM]. by rewrite H, IH.
Qed.

Lemma filterM_guardedDateTest h test l :
  filterM (Earlier.guardedDateTest h test) l
  = Normal (List.filter
      (λ n, match App.dateStringOpt h n with
            | Some s => test s
            | None => false
            end) l).
Proof.
  rewrite <- filterM_Normal. apply filterM_ext, guardedDateTest_Normal.
Qed.

(** What the render of [src/App.jsx] computes, whatever the clock reads in
    the calls. *)
Lemma App_grouping_Normal h clock notes searchTerm :
  let f := List.filter (App.matchesSearch searchTerm) notes in
  let p := filterAt (λ i n, negb (App.isToday h (clock i) n)) (length f) f in
  App.grouping h clock notes searchTerm
  = Normal {| filtered := f;
              today := filterAt (λ i n, App.isToday h (clock i) n) 0 f;
              pastRaw := p;
              structured := foldl (place h) ∅ p |}.
Proof.
  unfold App.grouping, App.filteredNotes, App.todayNotes, App.pastNotesRaw,
    App.structuredPastNotes.
  by rewrite filterM_Normal, bind_Normal, !filterMi_Normal, !bind_Normal,
    reduceM_App_reducer.
Qed.

(** The test for today only looks at the local day of the reading. *)
Lemma isToday_same_day h now now' n :
  localDate h now = localDate h now' ->
  App.isToday h now n = App.isToday h now' n.
Proof.
  intros Hd. unfold App.isToday.
  by rewrite (proj2 (CalendarFacts.toDateString_same_day h now now') Hd).
Qed.

(** ... and when every reading falls on one day, the day of [now]. *)
Lemma App_grouping_SameDay h clock now notes searchTerm :
  SameDay h clock now ->
  let f := List.filter (App.matchesSearch searchTerm) notes in
  let p := List.filter (λ n, negb (App.isToday h now n)) f in
  App.grouping h clock notes searchTerm
  = Normal {| filtered := f;
              today := List.filter (App.isToday h now) f;
              pastRaw := p;
              structured := foldl (place h) ∅ p |}.
Proof.
  intros Hday f p. rewrite App_grouping_Normal. fold f.
  rewrite (filterAt_filter _ (App.isToday h now)),
    (filterAt_filter _ (λ n, negb (App.isToday h now n))); [done|..];
    intros i n; by rewrite (isToday_same_day h (clock i) now n (Hday i)).
Qed.

Lemma Earlier_grouping_Normal h now notes searchTerm :
  let f := List.filter (App.matchesSearch searchTerm) notes in
  let isToday := λ n, match App.dateStringOpt h n with
                      | Some s => bool_decide (s = toDateString h now)
                      | None => false
                      end in
  let isPast := λ n, match App.dateStringOpt h n with
                     | Some s => negb (bool_decide (s = toDateString h now))
                     | None => false
                     end in
  let p := List.filter isPast f in
  Earlier.grouping h now notes searchTerm
  = Normal {| filtered := f;
              today := List.filter isToday f;
              pastRaw := p;
              structured := foldl (place h) ∅ p |}.
Proof.
  unfold Earlier.grouping, Earlier.filteredNotes, Earlier.todayNotes,
    Earlier.pastNotesRaw, Earlier.structuredPastNotes.
  by rewrite filterM_Normal, bind_Normal, !filterM_guardedDateTest, !bind_Normal,
    reduceM_Earlier_reducer.
Qed.

Lemma elem_of_bucket_foldl h p n y m day :
  n ∈ bucket (foldl (place h) ∅ p) y m day
  <-> n ∈ p /\ bucketKeyOf h n = Some (y, m, day).
Proof.
  rewrite bucket_foldl, bucket_empty, app_nil_l, elem_of_filter.
  by rewrite bool_decide_eq_true.
Qed.

(** Any split of the filtered notes by "same date string as now", followed
    by the fold, is a partition of the dated notes. *)
Lemma partition_of_split h now f t p :
  (forall n, n ∈ t <-> n ∈ f /\ App.dateStringOpt h n = Some (toDateString h now)) ->
  (forall n, is_Some (timestamp n) ->
     (n ∈ p <-> n ∈ f /\ App.dateStringOpt h n <> Some (toDateString h now))) ->
  Partition h now {| filtered := f; today := t; pastRaw := p;
                     structured := foldl (place h) ∅ p |}.
Proof.
  intros Ht Hp n ts Hin Hts. cbn [filtered today structured] in *.
  assert (Hds : App.dateStringOpt h n = Some (toDateString h (toDate ts))).
  { unfold App.dateStringOpt, App.toDateOpt. by rewrite Hts. }
  assert (Hk : bucketKeyOf h n = Some (bucketKey h (toDate ts))).
  { unfold bucketKeyOf. by rewrite Hts. }
  specialize (Hp n ltac:(by rewrite Hts)). specialize (Ht n).
  rewrite Hds in Ht, Hp. split; intros Hday.
  - apply CalendarFacts.toDateString_same_day in Hday.
    split; [apply Ht; by rewrite Hday|].
    intros y m day [Hn _]%elem_of_bucket_foldl.
    apply Hp in Hn as [_ Hn]. by rewrite Hday in Hn.
  - assert (Hne : toDateString h (toDate ts) <> toDateString h now).
    { by rewrite CalendarFacts.toDateString_same_day. }
    split.
    + intros [_ Hn]%Ht. congruence.
    + intros y m day. rewrite elem_of_bucket_foldl, Hk. split.
      * intros [_ Hn]. congruence.
      * intros ->. split; [|done]. apply Hp. split; [done|congruence].
Qed.

Lemma dropped_of_split h (f t p : list Note) n :
  timestamp n = None ->
  (forall n, n ∈ t -> is_Some (App.dateStringOpt h n)) ->
  Dropped n {| filtered := f; today := t; pastRaw := p;
               structured := foldl (place h) ∅ p |}.
Proof.
  intros Hts Ht. split; cbn [today structured].
  - intros [d Hn]%Ht. unfold App.dateStringOpt, App.toDateOpt in Hn.
    by rewrite Hts in Hn.
  - intros y m day [_ Hn]%elem_of_bucket_foldl.
    unfold bucketKeyOf in Hn. by rewrite Hts in Hn.
Qed.

(** Buckets are in one-to-one correspondence with (year, month name, day):
    the property names determine the numbers. *)
Lemma bucketKey_inj h d d' :
  bucketKey h d = bucketKey h d' ->
  getFullYear h d = getFullYear h d'
  /\ toLocaleMonthLong h d = toLocaleMonthLong h d'
  /\ getDate h d = getDate h d'.
Proof.
  unfold bucketKey. intros [= Hy Hm Hd].
  by apply CalendarFacts.numberToString_inj in Hy, Hd.
Qed.

Lemma isToday_true h now n :
  App.isToday h now n = true
  <-> App.dateStringOpt h n = Some (toDateString h now).
Proof. unfold App.isToday. apply bool_decide_eq_true. Qed.

Lemma earlier_today_test (ds : option string) (t : string) :
  match ds with Some s => bool_decide (s = t) | None => false end = true
  <-> ds = Some t.
Proof.
  destruct ds as [s|]; [|done].
  rewrite bool_decide_eq_true. split; congruence.
Qed.

Lemma earlier_past_test (ds : option string) (t : string) :
  is_Some ds ->
  (match ds with Some s => negb (bool_decide (s = t)) | None => false end = true
   <-> ds <> Some t).
Proof.
  intros [s ->]. rewrite negb_true_iff, bool_decide_eq_false.
  split; congruence.
Qed.

Lemma dateStringOpt_is_Some h n :
  is_Some (timestamp n) -> is_Some (App.dateStringOpt h n).
Proof.
  intros [ts Hts]. unfold App.dateStringOpt, App.toDateOpt. rewrite Hts. by eexists.
Qed.

(** When every reading of the clock during the render falls on one local
    day, what the render of [src/App.jsx] computes is a partition of the
    filtered notes that have a timestamp. *)
Lemma grouping_partition_on_one_day (h : Host) (clock : Readings) (now : Date)
    (notes : list Note) (searchTerm : string) :
  SameDay h clock now ->
  exists g, App.grouping h clock notes searchTerm = Normal g
    /\ filtered g = List.filter (App.matchesSearch searchTerm) notes
    /\ Partition h now g.
Proof.
  intros Hday. eexists. split; [by apply App_grouping_SameDay|]. split; [done|].
  apply partition_of_split.
  - intros n. by rewrite elem_of_filter, isToday_true.
  - intros n _. rewrite elem_of_filter, negb_true_iff.
    by rewrite <- not_true_iff_false, isToday_true.
Qed.

(** The earlier revision reads the clock once in a render, and what it
    computes is a partition whenever that is. *)
Lemma Earlier_grouping_partition (h : Host) (now : Date) (notes : list Note)
    (searchTerm : string) :
  exists g, Earlier.grouping h now notes searchTerm = Normal g
    /\ filtered g = List.filter (App.matchesSearch searchTerm) notes
    /\ Partition h now g.
Proof.
  eexists. split; [apply Earlier_grouping_Normal|]. split; [done|].
  apply partition_of_split.
  - intros n. by rewrite elem_of_filter, earlier_today_test.
  - intros n Hn. rewrite elem_of_filter.
    by rewrite earlier_past_test by by apply dateStringOpt_is_Some.
Qed.

(** C1 fails in [src/App.jsx] on a render that runs across local midnight.
    The callbacks of the two filters each read the clock: the note written
    in the last second of the day is of today for the first filter, which
    reads the clock before midnight, and past for the second, which reads it
    after, so it is listed under "Today" and under its day of the hierarchy
    at once, and what is computed is a partition for no choice of today.
    The earlier revision, which reads the clock once, files the same note
    once, under "Today" before midnight and under its day after. *)
Theorem grouping_across_midnight_files_note_twice :
  exists g,
    App.grouping utcEnglish Samples.acrossMidnight [Samples.lateNote] ""
    = Normal g
    /\ filtered g = [Samples.lateNote]
    /\ Samples.lateNote ∈ today g
    /\ Samples.lateNote ∈ bucket (structured g) "2026" "September" "21"
    /\ (forall now, ~ Partition utcEnglish now g)
    /\ (exists g1,
          Earlier.grouping utcEnglish (Samples.acrossMidnight 0%nat)
            [Samples.lateNote] "" = Normal g1
          /\ today g1 = [Samples.lateNote] /\ structured g1 = ∅)
    /\ (exists g2,
          Earlier.grouping utcEnglish (Samples.acrossMidnight 1%nat)
            [Samples.lateNote] "" = Normal g2
          /\ today g2 = []
          /\ bucket (structured g2) "2026" "September" "21" = [Samples.lateNote]).
Proof.
  eexists. split; [apply App_grouping_Normal|].
  assert (Ht : Samples.lateNote
               ∈ filterAt (λ i n, App.isToday utcEnglish (Samples.acrossMidnight i) n)
                   0 (List.filter (App.matchesSearch "") [Samples.lateNote])).
  { vm_compute. left. }
  assert (Hb : Samples.lateNote
               ∈ bucket
                   (foldl (place utcEnglish) ∅
                      (filterAt
                         (λ i n, negb (App.isToday utcEnglish
                                         (Samples.acrossMidnight i) n))
                         (length (List.filter (App.matchesSearch "")
                                    [Samples.lateNote]))
                         (List.filter (App.matchesSearch "") [Samples.lateNote])))
                   "2026" "September" "21").
  { vm_compute. left. }
  split; [by vm_compute|]. split; [exact Ht|]. split; [exact Hb|]. split.
  - intros now Hp.
    destruct (Hp Samples.lateNote (fromMillis 1790035199000)) as [Hsame Hother].
    { vm_compute. left. }
    { reflexivity. }
    cbn [today structured] in Hsame, Hother.
    destruct (decide (localDate utcEnglish (toDate (fromMillis 1790035199000))
                      = localDate utcEnglish now)) as [Hd|Hd].
    + destruct (Hsame Hd) as [_ Hnot]. exact (Hnot _ _ _ Hb).
    + destruct (Hother Hd) as [Hnot _]. exact (Hnot Ht).
  - split; eexists; (split; [apply Earlier_grouping_Normal|]); by vm_compute.
Qed.

(** C3: in both revisions the grouping returns on any collection, and a
    note without a timestamp is in neither the today bucket nor any bucket
    of the hierarchy; in [src/App.jsx] whatever the clock reads in the
    calls of the callbacks. *)
Theorem undated_note_is_dropped (h : Host) (clock : Readings) (now : Date)
    (notes : list Note) (searchTerm : string) (n : Note) :
  timestamp n = None ->
  (exists g, App.grouping h clock notes searchTerm = Normal g /\ Dropped n g)
  /\ (exists g, Earlier.grouping h now notes searchTerm = Normal g /\ Dropped n g).
Proof.
  intros Hts. split.
  - eexists. split; [apply App_grouping_Normal|].
    apply (dropped_of_split h); [done|].
    intros n' (i & _ & Hi)%elem_of_filterAt. apply isToday_true in Hi.
    rewrite Hi. by eexists.
  - eexists. split; [apply Earlier_grouping_Normal|].
    apply (dropped_of_split h); [done|].
    intros n' [_ Hn']%elem_of_filter. apply earlier_today_test in Hn'.
    rewrite Hn'. by eexists.
Qed.

Lemma undated_note_is_dropped_witness :
  exists g,
    App.grouping utcEnglish (Samples.steady Samples.now)
      [Samples.fromToday; Samples.jan2024; Samples.nov2023; Samples.pending] ""
    = Normal g
    /\ Dropped Samples.pending g.
Proof.
  apply (undated_note_is_dropped utcEnglish (Samples.steady Samples.now)
           Samples.now
           [Samples.fromToday; Samples.jan2024; Samples.nov2023; Samples.pending]
           "" Samples.pending).
  reflexivity.
Defined.

(** The scenario of the specification: notes of 20 January 2024, of
    5 November 2023 and of now, with an empty search. *)
Example grouping_scenario :
  exists g,
    App.grouping utcEnglish (Samples.steady Samples.now)
      [Samples.fromToday; Samples.jan2024; Samples.nov2023] "" = Normal g
    /\ today g = [Samples.fromToday]
    /\ bucket (structured g) "2024" "January" "20" = [Samples.jan2024]
    /\ bucket (structured g) "2023" "November" "5" = [Samples.nov2023]
    /\ dom (structured g) = {["2024"; "2023"]}.
Proof.
  eexists. split; [apply App_grouping_Normal|].
  repeat split; by vm_compute.
Qed.

End GroupingFacts.

(** ** The search expansion *)

Module ExpansionFacts.
Import Calendar Notes JS GroupingSpec ExpansionSpec GroupingFacts.

Lemma expandFor_Some h acc n ts :
  timestamp n = Some ts ->
  App.expandFor h acc n
  = Normal (<[yearMonthKey h (toDate ts) := true]>
              (<[yearKey h (toDate ts) := true]> acc)).
Proof. intros Hts. unfold App.expandFor. by rewrite Hts. Qed.

Lemma expandFor_None h acc n :
  timestamp n = None -> exists e, App.expandFor h acc n = Throw e.
Proof. intros Hts. unfold App.expandFor. rewrite Hts. by eexists. Qed.

(** What [forEach] leaves in [newExpanded] when it does not throw: the
    entries it started with, and [true] at keys of the notes it visited. *)
Lemma reduceM_expandFor h l acc r k v :
  reduceM (App.expandFor h) acc l = Normal r ->
  r !! k = Some v ->
  acc !! k = Some v
  \/ (v = true
      /\ exists n ts, n ∈ l /\ timestamp n = Some ts
           /\ (k = yearKey h (toDate ts) \/ k = yearMonthKey h (toDate ts))).
Proof.
  revert acc. induction l as [|n l IH]; intros acc Hr Hk; cbn [reduceM] in Hr.
  - injection Hr as <-. by left.
  - destruct (timestamp n) as [ts|] eqn:Hts.
    2:{ destruct (expandFor_None h acc n Hts) as [e He]. by rewrite He in Hr. }
    rewrite (expandFor_Some h acc n ts Hts), bind_Normal in Hr.
    destruct (IH _ Hr Hk) as [Hacc|(-> & n' & ts' & Hin & Hts' & Hkeys)].
    + destruct (decide (k = yearMonthKey h (toDate ts))) as [->|Hne1].
      { rewrite lookup_insert_eq in Hacc. injection Hacc as <-.
        right. split; [done|]. exists n, ts. split; [left|]; eauto. }
      rewrite lookup_insert_ne in Hacc by done.
      destruct (decide (k = yearKey h (toDate ts))) as [->|Hne2].
      { rewrite lookup_insert_eq in Hacc. injection Hacc as <-.
        right. split; [done|]. exists n, ts. split; [left|]; eauto. }
      rewrite lookup_insert_ne in Hacc by done. by left.
    + right. split; [done|]. exists n', ts'. split; [by right|done].
Qed.

Lemma expandedItems_setShowPastNotes v s :
  expandedItems (setShowPastNotes v s) = expandedItems s.
Proof. reflexivity. Qed.

Lemma completes_Normal {A} (c : Completion A) :
  completes c = true -> exists a, c = Normal a.
Proof. destruct c; [by eexists|done]. Qed.

Lemma filterMi_ext {A} (f g : nat -> A -> Completion bool) (k : nat)
    (l : list A) :
  (forall i x, f i x = g i x) -> filterMi f k l = filterMi g k l.
Proof.
  intros H. revert k. induction l as [|x l IH]; intros k; [done|].
  cbn [filterMi]. by rewrite H, IH.
Qed.

(** The state the effect of [App.jsx] leaves when it runs to completion:
    either the mapping is untouched, or it is the union of the new entries
    over the old ones. *)
Lemma App_effect_cases h clock s s' :
  App.searchExpansionEffect h clock s = Normal s' ->
  expandedItems s' = expandedItems s
  \/ exists r,
       reduceM (App.expandFor h) ∅ (filterAt (λ i n, App.matchesSearch (searchTerm s) n
                           && negb (App.isToday h (clock i) n)) 0 (notes s)) = Normal r
       /\ expandedItems s' = r ∪ expandedItems s.
Proof.
  unfold App.searchExpansionEffect.
  destruct (String.eqb _ _); [intros [= <-]; by left|].
  rewrite filterMi_Normal, bind_Normal.
  destruct (reduceM _ _ _) as [r|e] eqn:Hr; [|done].
  rewrite bind_Normal. intros [= <-].
  right. exists r. split; [done|]. by destruct (_ <? _)%nat.
Qed.

Lemma App_effect_keeps_true h clock s s' k :
  App.searchExpansionEffect h clock s = Normal s' ->
  expandedItems s !! k = Some true ->
  expandedItems s' !! k = Some true.
Proof.
  intros Hs Hk.
  destruct (App_effect_cases h clock s s' Hs) as [->|(r & Hr & ->)]; [done|].
  destruct (r !! k) as [v|] eqn:Hrk.
  - destruct (reduceM_expandFor _ _ _ _ _ _ Hr Hrk) as [Hempty|[-> _]].
    + by rewrite lookup_empty in Hempty.
    + by apply lookup_union_Some_l.
  - by rewrite lookup_union_r.
Qed.

Lemma App_effect_adds_matched h clock s s' k :
  App.searchExpansionEffect h clock s = Normal s' ->
  expandedItems s' !! k <> expandedItems s !! k ->
  expandedItems s' !! k = Some true /\ MatchedKey h clock s k.
Proof.
  intros Hs.
  destruct (App_effect_cases h clock s s' Hs) as [->|(r & Hr & ->)]; [done|].
  intros Hne.
  destruct (r !! k) as [v|] eqn:Hrk.
  2:{ by rewrite lookup_union_r in Hne. }
  destruct (reduceM_expandFor _ _ _ _ _ _ Hr Hrk)
    as [Hempty|(-> & n & ts & Hin & Hts & Hkeys)].
  { by rewrite lookup_empty in Hempty. }
  split; [by apply lookup_union_Some_l|].
  apply elem_of_filterAt in Hin as (i & Hin & Htest). cbn beta in Htest.
  apply andb_prop in Htest as [Hmatch Hpast].
  exists i, n, ts. repeat split; try done.
  apply negb_true_iff in Hpast.
  rewrite <- not_true_iff_false, isToday_true in Hpast.
  unfold App.dateStringOpt, App.toDateOpt in Hpast. rewrite Hts in Hpast.
  change (Some (toDateString h (toDate ts)) <> Some (toDateString h (clock i)))
    in Hpast.
  rewrite <- CalendarFacts.toDateString_same_day. congruence.
Qed.

Lemma reduceM_expandFor_total h l acc :
  (forall n, n ∈ l -> is_Some (timestamp n)) ->
  exists r, reduceM (App.expandFor h) acc l = Normal r.
Proof.
  revert acc. induction l as [|n l IH]; intros acc Hl; [by eexists|].
  destruct (Hl n ltac:(left)) as [ts Hts].
  cbn [reduceM]. rewrite (expandFor_Some h acc n ts Hts), bind_Normal.
  apply IH. intros n' Hn'. apply Hl. by right.
Qed.

(** The effect of [App.jsx] runs to completion when every note that
    matches the term has a timestamp. *)
Lemma App_effect_total h clock s :
  (forall n, n ∈ notes s -> App.matchesSearch (searchTerm s) n = true ->
             is_Some (timestamp n)) ->
  exists s', App.searchExpansionEffect h clock s = Normal s'.
Proof.
  intros Hdated. unfold App.searchExpansionEffect.
  destruct (String.eqb _ _); [by eexists|].
  rewrite filterMi_Normal, bind_Normal.
  destruct (reduceM_expandFor_total h (filterAt (λ i n, App.matchesSearch (searchTerm s) n
                           && negb (App.isToday h (clock i) n)) 0 (notes s)) ∅) as [r Hr].
  { intros n (i & Hin & Htest)%elem_of_filterAt. cbn beta in Htest.
    apply andb_prop in Htest as [Hm _].
    apply Hdated; [|done]. by apply list_elem_of_lookup_2 in Hin. }
  rewrite Hr, bind_Normal. by eexists.
Qed.

(** The filter of the earlier revision never throws and keeps the dated
    past notes that match. *)
Lemma Earlier_matches h clock term k l :
  filterMi (λ i n,
     if App.matchesSearch term n
     then Earlier.guardedDateTest h
            (λ d, negb (bool_decide (d = toDateString h (clock i)))) n
     else Normal false) k l
  = Normal (filterAt (λ i n,
      App.matchesSearch term n
      && match App.dateStringOpt h n with
         | Some d => negb (bool_decide (d = toDateString h (clock i)))
         | None => false
         end) k l).
Proof.
  rewrite <- filterMi_Normal. apply filterMi_ext. intros i n.
  rewrite guardedDateTest_Normal. by destruct (App.matchesSearch term n).
Qed.

(** In the earlier revision the effect always runs to completion, and the
    mapping it leaves holds only [true] entries, at keys of past notes
    matching the term. *)
Lemma Earlier_effect_replaces h clock s :
  exists s', Earlier.searchExpansionEffect h clock s = Normal s'
    /\ forall k v, expandedItems s' !! k = Some v ->
                   v = true /\ MatchedKey h clock s k.
Proof.
  unfold Earlier.searchExpansionEffect.
  destruct (String.eqb _ _).
  { eexists. split; [done|]. intros k v.
    change (expandedItems (setExpandedItems (λ _, ∅) s)) with
      (∅ : gmap string bool). by rewrite lookup_empty. }
  rewrite Earlier_matches, bind_Normal.
  set (l := filterAt _ 0 (notes s)).
  assert (Hl : forall n, n ∈ l ->
    App.matchesSearch (searchTerm s) n = true
    /\ exists i ts, notes s !! i = Some n /\ timestamp n = Some ts
                  /\ localDate h (toDate ts) <> localDate h (clock i)).
  { intros n (i & Hin & Htest)%elem_of_filterAt. cbn beta in Htest.
    apply andb_prop in Htest as [Hm Hp].
    split; [done|]. exists i.
    unfold App.dateStringOpt, App.toDateOpt in Hp.
    destruct (timestamp n) as [ts|]; [|done]. exists ts.
    split; [done|]. split; [done|].
    change (negb (bool_decide (toDateString h (toDate ts)
                               = toDateString h (clock i))) = true) in Hp.
    apply negb_true_iff, bool_decide_eq_false in Hp.
    by rewrite <- CalendarFacts.toDateString_same_day. }
  destruct (reduceM_expandFor_total h l ∅) as [r Hr].
  { intros n Hn. destruct (Hl n Hn) as (_ & _ & ts & _ & -> & _). by eexists. }
  rewrite Hr, bind_Normal. eexists. split; [done|]. intros k v.
  assert (He : forall s0, expandedItems (setExpandedItems (λ _, r) s0) = r) by done.
  rewrite He. intros Hk.
  destruct (reduceM_expandFor _ _ _ _ _ _ Hr Hk)
    as [Hempty|(-> & n & ts & Hin & Hts & Hkeys)];
    [by rewrite lookup_empty in Hempty|].
  split; [done|].
  destruct (Hl n Hin) as (Hm & i & ts' & Hi & Hts' & Hday).
  exists i, n, ts. repeat split; try done. congruence.
Qed.

(** C2, as amended: in [src/App.jsx], whatever the search term and the
    expansion state before, a search-expansion effect that runs to
    completion keeps every key that was true, and any entry it changes or
    adds is [true] at the year key or the year-month key of a past note
    matching the term; it runs to completion when every note matching the
    term has a timestamp; so along any sequence of search terms whose
    effects all run to completion a key that is true stays true.  In the
    earlier revision the effect always runs to completion and replaces the
    mapping: what it leaves holds only [true] entries at such keys,
    whatever was there before. *)
Theorem searchExpansion_is_monotone (h : Host) :
  (forall clock s s',
     App.searchExpansionEffect h clock s = Normal s' ->
     (forall k, expandedItems s !! k = Some true ->
                expandedItems s' !! k = Some true)
     /\ (forall k, expandedItems s' !! k <> expandedItems s !! k ->
                   expandedItems s' !! k = Some true /\ MatchedKey h clock s k))
  /\ (forall clock s,
        (forall n, n ∈ notes s -> App.matchesSearch (searchTerm s) n = true ->
                   is_Some (timestamp n)) ->
        exists s', App.searchExpansionEffect h clock s = Normal s')
  /\ (forall evs s s' k,
        searchSession h s evs = Normal s' ->
        expandedItems s !! k = Some true ->
        expandedItems s' !! k = Some true)
  /\ (forall clock s,
        exists s', Earlier.searchExpansionEffect h clock s = Normal s'
          /\ forall k v, expandedItems s' !! k = Some v ->
                         v = true /\ MatchedKey h clock s k).
Proof.
  split; [|split; [|split]].
  - intros clock s s' Hs. split; intros k.
    + by apply (App_effect_keeps_true h clock).
    + by apply App_effect_adds_matched.
  - apply App_effect_total.
  - intros evs. unfold searchSession.
    induction evs as [|[[clock term] newNotes] evs IH]; intros s s' k Hs Hk.
    { by injection Hs as <-. }
    cbn [reduceM] in Hs.
    destruct (searchStep h s (clock, term, newNotes)) as [s1|e] eqn:Hstep;
      [|done].
    rewrite bind_Normal in Hs. apply (IH s1 s' k Hs).
    unfold searchStep in Hstep.
    by apply (App_effect_keeps_true _ _ _ _ _ Hstep).
  - apply Earlier_effect_replaces.
Qed.

Lemma searchExpansion_is_monotone_witness :
  expandedItems Samples.searching !! "2023" = Some true
  /\ (exists s',
        App.searchExpansionEffect utcEnglish (Samples.steady Samples.now)
          Samples.searching = Normal s'
        /\ expandedItems s' !! "2023" = Some true)
  /\ (exists s',
        searchSession utcEnglish Samples.searching
          [(Samples.steady Samples.now, "jan", notes Samples.synced);
           (Samples.steady Samples.now, "janu", notes Samples.synced);
           (Samples.steady Samples.now, "jazz", notes Samples.synced)]
        = Normal s'
        /\ expandedItems s' !! "2023" = Some true).
Proof.
  destruct (searchExpansion_is_monotone utcEnglish) as (Hstep & _ & Hsession & _).
  split; [reflexivity|]. split.
  - destruct (completes_Normal
                (App.searchExpansionEffect utcEnglish (Samples.steady Samples.now)
                   Samples.searching)) as [s' Hs']; [by vm_compute|].
    exists s'. split; [done|]. by apply (proj1 (Hstep _ _ _ Hs')).
  - destruct (completes_Normal
                (searchSession utcEnglish Samples.searching
                   [(Samples.steady Samples.now, "jan", notes Samples.synced);
                    (Samples.steady Samples.now, "janu", notes Samples.synced);
                    (Samples.steady Samples.now, "jazz", notes Samples.synced)]))
      as [s' Hs']; [by vm_compute|].
    exists s'. split; [done|]. by apply (Hsession _ _ _ _ Hs').
Defined.

(** C2, as stated, fails in the earlier revision, which replaces the
    mapping: with "2023" expanded and a term that matches nothing, the
    effect runs to completion and the key is gone after it. *)
Lemma earlier_searchExpansion_drops_key :
  let s := setExpandedItems (λ _, {["2023" := true]})
             (setSearchTerm "zebra" Samples.signedIn) in
  JS.trim (searchTerm s) <> ""
  /\ expandedItems s !! "2023" = Some true
  /\ exists s',
       Earlier.searchExpansionEffect utcEnglish (Samples.steady Samples.now) s
       = Normal s'
       /\ expandedItems s' !! "2023" = None.
Proof.
  split; [by vm_compute|]. split; [by vm_compute|].
  set (s := setExpandedItems (λ _, {["2023" := true]})
              (setSearchTerm "zebra" Samples.signedIn)).
  destruct (completes_Normal
              (Earlier.searchExpansionEffect utcEnglish
                 (Samples.steady Samples.now) s)) as [s' Hs']; [by vm_compute|].
  exists s'. split; [done|].
  assert (H : (s1 ← Earlier.searchExpansionEffect utcEnglish
                      (Samples.steady Samples.now) s;
               Normal (expandedItems s1 !! "2023")) = Normal None)
    by (by vm_compute).
  rewrite Hs' in H. by injection H.
Qed.

End ExpansionFacts.

(** ** The document store *)

Module StoreFacts.
Import Calendar Notes JS Store HandlersSpec GroupingFacts.

Lemma insertNewestFirst_perm n l : insertNewestFirst n l ≡ₚ n :: l.
Proof.
  induction l as [|m l IH]; [done|].
  cbn [insertNewestFirst]. destruct (_ <=? _); [done|].
  rewrite IH. apply Permutation_swap.
Qed.

Lemma sortNewestFirst_perm l : sortNewestFirst l ≡ₚ l.
Proof.
  induction l as [|n l IH]; [done|].
  unfold sortNewestFirst in *. cbn [foldr].
  by rewrite insertNewestFirst_perm, IH.
Qed.

(** The snapshot holds exactly the documents of the collection. *)
Lemma elem_of_snapshotNotes (c : gmap string NoteDoc) (n : Note) :
  n ∈ snapshotNotes c <-> c !! id n = Some (docOf n).
Proof.
  unfold snapshotNotes. rewrite sortNewestFirst_perm, list_elem_of_fmap. split.
  - intros ([k d] & -> & Hkd). apply elem_of_map_to_list in Hkd.
    cbn. rewrite Hkd. by destruct d.
  - intros Hn. exists (id n, docOf n). split; [by destruct n|].
    by apply elem_of_map_to_list.
Qed.

Lemma lookupDoc_deleteAt db ref path docId :
  lookupDoc (deleteAt db ref) path docId
  = if decide (ref = (path, docId)) then None else lookupDoc db path docId.
Proof.
  unfold lookupDoc, collectionOf, deleteAt. destruct ref as [p i]. cbn [fst snd].
  destruct (decide (p = path)) as [->|Hp].
  - rewrite lookup_alter_eq.
    destruct (db !! path) as [c|]; cbn.
    + destruct (decide (i = docId)) as [->|Hi].
      * by rewrite decide_True, lookup_delete_eq.
      * rewrite decide_False by congruence. by rewrite lookup_delete_ne.
    + rewrite lookup_empty. by case_decide.
  - rewrite lookup_alter_ne by done. rewrite decide_False by congruence. done.
Qed.

Lemma lookupDoc_batch db refs path docId :
  lookupDoc (foldl deleteAt db refs) path docId
  = if decide ((path, docId) ∈ refs) then None else lookupDoc db path docId.
Proof.
  revert db. induction refs as [|ref refs IH]; intros db; cbn [foldl].
  - rewrite decide_False; [done|]. by intros ?%not_elem_of_nil.
  - rewrite IH, lookupDoc_deleteAt.
    destruct (decide ((path, docId) ∈ refs)) as [Hin|Hin].
    + rewrite decide_True; [done|]. by right.
    + destruct (decide (ref = (path, docId))) as [->|Hne].
      * rewrite decide_True; [done|]. by left.
      * rewrite decide_False; [done|].
        intros [?|?]%elem_of_cons; congruence.
Qed.

Lemma lookupDoc_update db path docId t path' docId' :
  lookupDoc (apply db (UpdateDoc path docId t)) path' docId'
  = if decide ((path, docId) = (path', docId'))
    then withText t <$> lookupDoc db path docId
    else lookupDoc db path' docId'.
Proof.
  unfold lookupDoc, collectionOf. cbn [apply].
  destruct (decide (path = path')) as [<-|Hp].
  - rewrite lookup_alter_eq. destruct (db !! path) as [c|]; cbn.
    + destruct (decide (docId = docId')) as [<-|Hi].
      * by rewrite decide_True, lookup_alter_eq.
      * rewrite decide_False by congruence. by rewrite lookup_alter_ne.
    + rewrite !lookup_empty. by case_decide.
  - rewrite lookup_alter_ne by done. rewrite decide_False by congruence. done.
Qed.

(** Adding a document puts it under an id that was free and touches
    nothing else. *)
Lemma collectionOf_add db path data :
  let c := collectionOf db path in
  c !! autoId c = None
  /\ collectionOf (apply db (AddDoc path data)) path = <[autoId c := data]> c
  /\ (forall path', path <> path' ->
        collectionOf (apply db (AddDoc path data)) path' = collectionOf db path').
Proof.
  intros c. split; [apply fresh_string_fresh|]. split.
  - unfold collectionOf at 1. cbn [apply]. by rewrite lookup_insert_eq.
  - intros path' Hne. unfold collectionOf. cbn [apply].
    by rewrite lookup_insert_ne.
Qed.

End StoreFacts.

(** ** The handlers *)

Module HandlersFacts.
Import Calendar Notes JS Store HandlersSpec GroupingFacts StoreFacts.

Lemma toMillis_fromMillis ms : toMillis (fromMillis ms) = ms.
Proof.
  unfold toMillis, fromMillis. cbn [seconds nanoseconds].
  replace (ms / 1000 * 1000000000 + (ms - ms / 1000 * 1000) * 1000000)
    with (ms * 1000000) by lia.
  by apply Z.quot_mul.
Qed.

Lemma truthy_trim_false text : truthy (trim text) = false <-> trim text = "".
Proof. by destruct (trim text). Qed.

(** C4, as amended: the timestamp written with a new note is
    [Timestamp.now()], the reading of the client clock at the call (to the
    millisecond); the clock of the store plays no part. *)
Theorem addNote_stamps_client_clock (clk : Clocks) (s : AppState)
    (text : string) (u : User) :
  user s = Some u ->
  trim text <> "" ->
  exists ts,
    App.addNote clk s text
      = [AddDoc (notesPath u) {| docText := trim text; docTimestamp := Some ts |}]
    /\ Earlier.addNote clk s text = App.addNote clk s text
    /\ getTime (toDate ts) = clientNow clk
    /\ (forall server',
          App.addNote {| clientNow := clientNow clk; serverNow := server' |} s text
          = App.addNote clk s text).
Proof.
  intros Hu Ht. exists (Timestamp_now clk).
  assert (Htr : truthy (trim text) = true).
  { destruct (truthy (trim text)) eqn:E; [done|]. by apply truthy_trim_false in E. }
  unfold App.addNote, Earlier.addNote. rewrite Hu, Htr. cbn [negb].
  repeat split.
  unfold Timestamp_now, toDate. cbn [getTime]. apply toMillis_fromMillis.
Qed.

Lemma addNote_stamps_client_clock_witness :
  exists ts,
    App.addNote Samples.clocks Samples.signedIn " hello "
      = [AddDoc "users/alice/notes" {| docText := "hello"; docTimestamp := Some ts |}]
    /\ getTime (toDate ts) = 1790000040000.
Proof.
  destruct (addNote_stamps_client_clock Samples.clocks Samples.signedIn " hello "
              Samples.alice eq_refl) as (ts & H1 & _ & H2 & _).
  - vm_compute. discriminate.
  - exists ts. split; [exact H1 | exact H2].
Defined.

(** C4, as stated, fails: the stored timestamp is the client clock's
    reading, not the store's, and follows the client clock when only that
    one changes. *)
Lemma addNote_timestamp_not_server_side :
  App.addNote Samples.clocks Samples.signedIn "hello"
    = [AddDoc "users/alice/notes"
         {| docText := "hello";
            docTimestamp := Some {| seconds := 1790000040; nanoseconds := 0 |} |}]
  /\ serverNow Samples.clocks = 1790000047500
  /\ fromMillis (serverNow Samples.clocks)
     = {| seconds := 1790000047; nanoseconds := 500000000 |}
  /\ App.addNote {| clientNow := 0; serverNow := serverNow Samples.clocks |}
                 Samples.signedIn "hello"
    = [AddDoc "users/alice/notes"
         {| docText := "hello";
            docTimestamp := Some {| seconds := 0; nanoseconds := 0 |} |}].
Proof. by vm_compute. Qed.

(** C6: with no user, or a text that trims to nothing, [addNote] makes no
    call at all, so the store is as it was and no alert is raised; with a
    user and a text with a non-empty trim it makes one call, which adds
    one document, under an id not in use, holding the trimmed text and a
    timestamp. *)
Theorem addNote_adds_one_or_nothing (clk : Clocks) (s : AppState) (text : string) :
  (user s = None \/ trim text = "" ->
     App.addNote clk s text = []
     /\ Earlier.addNote clk s text = []
     /\ forall db, run db (App.addNote clk s text) = db)
  /\ (forall u, user s = Some u -> trim text <> "" ->
        let data := {| docText := trim text;
                       docTimestamp := Some (Timestamp_now clk) |} in
        App.addNote clk s text = [AddDoc (notesPath u) data]
        /\ Earlier.addNote clk s text = [AddDoc (notesPath u) data]
        /\ forall db,
             let c := collectionOf db (notesPath u) in
             let c' := collectionOf (run db (App.addNote clk s text)) (notesPath u) in
             exists newId,
               c !! newId = None
               /\ c' = <[newId := data]> c
               /\ size c' = S (size c)).
Proof.
  split.
  - intros Hno.
    assert (H : App.addNote clk s text = [] /\ Earlier.addNote clk s text = []).
    { unfold App.addNote, Earlier.addNote. destruct (user s) as [u|]; [|done].
      destruct Hno as [?|Ht]; [done|]. by rewrite Ht. }
    destruct H as [H1 H2]. by rewrite H1, H2.
  - intros u Hu Ht data.
    assert (Htr : truthy (trim text) = true).
    { destruct (truthy (trim text)) eqn:E; [done|]. by apply truthy_trim_false in E. }
    assert (H : App.addNote clk s text = [AddDoc (notesPath u) data]).
    { unfold App.addNote. by rewrite Hu, Htr. }
    split; [exact H|]. split.
    { unfold Earlier.addNote. by rewrite Hu, Htr. }
    intros db c c'. subst c'. rewrite H. cbn [run foldl].
    destruct (collectionOf_add db (notesPath u) data) as (Hfresh & Hc' & _).
    exists (autoId c). split; [done|]. split; [done|].
    rewrite Hc'. by apply map_size_insert_None.
Qed.

Lemma addNote_adds_one_or_nothing_witness :
  App.addNote Samples.clocks Samples.signedIn "   " = []
  /\ App.addNote Samples.clocks Samples.signedIn " hello "
     = [AddDoc "users/alice/notes"
          {| docText := "hello";
             docTimestamp := Some (Timestamp_now Samples.clocks) |}].
Proof.
  destruct (addNote_adds_one_or_nothing Samples.clocks Samples.signedIn "   ")
    as [Hnone _].
  destruct (addNote_adds_one_or_nothing Samples.clocks Samples.signedIn " hello ")
    as [_ Hone].
  split.
  - apply Hnone. right. reflexivity.
  - apply (Hone Samples.alice eq_refl). vm_compute. discriminate.
Defined.

Lemma notesPath_inj_id u (i j : string) :
  (notesPath u, i) = (notesPath u, j) -> i = j.
Proof. congruence. Qed.

(** C7: saving an edit leaves every document of the store in place with
    its timestamp; the document of the edited note gets the edited text
    and no other document changes at all.  Read through the snapshot: the
    notes after the edit are the notes before, each with its id and its
    timestamp.  With no user or no note being edited nothing is written. *)
Theorem saveEdit_changes_text_only (answer : Answer) (s : AppState)
    (db : Firestore) :
  (forall u n,
     user s = Some u -> editingNote s = Some n ->
     let db' := run db (App.saveEdit answer s).2 in
     (App.saveEdit answer s).2 = [UpdateDoc (notesPath u) (id n) (editText s)]
     /\ (Earlier.saveEdit answer s).2 = (App.saveEdit answer s).2
     /\ lookupDoc db' (notesPath u) (id n)
        = withText (editText s) <$> lookupDoc db (notesPath u) (id n)
     /\ (forall path docId,
           (path, docId) <> (notesPath u, id n) ->
           lookupDoc db' path docId = lookupDoc db path docId)
     /\ (forall path n',
           n' ∈ snapshotNotes (collectionOf db' path) ->
           exists n0, n0 ∈ snapshotNotes (collectionOf db path)
                      /\ id n0 = id n' /\ timestamp n0 = timestamp n')
     /\ (forall path n0,
           n0 ∈ snapshotNotes (collectionOf db path) ->
           exists n', n' ∈ snapshotNotes (collectionOf db' path)
                      /\ id n' = id n0 /\ timestamp n' = timestamp n0))
  /\ (user s = None \/ editingNote s = None ->
        run db (App.saveEdit answer s).2 = db /\ run db (Earlier.saveEdit answer s).2 = db).
Proof.
  split.
  - intros u n Hu Hn db'.
    assert (Hreq : (App.saveEdit answer s).2 = [UpdateDoc (notesPath u) (id n) (editText s)]).
    { unfold App.saveEdit. cbn [snd]. by rewrite Hu, Hn. }
    assert (Hlook : forall path docId,
      lookupDoc db' path docId
      = if decide ((notesPath u, id n) = (path, docId))
        then withText (editText s) <$> lookupDoc db (notesPath u) (id n)
        else lookupDoc db path docId).
    { intros path docId. subst db'. rewrite Hreq. cbn [run foldl].
      apply lookupDoc_update. }
    split; [exact Hreq|]. split.
    { unfold Earlier.saveEdit, App.saveEdit. by rewrite Hu, Hn. }
    split; [by rewrite Hlook, decide_True|]. split.
    { intros path docId Hne. rewrite Hlook. by rewrite decide_False. }
    split.
    + intros path n' Hn'. apply elem_of_snapshotNotes in Hn'.
      fold (lookupDoc db' path (id n')) in Hn'. rewrite Hlook in Hn'.
      case_decide as Hd.
      * injection Hd as <- Hid.
        destruct (lookupDoc db (notesPath u) (id n)) as [d|] eqn:Hd0; [|done].
        assert (Hts' : docTimestamp d = timestamp n').
        { unfold withText, docOf in Hn'. cbn in Hn'. congruence. }
        exists {| id := id n'; text := docText d; timestamp := docTimestamp d |}.
        split; [|split; [done|exact Hts']].
        apply elem_of_snapshotNotes. cbn [id]. rewrite <- Hid.
        unfold lookupDoc in Hd0. rewrite Hd0. by destruct d.
      * exists n'. split; [|done]. by apply elem_of_snapshotNotes.
    + intros path n0 Hn0. apply elem_of_snapshotNotes in Hn0.
      destruct (decide ((notesPath u, id n) = (path, id n0))) as [Hd|Hd].
      * exists {| id := id n0; text := editText s; timestamp := timestamp n0 |}.
        split; [|done]. apply elem_of_snapshotNotes. cbn [id].
        fold (lookupDoc db' path (id n0)). rewrite Hlook, decide_True by done.
        injection Hd as <- Hid. rewrite Hid.
        unfold lookupDoc. by rewrite Hn0.
      * exists n0. split; [|done]. apply elem_of_snapshotNotes.
        fold (lookupDoc db' path (id n0)). by rewrite Hlook, decide_False.
  - intros Hno.
    assert (H : (App.saveEdit answer s).2 = [] /\ (Earlier.saveEdit answer s).2 = []).
    { unfold App.saveEdit, Earlier.saveEdit. cbn [snd].
      destruct Hno as [->| ->]; [done|]. by destruct (user s). }
    destruct H as [-> ->]. done.
Qed.

Lemma saveEdit_changes_text_only_witness :
  lookupDoc (run Samples.db (App.saveEdit Resolved Samples.editing).2) "users/alice/notes" "b"
  = Some {| docText := "A memory, corrected.";
            docTimestamp := Some (fromMillis 1699185600000) |}
  /\ run Samples.db (App.saveEdit Resolved Samples.synced).2 = Samples.db.
Proof.
  destruct (saveEdit_changes_text_only Resolved Samples.editing Samples.db) as [H _].
  destruct (H Samples.alice Samples.nov2023 eq_refl eq_refl) as (_ & _ & Hb & _).
  destruct (saveEdit_changes_text_only Resolved Samples.synced Samples.db) as [_ H0].
  split; [exact Hb|]. apply H0. right. reflexivity.
Defined.

(** C5, as amended: with a speech error recorded, or no recognition
    object yet, pressing the button changes nothing and asks nothing of the
    speech capability; otherwise, whether or not a session is already
    active, it clears the transcript buffer, sets the recording flag and
    asks the capability to start. *)
Theorem handleRecordStart_guards (s : AppState) :
  (micError s <> "" \/ recognitionRef s = None ->
     App.handleRecordStart s = (s, [])
     /\ Earlier.handleRecordStart s = (s, []))
  /\ (micError s = "" -> recognitionRef s <> None ->
        App.handleRecordStart s
          = (setIsRecording true (setTranscript "" s), [RecognitionStart])
        /\ Earlier.handleRecordStart s = App.handleRecordStart s).
Proof.
  unfold App.handleRecordStart, Earlier.handleRecordStart. split.
  - intros [Hm|Hr].
    + destruct (micError s); [done|]. done.
    + rewrite Hr. rewrite bool_decide_false by (by intros [? ?]).
      by rewrite orb_true_r.
  - intros -> Hr. rewrite bool_decide_true; [done|].
    destruct (recognitionRef s); [by eexists|done].
Qed.

Lemma handleRecordStart_guards_witness :
  App.handleRecordStart Samples.synced
  = (setIsRecording true (setTranscript "" Samples.synced), [RecognitionStart])
  /\ App.handleRecordStart Notes.initialState = (Notes.initialState, []).
Proof.
  destruct (handleRecordStart_guards Samples.synced) as [_ Hgo].
  destruct (handleRecordStart_guards Notes.initialState) as [Hstop _].
  split.
  - apply Hgo; [reflexivity|discriminate].
  - apply Hstop. right. reflexivity.
Defined.

(** C5, as stated, fails while a session is active: the handler does not
    look at the recording flag, so it wipes the transcript heard so far and
    asks for another start. *)
Lemma handleRecordStart_while_recording :
  isRecording Samples.recording = true
  /\ transcriptRef Samples.recording = "half a sentence"
  /\ transcriptRef (App.handleRecordStart Samples.recording).1 = ""
  /\ (App.handleRecordStart Samples.recording).2 = [RecognitionStart]
  /\ App.handleRecordStart Samples.recording <> (Samples.recording, []).
Proof. repeat split; by vm_compute. Qed.

(** The callback of the filter reads the selection as the specification
    does. *)
Lemma selectedBy_selectsDoc h sel n :
  sel <> SelAll -> App.selectedBy h sel n = selectsDoc h sel (docOf n).
Proof.
  intros Hsel. unfold App.selectedBy, selectsDoc, App.toDateOpt, docOf.
  cbn [docTimestamp].
  destruct sel as [|y|y m]; [done| |]; destruct (timestamp n) as [ts|]; try done.
  change (toDate <$> Some ts) with (Some (toDate ts)). cbv iota.
  by rewrite bool_decide_and.
Qed.

Lemma elem_of_toDelete h sel l n :
  n ∈ App.toDelete h sel l <-> n ∈ l /\ selectsDoc h sel (docOf n) = true.
Proof.
  destruct sel as [|y|y m]; cbn [App.toDelete].
  - cbn [selectsDoc]. tauto.
  - by rewrite elem_of_filter, selectedBy_selectsDoc.
  - by rewrite elem_of_filter, selectedBy_selectsDoc.
Qed.

Lemma handleConfirmDelete_requests h answer s u sel :
  user s = Some u -> showDeleteConfirm s = Some sel ->
  (App.handleConfirmDelete h answer s).2
  = match App.toDelete h sel (notes s) with
    | [] => []
    | l => [CommitBatch ((λ n, (notesPath u, id n)) <$> l)]
    end.
Proof.
  intros Hu Hsel. unfold App.handleConfirmDelete. rewrite Hu, Hsel.
  by destruct (App.toDelete h sel (notes s)).
Qed.

Lemma run_confirmDelete h answer s u sel db :
  user s = Some u -> showDeleteConfirm s = Some sel ->
  run db (App.handleConfirmDelete h answer s).2
  = foldl deleteAt db ((λ n, (notesPath u, id n)) <$> App.toDelete h sel (notes s)).
Proof.
  intros Hu Hsel. rewrite (handleConfirmDelete_requests h answer s u sel Hu Hsel).
  by destruct (App.toDelete h sel (notes s)).
Qed.

Lemma elem_of_batch h sel u db path docId :
  (path, docId) ∈ (λ n, (notesPath u, id n))
                    <$> App.toDelete h sel (snapshotNotes (collectionOf db (notesPath u)))
  <-> path = notesPath u
      /\ exists d, lookupDoc db (notesPath u) docId = Some d
                   /\ selectsDoc h sel d = true.
Proof.
  rewrite list_elem_of_fmap. split.
  - intros (n & Heq & Hn). injection Heq as -> ->.
    apply elem_of_toDelete in Hn as [Hn Hsel].
    apply elem_of_snapshotNotes in Hn. split; [done|]. by exists (docOf n).
  - intros (-> & d & Hd & Hsel).
    exists {| id := docId; text := docText d; timestamp := docTimestamp d |}.
    split; [done|]. apply elem_of_toDelete. split.
    + apply elem_of_snapshotNotes. cbn [id]. unfold lookupDoc in Hd.
      rewrite Hd. by destruct d.
    + by destruct d.
Qed.

(** C10: with a user signed in, a selection confirmed and the notes being
    the snapshot of the user's collection, the batch removes from the
    collection exactly the documents the selection names: for a year, those
    whose timestamp falls in that local year; for a month, those in that
    year whose locale month name is that month.  A document without a
    timestamp stays under a year or month selection, as does every document
    outside the selection and every other collection.  When the selection
    names no document, no call is made and the store is as it was;
    otherwise exactly one batch is committed. *)
Theorem confirmDelete_removes_selection (h : Host) (answer : Answer)
    (db : Firestore) (s : AppState) (u : User) (sel : Selection) :
  user s = Some u ->
  showDeleteConfirm s = Some sel ->
  notes s = snapshotNotes (collectionOf db (notesPath u)) ->
  let requests := (App.handleConfirmDelete h answer s).2 in
  let db' := run db requests in
  (forall docId,
     lookupDoc db' (notesPath u) docId
     = match lookupDoc db (notesPath u) docId with
       | Some d => if selectsDoc h sel d then None else Some d
       | None => None
       end)
  /\ (forall docId d,
        sel <> SelAll ->
        lookupDoc db (notesPath u) docId = Some d ->
        docTimestamp d = None ->
        lookupDoc db' (notesPath u) docId = Some d)
  /\ (forall path docId,
        path <> notesPath u ->
        lookupDoc db' path docId = lookupDoc db path docId)
  /\ ((forall docId d, lookupDoc db (notesPath u) docId = Some d ->
                       selectsDoc h sel d = false) ->
      requests = [] /\ db' = db)
  /\ ((exists docId d, lookupDoc db (notesPath u) docId = Some d
                       /\ selectsDoc h sel d = true) ->
      exists refs, requests = [CommitBatch refs]).
Proof.
  intros Hu Hsel Hnotes requests db'.
  assert (Hlook : forall path docId,
    lookupDoc db' path docId
    = if decide (path = notesPath u)
      then match lookupDoc db path docId with
           | Some d => if selectsDoc h sel d then None else Some d
           | None => None
           end
      else lookupDoc db path docId).
  { intros path docId. subst db' requests.
    rewrite (run_confirmDelete h answer s u sel db Hu Hsel), lookupDoc_batch, Hnotes.
    destruct (decide ((path, docId) ∈ _)) as [Hin|Hin];
      rewrite elem_of_batch in Hin.
    - destruct Hin as (-> & d & Hd & Hs). by rewrite decide_True, Hd, Hs.
    - case_decide as Hp; [subst path|done].
      destruct (lookupDoc db (notesPath u) docId) as [d|] eqn:Hd; [|done].
      destruct (selectsDoc h sel d) eqn:Hs; [|done].
      destruct Hin. split; [done|]. by exists d. }
  assert (Hmain : forall docId,
    lookupDoc db' (notesPath u) docId
    = match lookupDoc db (notesPath u) docId with
      | Some d => if selectsDoc h sel d then None else Some d
      | None => None
      end).
  { intros docId. by rewrite Hlook, decide_True. }
  split; [exact Hmain|]. split.
  { intros docId d Hall Hd Hts. rewrite Hmain, Hd.
    destruct sel as [|y|y m]; [done| |]; cbn [selectsDoc]; by rewrite Hts. }
  split.
  { intros path docId Hne. rewrite Hlook. by rewrite decide_False. }
  split.
  - intros Hnone.
    assert (Hempty : App.toDelete h sel (notes s) = []).
    { destruct (App.toDelete h sel (notes s)) as [|n l] eqn:Hl; [done|].
      assert (Hn : n ∈ App.toDelete h sel (notes s)) by (rewrite Hl; left).
      apply elem_of_toDelete in Hn as [Hn Hs]. rewrite Hnotes in Hn.
      apply elem_of_snapshotNotes in Hn.
      by rewrite (Hnone (id n) (docOf n) Hn) in Hs. }
    subst db' requests.
    rewrite (handleConfirmDelete_requests h answer s u sel Hu Hsel), Hempty. done.
  - intros (docId & d & Hd & Hs). subst requests.
    rewrite (handleConfirmDelete_requests h answer s u sel Hu Hsel).
    destruct (App.toDelete h sel (notes s)) as [|n l] eqn:Hl; [|by eexists].
    assert (Hin : {| id := docId; text := docText d; timestamp := docTimestamp d |}
                  ∈ App.toDelete h sel (notes s)).
    { apply elem_of_toDelete. split.
      - rewrite Hnotes. apply elem_of_snapshotNotes. cbn [id].
        unfold lookupDoc in Hd. rewrite Hd. by destruct d.
      - by destruct d. }
    rewrite Hl in Hin. by apply not_elem_of_nil in Hin.
Qed.

Lemma confirmDelete_removes_selection_witness :
  let db' := run Samples.db (App.handleConfirmDelete utcEnglish Resolved Samples.deleting2024).2 in
  (lookupDoc db' "users/alice/notes" "a" = None
   /\ lookupDoc db' "users/alice/notes" "b" = Some (docOf Samples.nov2023)
   /\ lookupDoc db' "users/alice/notes" "d" = Some (docOf Samples.pending)
   /\ exists refs,
        (App.handleConfirmDelete utcEnglish Resolved Samples.deleting2024).2
        = [CommitBatch refs])
  /\ (App.handleConfirmDelete utcEnglish Resolved Samples.deleting1999).2 = []
  /\ run Samples.db (App.handleConfirmDelete utcEnglish Resolved Samples.deleting1999).2
     = Samples.db.
Proof.
  destruct (confirmDelete_removes_selection utcEnglish Resolved Samples.db
              Samples.deleting2024 Samples.alice (SelYear 2024)
              eq_refl eq_refl eq_refl) as (H & Hundated & _ & _ & Hbatch).
  destruct (confirmDelete_removes_selection utcEnglish Resolved Samples.db
              Samples.deleting1999 Samples.alice (SelYear 1999)
              eq_refl eq_refl eq_refl) as (_ & _ & _ & Hnone & _).
  split; [|apply Hnone].
  - split; [exact (H "a")|]. split; [exact (H "b")|]. split.
    + apply Hundated; [discriminate|reflexivity|reflexivity].
    + apply Hbatch. exists "a", (docOf Samples.jan2024).
      split; [reflexivity|]. vm_compute. reflexivity.
  - assert (Hall : map_Forall
      (λ _ d, selectsDoc utcEnglish (SelYear 1999) d = false)
      (collectionOf Samples.db (notesPath Samples.alice))).
    { apply (bool_decide_unpack _). vm_compute. exact I. }
    intros docId d Hd. exact (Hall docId d Hd).
Defined.

End HandlersFacts.

(** ** Strings: trimming and searching *)

Module StringFacts.
Import Enumerate EnumerateFacts Calendar Notes JS ViewSpec GroupingFacts.

Lemma append_cons (x : ascii) (a b : string) :
  String x a +:+ b = String x (a +:+ b).
Proof. reflexivity. Qed.

Lemma append_nil_l (b : string) : "" +:+ b = b.
Proof. reflexivity. Qed.

Lemma append_assoc (a b c : string) : (a +:+ b) +:+ c = a +:+ (b +:+ c).
Proof.
  induction a as [|x a IH]; [reflexivity|]. by rewrite !append_cons, IH.
Qed.

Lemma append_nil_r (a : string) : a +:+ "" = a.
Proof. induction a as [|x a IH]; [reflexivity|]. by rewrite append_cons, IH. Qed.

Lemma trimStart_split s :
  exists a, s = a +:+ trimStart s /\ blank a = true
            /\ forall c, firstChar (trimStart s) = Some c -> isWhiteSpace c = false.
Proof.
  induction s as [|x s (a & Hs & Ha & Hc)].
  - exists "". split_and!; [done | done |]. intros c [=].
  - cbn [trimStart]. destruct (isWhiteSpace x) eqn:Hx.
    + exists (String x a). split_and!.
      * rewrite append_cons. by f_equal.
      * cbn [blank]. by rewrite Hx, Ha.
      * exact Hc.
    + exists "". split_and!; [done | done |]. intros c [= <-]. exact Hx.
Qed.

Lemma trimEnd_split s :
  exists b, s = trimEnd s +:+ b /\ blank b = true
            /\ (forall c, lastChar (trimEnd s) = Some c -> isWhiteSpace c = false)
            /\ firstChar (trimEnd s)
               = (if blank s then None else firstChar s).
Proof.
  induction s as [|x s (b & Hs & Hb & Hc & Hf)].
  - exists "". split_and!; [done | done | | done]. intros c [=].
  - cbn [trimEnd blank firstChar]. destruct (trimEnd s) as [|y t] eqn:Ht.
    + assert (Hbs : blank s = true).
      { rewrite append_nil_l in Hs. by rewrite Hs. }
      rewrite Hbs, andb_true_r.
      destruct (isWhiteSpace x) eqn:Hx.
      * exists (String x s). split_and!; [done | | | done].
        -- cbn [blank]. by rewrite Hx, Hbs.
        -- intros c [=].
      * exists s. split_and!; [done | done | | done]. intros c [= <-]. exact Hx.
    + exists b. split_and!.
      * rewrite append_cons. by f_equal.
      * done.
      * intros c Hl. apply Hc. exact Hl.
      * destruct (blank s) eqn:Hbs; [cbn in Hf; discriminate|].
        by rewrite andb_false_r.
Qed.

Lemma trim_split s :
  exists a b, s = a +:+ trim s +:+ b /\ blank a = true /\ blank b = true
              /\ Trimmed (trim s).
Proof.
  destruct (trimStart_split s) as (a & Hs & Ha & Hc).
  destruct (trimEnd_split (trimStart s)) as (b & Hs' & Hb & Hl & Hf).
  exists a, b. unfold trim. split_and!; [ | done | done | ].
  - by rewrite <- Hs'.
  - split; [|exact Hl]. intros c Hc'. rewrite Hf in Hc'.
    destruct (blank (trimStart s)); [discriminate|]. by apply Hc.
Qed.

Lemma trimStart_fixed s :
  (forall c, firstChar s = Some c -> isWhiteSpace c = false) -> trimStart s = s.
Proof.
  destruct s as [|x s]; [done|]. cbn. intros H. by rewrite (H x eq_refl).
Qed.

Lemma trimEnd_fixed s :
  (forall c, lastChar s = Some c -> isWhiteSpace c = false) -> trimEnd s = s.
Proof.
  induction s as [|x s IH]; [done|]. cbn. intros H.
  destruct s as [|y s].
  - cbn. by rewrite (H x eq_refl).
  - rewrite IH by exact H. reflexivity.
Qed.

Lemma trim_fixed s : Trimmed s -> trim s = s.
Proof.
  intros [Hf Hl]. unfold trim. rewrite (trimStart_fixed s Hf). by apply trimEnd_fixed.
Qed.

Lemma prefix_spec (a s : string) :
  String.prefix a s = true <-> exists b, s = a +:+ b.
Proof.
  revert s. induction a as [|x a IH]; intros s.
  - destruct s; cbn; split; eauto.
  - destruct s as [|y s]; cbn.
    + split; [done | intros [b [=]]].
    + destruct (ascii_dec x y) as [->|Hne].
      * rewrite IH. split; intros [b Hb]; exists b; [by rewrite Hb | by injection Hb].
      * split; [done | intros [b Hb]; injection Hb; congruence].
Qed.

Lemma includes_spec (s sub : string) :
  includes s sub = true <-> exists a b, s = a +:+ sub +:+ b.
Proof.
  induction s as [|x s IH].
  - cbn [includes]. rewrite orb_false_r, prefix_spec. split.
    + intros [b Hb]. by exists "", b.
    + intros (a & b & Hab). destruct a; cbn in Hab; [by exists b | discriminate].
  - cbn [includes]. rewrite orb_true_iff, prefix_spec, IH. split.
    + intros [[b Hb] | (a & b & Hab)].
      * by exists "", b.
      * exists (String x a), b. cbn. by rewrite Hab.
    + intros (a & b & Hab). destruct a as [|y a]; cbn in Hab.
      * left. by exists b.
      * right. exists a, b. by injection Hab.
Qed.

Lemma toLowerCase_append (a b : string) :
  toLowerCase (a +:+ b) = toLowerCase a +:+ toLowerCase b.
Proof.
  induction a as [|x a IH]; [reflexivity|].
  rewrite append_cons. cbn [toLowerCase]. by rewrite append_cons, IH.
Qed.

Lemma lowerChar_idemp c : lowerChar (lowerChar c) = lowerChar c.
Proof.
  assert (H : forallb (λ c, bool_decide (lowerChar (lowerChar c) = lowerChar c))
                allAscii = true) by (vm_compute; reflexivity).
  exact (bool_decide_eq_true_1 _ (forallb_ascii _ H c)).
Qed.

Lemma toLowerCase_idemp s : toLowerCase (toLowerCase s) = toLowerCase s.
Proof. induction s as [|x s IH]; cbn; [reflexivity | by rewrite lowerChar_idemp, IH]. Qed.

Lemma includes_trans (s t u : string) :
  includes s t = true -> includes t u = true -> includes s u = true.
Proof.
  rewrite !includes_spec. intros (a & b & ->) (a' & b' & ->).
  exists (a +:+ a'), (b' +:+ b). by rewrite !append_assoc.
Qed.

Lemma includes_empty s : includes s "" = true.
Proof. apply includes_spec. by exists "", s. Qed.

End StringFacts.

(** ** The snapshot listener: order of the notes *)

Module SnapshotFacts.
Import Calendar Notes JS Store HandlersSpec ViewSpec GroupingFacts StoreFacts.

Lemma HdRel_insertNewestFirst (m n : Note) (l : list Note) :
  sortKey n <= sortKey m ->
  HdRel (λ a b, sortKey b <= sortKey a) m l ->
  HdRel (λ a b, sortKey b <= sortKey a) m (insertNewestFirst n l).
Proof.
  intros Hn Hl. destruct l as [|x l]; cbn [insertNewestFirst].
  - by constructor.
  - destruct (sortKey x <=? sortKey n); constructor; [done|].
    by inversion Hl.
Qed.

Lemma Sorted_insertNewestFirst (n : Note) (l : list Note) :
  Sorted (λ a b, sortKey b <= sortKey a) l ->
  Sorted (λ a b, sortKey b <= sortKey a) (insertNewestFirst n l).
Proof.
  induction 1 as [|m l Hl IH Hm]; cbn [insertNewestFirst].
  - repeat constructor.
  - destruct (Z.leb_spec (sortKey m) (sortKey n)) as [Hle|Hgt].
    + constructor; [by constructor|]. by constructor.
    + constructor; [exact IH|]. apply HdRel_insertNewestFirst; [lia | exact Hm].
Qed.

Lemma NewestFirst_sortNewestFirst (l : list Note) : NewestFirst (sortNewestFirst l).
Proof.
  apply Sorted_StronglySorted.
  - intros a b c Hab Hbc. cbn in *. lia.
  - induction l as [|n l IH]; [constructor|].
    cbn [sortNewestFirst foldr]. by apply Sorted_insertNewestFirst.
Qed.

Lemma NewestFirst_snapshotNotes (c : gmap string NoteDoc) :
  NewestFirst (snapshotNotes c).
Proof. apply NewestFirst_sortNewestFirst. Qed.

Lemma snapshotNotes_ids (c : gmap string NoteDoc) :
  id <$> snapshotNotes c ≡ₚ (map_to_list c).*1.
Proof.
  unfold snapshotNotes. rewrite sortNewestFirst_perm, <- list_fmap_compose.
  by apply reflexive_eq, list_fmap_ext.
Qed.

End SnapshotFacts.

(** ** Searching and grouping: order, shape and edge cases *)

Module ViewFacts.
Import Calendar Notes JS GroupingSpec ViewSpec GroupingFacts StringFacts SnapshotFacts.

Lemma filter_filter {A} (p q : A -> bool) (l : list A) :
  List.filter p (List.filter q l) = List.filter (λ x, q x && p x) l.
Proof.
  induction l as [|x l IH]; [done|]. cbn [List.filter].
  destruct (q x); cbn [List.filter andb]; by rewrite IH.
Qed.

Lemma filter_ext_in {A} (p q : A -> bool) (l : list A) :
  (forall x, p x = q x) -> List.filter p l = List.filter q l.
Proof.
  intros H. induction l as [|x l IH]; [done|]. cbn [List.filter]. by rewrite H, IH.
Qed.

Lemma filter_true {A} (p : A -> bool) (l : list A) :
  (forall x, p x = true) -> List.filter p l = l.
Proof.
  intros H. induction l as [|x l IH]; [done|]. cbn [List.filter]. by rewrite H, IH.
Qed.

Lemma filter_all {A} (p : A -> bool) (l : list A) :
  (forall x, x ∈ l -> p x = true) -> List.filter p l = l.
Proof.
  induction l as [|x l IH]; intros H; [done|]. cbn [List.filter].
  rewrite (H x) by left. f_equal. apply IH. intros y Hy. apply H. by right.
Qed.

Lemma filter_none {A} (p : A -> bool) (l : list A) :
  (forall x, x ∈ l -> p x = false) -> List.filter p l = [].
Proof.
  induction l as [|x l IH]; intros H; [done|]. cbn [List.filter].
  rewrite (H x) by left. apply IH. intros y Hy. apply H. by right.
Qed.

Lemma StronglySorted_filter {A} (R : A -> A -> Prop) (p : A -> bool) (l : list A) :
  StronglySorted R l -> StronglySorted R (List.filter p l).
Proof.
  induction 1 as [|x l Hl IH Hx]; cbn [List.filter]; [constructor|].
  destruct (p x); [|exact IH]. constructor; [exact IH|].
  rewrite Forall_forall in Hx |- *. intros y Hy.
  apply Hx. apply elem_of_filter in Hy. tauto.
Qed.

(** The test of the earlier revision for "today" is that of [App]. *)
Lemma earlier_isToday h now n :
  match App.dateStringOpt h n with
  | Some s => bool_decide (s = toDateString h now)
  | None => false
  end = App.isToday h now n.
Proof.
  unfold App.isToday. destruct (App.dateStringOpt h n) as [s|]; [|done].
  apply bool_decide_ext. split; congruence.
Qed.

(** Its test for "past", on a note that has a bucket. *)
Lemma earlier_isPast h now n k :
  (match App.dateStringOpt h n with
   | Some s => negb (bool_decide (s = toDateString h now))
   | None => false
   end && bool_decide (bucketKeyOf h n = Some k))
  = (negb (App.isToday h now n) && bool_decide (bucketKeyOf h n = Some k)).
Proof.
  rewrite <- earlier_isToday.
  unfold App.dateStringOpt, App.toDateOpt, bucketKeyOf.
  destruct (timestamp n) as [ts|]; cbn; [done|].
  by rewrite bool_decide_false.
Qed.

(** The hierarchy after one more note, as three nested updates. *)
Lemma pushNote_insert acc y m day n :
  let ym0 := default ∅ (acc !! y) in
  let md0 := default ∅ (ym0 !! m) in
  let l0 := default [] (md0 !! day) in
  pushNote acc y m day n
  = <[y := <[m := <[day := l0 ++ [n]]> md0]> ym0]> acc.
Proof.
  intros ym0 md0 l0. unfold pushNote. apply map_eq. intros y'.
  destruct (decide (y = y')) as [<-|Hy].
  2:{ by rewrite lookup_insert_ne, !lookup_alter_ne, lookup_ensure_ne. }
  rewrite lookup_insert_eq, !lookup_alter_eq, lookup_ensure_eq.
  cbn [fmap option_fmap option_map]. f_equal. fold ym0.
  apply map_eq. intros m'.
  destruct (decide (m = m')) as [<-|Hm].
  2:{ by rewrite lookup_insert_ne, !lookup_alter_ne, lookup_ensure_ne. }
  rewrite lookup_insert_eq, !lookup_alter_eq, lookup_ensure_eq.
  cbn [fmap option_fmap option_map]. f_equal. fold md0.
  apply map_eq. intros d'.
  destruct (decide (day = d')) as [<-|Hd].
  2:{ by rewrite lookup_insert_ne, !lookup_alter_ne, lookup_ensure_ne. }
  by rewrite lookup_insert_eq, !lookup_alter_eq, lookup_ensure_eq.
Qed.

Lemma NoEmptyLevel_empty : NoEmptyLevel ∅.
Proof. intros y ym Hy. by rewrite lookup_empty in Hy. Qed.

Lemma NoEmptyLevel_pushNote acc y m day n :
  NoEmptyLevel acc -> NoEmptyLevel (pushNote acc y m day n).
Proof.
  intros Hacc. rewrite pushNote_insert. intros y' ym' Hy'.
  destruct (decide (y = y')) as [<-|Hy].
  2:{ rewrite lookup_insert_ne in Hy' by done. by apply (Hacc y'). }
  rewrite lookup_insert_eq in Hy'. injection Hy' as <-.
  split; [apply insert_non_empty|]. intros m' md' Hm'.
  destruct (decide (m = m')) as [<-|Hm].
  2:{ rewrite lookup_insert_ne in Hm' by done.
      destruct (acc !! y) as [ym|] eqn:Hym; cbn in Hm'.
      - by apply (proj2 (Hacc y ym Hym) m').
      - by rewrite lookup_empty in Hm'. }
  rewrite lookup_insert_eq in Hm'. injection Hm' as <-.
  split; [apply insert_non_empty|]. intros d' l' Hd'.
  destruct (decide (day = d')) as [<-|Hd].
  2:{ rewrite lookup_insert_ne in Hd' by done.
      destruct (acc !! y) as [ym|] eqn:Hym; cbn in Hd'.
      - destruct (ym !! m) as [md|] eqn:Hmd; cbn in Hd'.
        + by apply (proj2 (proj2 (Hacc y ym Hym) m md Hmd) d').
        + by rewrite lookup_empty in Hd'.
      - by rewrite lookup_empty in Hd'. }
  rewrite lookup_insert_eq in Hd'. injection Hd' as <-.
  by destruct (default [] _).
Qed.

Lemma NoEmptyLevel_foldl h l acc :
  NoEmptyLevel acc -> NoEmptyLevel (foldl (place h) acc l).
Proof.
  revert acc. induction l as [|n l IH]; intros acc Hacc; [done|].
  cbn [foldl]. apply IH. unfold place.
  destruct (bucketKeyOf h n) as [[[y m] d]|]; [|done].
  by apply NoEmptyLevel_pushNote.
Qed.

Lemma year_foldl h l acc y :
  is_Some (foldl (place h) acc l !! y)
  <-> is_Some (acc !! y)
      \/ exists n m day, n ∈ l /\ bucketKeyOf h n = Some (y, m, day).
Proof.
  revert acc. induction l as [|n l IH]; intros acc; cbn [foldl].
  - split; [by left|]. intros [H|(n & m & d & Hn & _)]; [done|].
    by apply elem_of_nil in Hn.
  - rewrite IH. unfold place.
    destruct (bucketKeyOf h n) as [[[y0 m0] d0]|] eqn:Hk.
    + rewrite pushNote_insert. cbn zeta.
      destruct (decide (y0 = y)) as [->|Hy].
      * rewrite lookup_insert_eq. split; [|by left].
        intros _. right. exists n, m0, d0. split; [left|done].
      * rewrite lookup_insert_ne by done. split.
        -- intros [H|(n' & m & d & Hn' & Hk')]; [by left|].
           right. exists n', m, d. split; [by right|done].
        -- intros [H|(n' & m & d & Hn' & Hk')]; [by left|].
           apply elem_of_cons in Hn' as [->|Hn'].
           ++ congruence.
           ++ right. by exists n', m, d.
    + split.
      * intros [H|(n' & m & d & Hn' & Hk')]; [by left|].
        right. exists n', m, d. split; [by right|done].
      * intros [H|(n' & m & d & Hn' & Hk')]; [by left|].
        apply elem_of_cons in Hn' as [->|Hn'].
        -- congruence.
        -- right. by exists n', m, d.
Qed.

Lemma place_undated h l acc :
  (forall n, n ∈ l -> timestamp n = None) -> foldl (place h) acc l = acc.
Proof.
  revert acc. induction l as [|n l IH]; intros acc Hl; [done|].
  cbn [foldl]. unfold place at 2. unfold bucketKeyOf.
  rewrite (Hl n) by left. cbn. apply IH. intros n' Hn'. apply Hl. by right.
Qed.

Lemma matchesSearch_empty n : App.matchesSearch "" n = true.
Proof. unfold App.matchesSearch. apply includes_empty. Qed.

Lemma matchesSearch_longer before term after n :
  App.matchesSearch (before +:+ term +:+ after) n = true ->
  App.matchesSearch term n = true.
Proof.
  unfold App.matchesSearch. intros H. eapply includes_trans; [exact H|].
  rewrite !toLowerCase_append. apply includes_spec. eauto.
Qed.

Lemma matchesSearch_toLowerCase term n :
  App.matchesSearch (toLowerCase term) n = App.matchesSearch term n.
Proof. unfold App.matchesSearch. by rewrite toLowerCase_idemp. Qed.

(** X1: the text [addNote] stores is the text it was given without the
    whitespace at its two ends: what is cut off on either side is only
    whitespace, what is kept is not empty and neither starts nor ends with
    whitespace, so trimming it again changes nothing.  Both revisions. *)
Theorem addNote_stores_trimmed_text (clk : Clocks) (s : AppState)
    (text path : string) (d : NoteDoc) :
  App.addNote clk s text = [AddDoc path d] ->
  docText d <> ""
  /\ Trimmed (docText d)
  /\ trim (docText d) = docText d
  /\ (exists a b, text = a +:+ docText d +:+ b /\ blank a = true /\ blank b = true)
  /\ Earlier.addNote clk s text = [AddDoc path d].
Proof.
  unfold App.addNote, Earlier.addNote. destruct (user s) as [u|]; [|done].
  destruct (truthy (trim text)) eqn:Ht; [|done]. intros [= <- <-]. cbn.
  destruct (trim_split text) as (a & b & Hab & Ha & Hb & Htr).
  split_and!.
  - intros He. by rewrite He in Ht.
  - exact Htr.
  - by apply trim_fixed.
  - by exists a, b.
  - done.
Qed.

Lemma addNote_stores_trimmed_text_witness :
  trim "hello there" = "hello there"
  /\ exists a b, "  hello there " = a +:+ "hello there" +:+ b /\ blank a = true /\ blank b = true.
Proof.
  destruct (addNote_stores_trimmed_text Samples.clocks Samples.signedIn
              "  hello there " "users/alice/notes"
              {| docText := "hello there";
                 docTimestamp := Some (Timestamp_now Samples.clocks) |})
    as (_ & _ & Ht & Hab & _).
  - reflexivity.
  - split; [exact Ht | exact Hab].
Defined.

(** X2: with the search box empty the filter keeps every note, in both
    revisions (and whatever the clock reads). *)
Theorem empty_search_keeps_every_note (h : Host) (clock : Readings)
    (now : Date) (notes : list Note) :
  (exists g, App.grouping h clock notes "" = Normal g /\ filtered g = notes)
  /\ (exists g, Earlier.grouping h now notes "" = Normal g /\ filtered g = notes).
Proof.
  split; eexists.
  - rewrite App_grouping_Normal. split; [reflexivity|]. cbn.
    apply filter_true, matchesSearch_empty.
  - rewrite Earlier_grouping_Normal. split; [reflexivity|]. cbn.
    apply filter_true, matchesSearch_empty.
Qed.

(** X3: for search terms of ASCII characters, on which [toLowerCase] works
    character by character: a search term that contains another one finds
    no note the shorter term does not find, so typing on narrows the
    result, which is the longer term's filter applied to the shorter term's
    result; and the case of the term does not matter. *)
Theorem longer_search_term_narrows (before term after : string)
    (notes l : list Note) :
  asciiOnly before = true -> asciiOnly term = true -> asciiOnly after = true ->
  App.filteredNotes notes (before +:+ term +:+ after) = Normal l ->
  exists l',
    App.filteredNotes notes term = Normal l'
    /\ Earlier.filteredNotes notes term = Normal l'
    /\ (forall n, n ∈ l -> n ∈ l')
    /\ l = List.filter (App.matchesSearch (before +:+ term +:+ after)) l'
    /\ App.filteredNotes notes (toLowerCase term) = Normal l'.
Proof.
  intros _ _ _.
  unfold App.filteredNotes, Earlier.filteredNotes. rewrite !filterM_Normal.
  intros [= <-]. eexists. split_and!; [reflexivity | reflexivity | | | ].
  - intros n. rewrite !elem_of_filter. intros [Hn Hm]. split; [done|].
    by apply (matchesSearch_longer before term after).
  - rewrite filter_filter. apply filter_ext_in. intros n.
    destruct (App.matchesSearch (before +:+ term +:+ after) n) eqn:Hm.
    + by rewrite (matchesSearch_longer _ _ _ _ Hm).
    + by rewrite andb_false_r.
  - f_equal. apply filter_ext_in. intros n. apply matchesSearch_toLowerCase.
Qed.

Lemma longer_search_term_narrows_witness :
  exists l',
    App.filteredNotes [Samples.fromToday; Samples.jan2024; Samples.nov2023] "NEW"
    = Normal l'
    /\ (forall n, n ∈ [Samples.jan2024] -> n ∈ l').
Proof.
  destruct (longer_search_term_narrows "the " "NEW" " year"
              [Samples.fromToday; Samples.jan2024; Samples.nov2023]
              [Samples.jan2024]) as (l' & H1 & _ & H2 & _).
  - reflexivity.
  - reflexivity.
  - reflexivity.
  - reflexivity.
  - exists l'. split; [exact H1 | exact H2].
Defined.

(** X4: the list under "Today" and the list of every day of the hierarchy
    keep the order of the notes list; so with the notes newest first, as
    the snapshot listener leaves them, every list on screen is newest
    first.  In [src/App.jsx] the list under "Today" holds the matching
    notes that are of the day the clock reads in their call of the first
    filter, and the list of a day the matching notes filed under that day
    that are not of the day the clock reads in their call of the second
    filter; when every reading falls on one day, and always in the earlier
    revision, which reads the clock once, these are the matching notes of
    today and the matching past notes of that day. *)
Theorem lists_keep_notes_order (h : Host) (clock : Readings) (now : Date)
    (notes : list Note) (searchTerm : string) :
  let inToday := λ n, App.matchesSearch searchTerm n && App.isToday h now n in
  let inDay := λ k n,
    App.matchesSearch searchTerm n
    && (negb (App.isToday h now n) && bool_decide (bucketKeyOf h n = Some k)) in
  let InOrder := λ g,
    today g `sublist_of` notes
    /\ (forall y m day, bucket (structured g) y m day `sublist_of` notes)
    /\ (NewestFirst notes ->
          NewestFirst (today g)
          /\ forall y m day, NewestFirst (bucket (structured g) y m day)) in
  let ByDay := λ g,
    today g = List.filter inToday notes
    /\ (forall y m day,
          bucket (structured g) y m day = List.filter (inDay (y, m, day)) notes) in
  (exists g,
     App.grouping h clock notes searchTerm = Normal g
     /\ InOrder g
     /\ today g = filterAt (λ i n, App.isToday h (clock i) n) 0 (filtered g)
     /\ (forall y m day,
           bucket (structured g) y m day
           = List.filter (λ n, bool_decide (bucketKeyOf h n = Some (y, m, day)))
               (filterAt (λ i n, negb (App.isToday h (clock i) n))
                  (length (filtered g)) (filtered g)))
     /\ (SameDay h clock now -> ByDay g))
  /\ (exists g,
        Earlier.grouping h now notes searchTerm = Normal g
        /\ InOrder g /\ ByDay g).
Proof.
  intros inToday inDay InOrder ByDay.
  assert (Hord : forall g,
            today g `sublist_of` notes ->
            (forall y m day, bucket (structured g) y m day `sublist_of` notes) ->
            InOrder g).
  { intros g Ht Hb. split_and!; [exact Ht | exact Hb |].
    intros Hs. split.
    - by apply (StronglySorted_sublist _ _ notes).
    - intros y m day. by apply (StronglySorted_sublist _ _ notes). }
  assert (Hf : List.filter (App.matchesSearch searchTerm) notes `sublist_of` notes)
    by apply filter_sublist.
  split.
  - eexists. split; [apply App_grouping_Normal|].
    cbn [today structured pastRaw filtered].
    assert (Hb : forall y m day,
      bucket (foldl (place h) ∅
                (filterAt (λ i n, negb (App.isToday h (clock i) n))
                   (length (List.filter (App.matchesSearch searchTerm) notes))
                   (List.filter (App.matchesSearch searchTerm) notes))) y m day
      = List.filter (λ n, bool_decide (bucketKeyOf h n = Some (y, m, day)))
          (filterAt (λ i n, negb (App.isToday h (clock i) n))
             (length (List.filter (App.matchesSearch searchTerm) notes))
             (List.filter (App.matchesSearch searchTerm) notes))).
    { intros y m day. by rewrite bucket_foldl, bucket_empty, app_nil_l. }
    split; [|split; [done|split; [exact Hb|]]].
    + apply Hord; cbn [today structured].
      * etrans; [apply filterAt_sublist|exact Hf].
      * intros y m day. rewrite Hb.
        etrans; [apply filter_sublist|].
        etrans; [apply filterAt_sublist|exact Hf].
    + intros Hday. split.
      * rewrite (filterAt_filter _ (App.isToday h now)).
        { apply filter_filter. }
        intros i n. by apply isToday_same_day.
      * intros y m day. rewrite Hb.
        rewrite (filterAt_filter _ (λ n, negb (App.isToday h now n))).
        { by rewrite !filter_filter. }
        intros i n. by rewrite (isToday_same_day h (clock i) now n (Hday i)).
  - eexists. split; [apply Earlier_grouping_Normal|].
    cbn [today structured pastRaw filtered].
    assert (Hby : ByDay
      {| filtered := List.filter (App.matchesSearch searchTerm) notes;
         today := List.filter
                    (λ n, match App.dateStringOpt h n with
                          | Some s => bool_decide (s = toDateString h now)
                          | None => false
                          end)
                    (List.filter (App.matchesSearch searchTerm) notes);
         pastRaw := List.filter
                      (λ n, match App.dateStringOpt h n with
                            | Some s => negb (bool_decide (s = toDateString h now))
                            | None => false
                            end)
                      (List.filter (App.matchesSearch searchTerm) notes);
         structured := foldl (place h) ∅
                         (List.filter
                            (λ n, match App.dateStringOpt h n with
                                  | Some s =>
                                      negb (bool_decide (s = toDateString h now))
                                  | None => false
                                  end)
                            (List.filter (App.matchesSearch searchTerm) notes)) |}).
    { split; cbn [today structured].
      - rewrite filter_filter. apply filter_ext_in. intros n.
        unfold inToday. by rewrite earlier_isToday.
      - intros y m day. rewrite bucket_foldl, bucket_empty, app_nil_l.
        rewrite !filter_filter. apply filter_ext_in. intros n.
        unfold inDay. by rewrite earlier_isPast. }
    split; [|exact Hby].
    destruct Hby as [Ht Hb]. apply Hord.
    + rewrite Ht. apply filter_sublist.
    + intros y m day. rewrite Hb. apply filter_sublist.
Qed.

Lemma lists_keep_notes_order_witness :
  exists g,
    App.grouping utcEnglish (Samples.steady Samples.now) Samples.diary ""
    = Normal g
    /\ today g = [Samples.fromToday2; Samples.fromToday]
    /\ bucket (structured g) "2024" "January" "20"
       = [Samples.jan2024; Samples.jan2024b]
    /\ NewestFirst (today g)
    /\ NewestFirst (bucket (structured g) "2024" "January" "20").
Proof.
  destruct (lists_keep_notes_order utcEnglish (Samples.steady Samples.now)
              Samples.now Samples.diary "")
    as [(g & Hg & (_ & _ & Hs) & _ & _ & Hby) _].
  exists g. split; [exact Hg|].
  destruct Hby as [Ht Hb]; [by intros i|].
  split; [by rewrite Ht|]. split; [by rewrite Hb|].
  destruct Hs as [Hst Hsb].
  { repeat (constructor; [|by repeat (constructor; [by vm_compute|])]).
    constructor. }
  split; [exact Hst | apply Hsb].
Defined.

(** What the fold gives, whatever list of past notes it is run on. *)
Lemma hierarchy_shape h p :
  NoEmptyLevel (foldl (place h) ∅ p)
  /\ forall y,
       is_Some (foldl (place h) ∅ p !! y)
       <-> exists n ts,
             n ∈ p /\ timestamp n = Some ts
             /\ y = numberToString (getFullYear h (toDate ts)).
Proof.
  split; [apply NoEmptyLevel_foldl, NoEmptyLevel_empty|].
  intros y. rewrite year_foldl, lookup_empty. split.
  - intros [[? [=]]|(n & m & day & Hn & Hk)].
    unfold bucketKeyOf in Hk. destruct (timestamp n) as [ts|] eqn:Hts; [|done].
    injection Hk as <- _ _. by exists n, ts.
  - intros (n & ts & Hn & Hts & ->). right.
    exists n, (toLocaleMonthLong h (toDate ts)),
      (numberToString (getDate h (toDate ts))).
    split; [done|]. unfold bucketKeyOf. by rewrite Hts.
Qed.

(** X5: the hierarchy has no empty level: every year in it has a month,
    every month a day and every day a note; and its years are exactly the
    local years of the past notes that have a timestamp.  Both revisions. *)
Theorem hierarchy_has_no_empty_level (h : Host) (clock : Readings) (now : Date)
    (notes : list Note) (searchTerm : string) :
  let Shaped := λ g,
    NoEmptyLevel (structured g)
    /\ forall y,
         is_Some (structured g !! y)
         <-> exists n ts,
               n ∈ pastRaw g /\ timestamp n = Some ts
               /\ y = numberToString (getFullYear h (toDate ts)) in
  (exists g, App.grouping h clock notes searchTerm = Normal g /\ Shaped g)
  /\ (exists g, Earlier.grouping h now notes searchTerm = Normal g /\ Shaped g).
Proof.
  intros Shaped. split; eexists.
  - rewrite App_grouping_Normal. split; [reflexivity|]. apply hierarchy_shape.
  - rewrite Earlier_grouping_Normal. split; [reflexivity|]. apply hierarchy_shape.
Qed.

(** X6: in [src/App.jsx] a note without a timestamp that matches the
    search is in [pastNotesRaw], so when no matching note has a timestamp
    the hierarchy is empty while [pastNotesRaw] is the whole filtered list;
    in the earlier revision [pastNotesRaw] holds only notes with a
    timestamp, and is empty exactly when the hierarchy is. *)
Theorem pastNotesRaw_and_undated_notes (h : Host) (clock : Readings)
    (now : Date) (notes : list Note) (searchTerm : string) :
  (exists g,
     App.grouping h clock notes searchTerm = Normal g
     /\ (forall n, n ∈ filtered g -> timestamp n = None -> n ∈ pastRaw g)
     /\ ((forall n, n ∈ filtered g -> timestamp n = None) ->
         pastRaw g = filtered g /\ today g = [] /\ structured g = ∅))
  /\ (exists g,
        Earlier.grouping h now notes searchTerm = Normal g
        /\ (forall n, n ∈ pastRaw g -> is_Some (timestamp n))
        /\ (pastRaw g = [] <-> structured g = ∅)).
Proof.
  assert (Hund : forall d n, timestamp n = None -> App.isToday h d n = false).
  { intros d n Hn. unfold App.isToday, App.dateStringOpt, App.toDateOpt.
    rewrite Hn. by apply bool_decide_eq_false. }
  split; eexists.
  - rewrite App_grouping_Normal. split; [reflexivity|].
    cbn [today structured pastRaw filtered]. split.
    + intros n Hn Hts. apply elem_of_filterAt.
      apply list_elem_of_lookup_1 in Hn as [i Hi]. exists i.
      split; [done|]. cbn beta. by rewrite Hund.
    + intros Hall.
      set (f := List.filter (App.matchesSearch searchTerm) notes) in *.
      assert (Hp : filterAt (λ i n, negb (App.isToday h (clock i) n))
                     (length f) f = f).
      { apply filterAt_all. intros i n Hn. by rewrite Hund by auto. }
      rewrite Hp. split_and!; [done | |].
      * apply filterAt_none. intros i n Hn. auto.
      * by apply place_undated.
  - rewrite Earlier_grouping_Normal. split; [reflexivity|].
    cbn [today structured pastRaw filtered].
    set (p := List.filter _ (List.filter (App.matchesSearch searchTerm) notes)).
    assert (Hdated : forall n, n ∈ p -> is_Some (timestamp n)).
    { intros n Hn. apply elem_of_filter in Hn as [_ Hn].
      unfold App.dateStringOpt, App.toDateOpt in Hn.
      destruct (timestamp n); [by eexists|done]. }
    split; [exact Hdated|]. split.
    + by intros ->.
    + intros He. destruct p as [|n p']; [done|]. exfalso.
      destruct (Hdated n) as [ts Hts]; [left|].
      destruct (hierarchy_shape h (n :: p')) as [_ Hy].
      destruct (proj2 (Hy (numberToString (getFullYear h (toDate ts)))))
        as [ym Hym].
      * exists n, ts. split; [left|done].
      * by rewrite He, lookup_empty in Hym.
Qed.

End ViewFacts.

(** ** The search expansion: when it throws, what it opens, what it shows *)

Module RevealFacts.
Import Calendar Notes JS GroupingSpec ExpansionSpec ViewSpec.
Import GroupingFacts ExpansionFacts ViewFacts.

Lemma eqb_trim_false (t : string) : trim t <> "" -> String.eqb (trim t) "" = false.
Proof. intros H. by apply String.eqb_neq. Qed.

Lemma reduceM_expandFor_Throw h l acc n :
  n ∈ l -> timestamp n = None ->
  exists e, reduceM (App.expandFor h) acc l = Throw e.
Proof.
  revert acc. induction l as [|x l IH]; intros acc Hn Hts.
  - by apply elem_of_nil in Hn.
  - cbn [reduceM]. destruct (timestamp x) as [tx|] eqn:Hx.
    + rewrite (expandFor_Some h acc x tx Hx), bind_Normal.
      apply elem_of_cons in Hn as [->|Hn]; [congruence|]. by apply IH.
    + destruct (expandFor_None h acc x Hx) as [e ->]. by exists e.
Qed.

Lemma reduceM_expandFor_dated h l acc r :
  reduceM (App.expandFor h) acc l = Normal r ->
  forall n, n ∈ l -> is_Some (timestamp n).
Proof.
  intros Hr n Hn. destruct (timestamp n) as [ts|] eqn:Hts; [by eexists|].
  destruct (reduceM_expandFor_Throw h l acc n Hn Hts) as [e He]. congruence.
Qed.

Lemma reduceM_expandFor_complete h l acc r :
  reduceM (App.expandFor h) acc l = Normal r ->
  (forall k, acc !! k = Some true -> r !! k = Some true)
  /\ (forall n ts, n ∈ l -> timestamp n = Some ts ->
        r !! yearKey h (toDate ts) = Some true
        /\ r !! yearMonthKey h (toDate ts) = Some true).
Proof.
  revert acc. induction l as [|x l IH]; intros acc Hr; cbn [reduceM] in Hr.
  - injection Hr as <-. split; [done|]. intros n ts Hn. by apply elem_of_nil in Hn.
  - destruct (timestamp x) as [tx|] eqn:Hx.
    2:{ destruct (expandFor_None h acc x Hx) as [e He]. by rewrite He in Hr. }
    rewrite (expandFor_Some h acc x tx Hx), bind_Normal in Hr.
    destruct (IH _ Hr) as [Hkeep Hnew].
    assert (Hy : r !! yearKey h (toDate tx) = Some true).
    { apply Hkeep.
      destruct (decide (yearMonthKey h (toDate tx) = yearKey h (toDate tx)))
        as [->|Hne].
      - by rewrite lookup_insert_eq.
      - by rewrite lookup_insert_ne, lookup_insert_eq. }
    assert (Hym : r !! yearMonthKey h (toDate tx) = Some true).
    { apply Hkeep. by rewrite lookup_insert_eq. }
    split.
    + intros k Hk. apply Hkeep.
      destruct (decide (yearMonthKey h (toDate tx) = k)) as [->|Hne1];
        [by rewrite lookup_insert_eq|].
      rewrite lookup_insert_ne by done.
      destruct (decide (yearKey h (toDate tx) = k)) as [->|Hne2];
        [by rewrite lookup_insert_eq|].
      by rewrite lookup_insert_ne.
    + intros n ts Hn Hts. apply elem_of_cons in Hn as [->|Hn].
      * assert (ts = tx) as -> by congruence. done.
      * exact (Hnew n ts Hn Hts).
Qed.

(** An undated note is not of today. *)
Lemma isToday_undated h now n : timestamp n = None -> App.isToday h now n = false.
Proof.
  intros Hn. unfold App.isToday, App.dateStringOpt, App.toDateOpt.
  rewrite Hn. by apply bool_decide_eq_false.
Qed.

Lemma isToday_dated h now n ts :
  timestamp n = Some ts ->
  App.isToday h now n = bool_decide (localDate h (toDate ts) = localDate h now).
Proof.
  intros Hn. unfold App.isToday, App.dateStringOpt, App.toDateOpt.
  rewrite Hn. apply bool_decide_ext.
  rewrite <- CalendarFacts.toDateString_same_day. cbn. split; congruence.
Qed.

(** The effect of [src/App.jsx] on a term that is not blank. *)
Lemma App_effect_nonblank h clock s :
  trim (searchTerm s) <> "" ->
  let matches := filterAt (λ i n, App.matchesSearch (searchTerm s) n
                                  && negb (App.isToday h (clock i) n))
                   0 (notes s) in
  let s1 := if (0 <? length matches)%nat then setShowPastNotes true s else s in
  App.searchExpansionEffect h clock s
  = match reduceM (App.expandFor h) ∅ matches with
    | Throw e => Throw e
    | Normal r => Normal (setExpandedItems (λ prev, r ∪ prev) s1)
    end.
Proof.
  intros Ht. unfold App.searchExpansionEffect.
  by rewrite (eqb_trim_false _ Ht), filterMi_Normal.
Qed.

(** The effect of the earlier revision on a term that is not blank. *)
Lemma Earlier_effect_nonblank h clock s :
  trim (searchTerm s) <> "" ->
  let matches := filterAt (λ i n,
      App.matchesSearch (searchTerm s) n
      && match App.dateStringOpt h n with
         | Some d => negb (bool_decide (d = toDateString h (clock i)))
         | None => false
         end) 0 (notes s) in
  let s1 := if (0 <? length matches)%nat then setShowPastNotes true s else s in
  exists r,
    reduceM (App.expandFor h) ∅ matches = Normal r
    /\ Earlier.searchExpansionEffect h clock s
       = Normal (setExpandedItems (λ _, r) s1).
Proof.
  intros Ht matches s1.
  destruct (reduceM_expandFor_total h matches ∅) as [r Hr].
  { intros n (i & _ & Hn)%elem_of_filterAt. cbn beta in Hn.
    apply andb_prop in Hn as [_ Hn].
    unfold App.dateStringOpt, App.toDateOpt in Hn.
    destruct (timestamp n); [by eexists|done]. }
  exists r. split; [done|]. unfold Earlier.searchExpansionEffect.
  rewrite (eqb_trim_false _ Ht), Earlier_matches. fold matches.
  rewrite bind_Normal. by rewrite Hr.
Qed.

(** X7: the search-expansion effect of [src/App.jsx] ends by throwing
    exactly when the term is not blank and some note that matches it has no
    timestamp, whatever the clock reads.  The effect of the earlier
    revision never throws. *)
Theorem searchExpansion_throws_on_undated_match (h : Host) (clock : Readings)
    (s : AppState) :
  ((exists e, App.searchExpansionEffect h clock s = Throw e)
   <-> trim (searchTerm s) <> ""
       /\ exists n, n ∈ notes s /\ App.matchesSearch (searchTerm s) n = true
                    /\ timestamp n = None)
  /\ (exists s', Earlier.searchExpansionEffect h clock s = Normal s').
Proof.
  destruct (decide (trim (searchTerm s) = "")) as [Hb|Hb].
  { assert (He : String.eqb (trim (searchTerm s)) "" = true)
      by by apply String.eqb_eq.
    unfold App.searchExpansionEffect, Earlier.searchExpansionEffect.
    rewrite He. split; [|by eexists].
    split; [by intros [e [=]] | by intros [? _]]. }
  split.
  - rewrite (App_effect_nonblank h clock s Hb). cbn zeta.
    set (matches := filterAt _ 0 (notes s)).
    destruct (reduceM (App.expandFor h) ∅ matches) as [r|e] eqn:Hr.
    + split; [by intros [e [=]]|]. intros (_ & n & Hn & Hm & Hts). exfalso.
      destruct (reduceM_expandFor_dated h _ _ _ Hr n) as [ts Hts'].
      * apply elem_of_filterAt. apply list_elem_of_lookup_1 in Hn as [i Hi].
        exists i. split; [done|]. cbn beta.
        by rewrite Hm, (isToday_undated h _ n Hts).
      * congruence.
    + split; [|by eexists]. intros _. split; [done|].
      destruct (decide (Forall (λ n, is_Some (timestamp n)) matches))
        as [Hall|Hsome].
      * rewrite Forall_forall in Hall.
        destruct (reduceM_expandFor_total h matches ∅ Hall) as [r Hr'].
        congruence.
      * apply not_Forall_Exists in Hsome; [|apply _].
        apply Exists_exists in Hsome as (n & Hn & Hts).
        apply elem_of_filterAt in Hn as (i & Hn & Hm). cbn beta in Hm.
        apply andb_prop in Hm as [Hm _].
        apply list_elem_of_lookup_2 in Hn.
        exists n. split_and!; [done | done |].
        cbn beta in Hts. destruct (timestamp n) as [ts|] eqn:Hn'; [|done].
        destruct Hts. by eexists.
  - destruct (Earlier_effect_nonblank h clock s Hb) as (r & _ & ->).
    by eexists.
Qed.

Lemma length_pos_of_elem {A} (x : A) (l : list A) :
  x ∈ l -> (0 <? length l)%nat = true.
Proof. destruct l; [by intros ?%elem_of_nil | done]. Qed.

(** A past note that matches is among the matches of either revision. *)
Lemma matched_in_matches h clock s i n ts :
  notes s !! i = Some n -> App.matchesSearch (searchTerm s) n = true ->
  timestamp n = Some ts -> localDate h (toDate ts) <> localDate h (clock i) ->
  n ∈ filterAt (λ i n, App.matchesSearch (searchTerm s) n
                       && negb (App.isToday h (clock i) n)) 0 (notes s)
  /\ n ∈ filterAt (λ i n,
           App.matchesSearch (searchTerm s) n
           && match App.dateStringOpt h n with
              | Some d => negb (bool_decide (d = toDateString h (clock i)))
              | None => false
              end) 0 (notes s).
Proof.
  intros Hn Hm Hts Hday.
  assert (Ht : App.isToday h (clock i) n = false).
  { rewrite (isToday_dated h _ n ts Hts). by apply bool_decide_eq_false. }
  split; apply elem_of_filterAt; exists i; (split; [done|]); cbn beta;
    rewrite Hm; cbn [andb Nat.add].
  - by rewrite Ht.
  - rewrite <- earlier_isToday in Ht.
    unfold App.dateStringOpt, App.toDateOpt in *. rewrite Hts in *. cbn in *.
    by rewrite Ht.
Qed.

Lemma isExpanded_true s k :
  expandedItems s !! k = Some true -> Component.isExpanded s k = true.
Proof. unfold Component.isExpanded. by intros ->. Qed.

(** The effect that runs to completion opens the keys of a past match. *)
Lemma App_effect_opens h clock s k s' :
  trim (searchTerm s) <> "" ->
  MatchedKey h clock s k ->
  App.searchExpansionEffect h clock s = Normal s' ->
  Component.isExpanded s' k = true /\ showPastNotes s' = true.
Proof.
  intros Hb (i & n & ts & Hn & Hm & Hts & Hday & Hk).
  destruct (matched_in_matches h clock s i n ts Hn Hm Hts Hday) as [HA _].
  rewrite (App_effect_nonblank h clock s Hb). cbn zeta.
  rewrite (length_pos_of_elem _ _ HA).
  destruct (reduceM _ _ _) as [r|e] eqn:Hr; [|done]. intros [= <-].
  split; [|done]. apply isExpanded_true.
  destruct (reduceM_expandFor_complete h _ _ _ Hr) as [_ Hnew].
  destruct (Hnew n ts HA Hts) as [Hy Hym].
  change (expandedItems (setExpandedItems (λ prev, r ∪ prev)
            (setShowPastNotes true s)))
    with (r ∪ expandedItems s).
  apply lookup_union_Some_l. by destruct Hk as [->| ->].
Qed.

Lemma Earlier_effect_opens h clock s k :
  trim (searchTerm s) <> "" ->
  MatchedKey h clock s k ->
  exists s', Earlier.searchExpansionEffect h clock s = Normal s'
    /\ Component.isExpanded s' k = true /\ showPastNotes s' = true.
Proof.
  intros Hb (i & n & ts & Hn & Hm & Hts & Hday & Hk).
  destruct (matched_in_matches h clock s i n ts Hn Hm Hts Hday) as [_ HE].
  destruct (Earlier_effect_nonblank h clock s Hb) as (r & Hr & ->).
  eexists. split; [reflexivity|]. cbn zeta.
  rewrite (length_pos_of_elem _ _ HE). split; [|done].
  apply isExpanded_true.
  destruct (reduceM_expandFor_complete h _ _ _ Hr) as [_ Hnew].
  destruct (Hnew n ts HE Hts) as [Hy Hym].
  change (expandedItems (setExpandedItems (λ _, r) (setShowPastNotes true s)))
    with r.
  by destruct Hk as [->| ->].
Qed.

(** X8: when the term is not blank, the effect that runs to completion
    leaves the key of the year and the key of the month of every past note
    that matches the term open, whatever they were before, and the past
    section shown.  Both revisions; the earlier one always runs to
    completion. *)
Theorem searchExpansion_opens_every_match (h : Host) (clock : Readings)
    (s : AppState) (k : string) :
  trim (searchTerm s) <> "" ->
  MatchedKey h clock s k ->
  (forall s', App.searchExpansionEffect h clock s = Normal s' ->
     Component.isExpanded s' k = true /\ showPastNotes s' = true)
  /\ (exists s', Earlier.searchExpansionEffect h clock s = Normal s'
       /\ Component.isExpanded s' k = true /\ showPastNotes s' = true).
Proof.
  intros Hb Hk. split.
  - intros s'. by apply App_effect_opens.
  - by apply Earlier_effect_opens.
Qed.

Lemma searchExpansion_opens_every_match_witness :
  exists s',
    Earlier.searchExpansionEffect utcEnglish (Samples.steady Samples.now)
      Samples.searching = Normal s'
    /\ Component.isExpanded s' "2024-January" = true /\ showPastNotes s' = true.
Proof.
  refine (proj2 (searchExpansion_opens_every_match utcEnglish
                   (Samples.steady Samples.now)
                   Samples.searching "2024-January" _ _)).
  - vm_compute. discriminate.
  - exists 1%nat, Samples.jan2024, (fromMillis 1705764600000).
    split_and!; [vm_compute; reflexivity | vm_compute; reflexivity | reflexivity
                 | vm_compute; discriminate | right; vm_compute; reflexivity].
Defined.

Lemma frame_of (s s' : AppState) f b :
  s' = setExpandedItems f (setShowPastNotes b s) ->
  s' = setExpandedItems (λ _, expandedItems s')
         (setShowPastNotes (showPastNotes s') s).
Proof. intros ->. by destruct s. Qed.

Lemma frame_refl (s : AppState) :
  s = setExpandedItems (λ prev, prev) (setShowPastNotes (showPastNotes s) s).
Proof. by destruct s. Qed.

Lemma Framed_steps (s : AppState) (c : bool) :
  let s1 := if c then setShowPastNotes true s else s in
  (forall f, Framed s (setExpandedItems f s1)) /\ Framed s s1.
Proof.
  intros s1. split; [intros f|]; (split; [|by destruct c; cbn; auto]).
  - destruct c; subst s1.
    + by apply (frame_of s _ f true).
    + apply (frame_of s _ f (showPastNotes s)). by destruct s.
  - destruct c; subst s1.
    + apply (frame_of s _ (λ prev, prev) true). by destruct s.
    + apply (frame_of s _ (λ prev, prev) (showPastNotes s)), frame_refl.
Qed.

Lemma effects_Framed h clock s :
  (forall s', App.searchExpansionEffect h clock s = Normal s' -> Framed s s')
  /\ (exists s', Earlier.searchExpansionEffect h clock s = Normal s'
                 /\ Framed s s').
Proof.
  destruct (decide (trim (searchTerm s) = "")) as [Hb|Hb].
  - assert (He : String.eqb (trim (searchTerm s)) "" = true)
      by by apply String.eqb_eq.
    unfold App.searchExpansionEffect, Earlier.searchExpansionEffect.
    rewrite He. split.
    + intros s' [= <-]. apply (Framed_steps s false).
    + eexists. split; [done|]. apply (proj1 (Framed_steps s false)).
  - split.
    + rewrite (App_effect_nonblank h clock s Hb). cbn zeta.
      destruct (reduceM _ _ _); [|done]. intros s' [= <-]. apply Framed_steps.
    + destruct (Earlier_effect_nonblank h clock s Hb) as (r & _ & ->).
      eexists. split; [done|]. apply Framed_steps.
Qed.

Lemma Framed_reads s s' :
  Framed s s' -> notes s' = notes s /\ searchTerm s' = searchTerm s.
Proof. intros [-> _]. by destruct s. Qed.

(** X9: the search-expansion effect writes two cells only, the expansion
    mapping and the flag of the past section, and it never lowers the flag;
    on a blank term the effect of [src/App.jsx] changes nothing and that of
    the earlier revision empties the mapping. *)
Theorem searchExpansion_writes_two_cells (h : Host) (clock : Readings)
    (s : AppState) :
  (forall s', App.searchExpansionEffect h clock s = Normal s' -> Framed s s')
  /\ (exists s', Earlier.searchExpansionEffect h clock s = Normal s'
                 /\ Framed s s'
                 /\ (trim (searchTerm s) = "" -> expandedItems s' = ∅))
  /\ (trim (searchTerm s) = "" -> App.searchExpansionEffect h clock s = Normal s).
Proof.
  destruct (effects_Framed h clock s) as [HA (s' & HE & HF)].
  split_and!; [exact HA | |].
  - exists s'. split_and!; [exact HE | exact HF |].
    intros Hb.
    assert (He : String.eqb (trim (searchTerm s)) "" = true)
      by by apply String.eqb_eq.
    unfold Earlier.searchExpansionEffect in HE. rewrite He in HE.
    by injection HE as <-.
  - intros Hb.
    assert (He : String.eqb (trim (searchTerm s)) "" = true)
      by by apply String.eqb_eq.
    unfold App.searchExpansionEffect. by rewrite He.
Qed.

(** A dated past note is rendered once the section, its year and its month
    are open. *)
Lemma past_note_on_screen h s' g n ts :
  timestamp n = Some ts ->
  n ∈ pastRaw g ->
  structured g = foldl (place h) ∅ (pastRaw g) ->
  showPastNotes s' = true ->
  Component.isExpanded s' (yearKey h (toDate ts)) = true ->
  Component.isExpanded s' (yearMonthKey h (toDate ts)) = true ->
  OnScreen s' g n.
Proof.
  intros Hts Hp Hst Hshow Hy Hym. right.
  exists (numberToString (getFullYear h (toDate ts))),
    (toLocaleMonthLong h (toDate ts)),
    (numberToString (getDate h (toDate ts))).
  split.
  - rewrite Hst. apply elem_of_bucket_foldl. split; [done|].
    unfold bucketKeyOf. by rewrite Hts.
  - unfold Component.monthShown. unfold yearKey in Hy. unfold yearMonthKey in Hym.
    by rewrite (length_pos_of_elem _ _ Hp), Hshow, Hy, Hym.
Qed.

(** X10: when the term is not blank, the effect of [src/App.jsx] runs to
    completion, and every reading of the clock in the effect and in the
    render that follows falls on one local day, every note that matches the
    term is rendered by that render: under "Today", or under its day with
    the past section, its year and its month open.  In the earlier revision
    the same holds of every matching note that has a timestamp. *)
Theorem search_reveals_matching_notes (h : Host)
    (effectClock renderClock : Readings) (now : Date) (s : AppState) (n : Note) :
  trim (searchTerm s) <> "" ->
  n ∈ notes s ->
  App.matchesSearch (searchTerm s) n = true ->
  SameDay h effectClock now ->
  (SameDay h renderClock now ->
   forall s', App.searchExpansionEffect h effectClock s = Normal s' ->
     exists g, App.grouping h renderClock (notes s') (searchTerm s') = Normal g
               /\ OnScreen s' g n)
  /\ (is_Some (timestamp n) ->
      exists s' g,
        Earlier.searchExpansionEffect h effectClock s = Normal s'
        /\ Earlier.grouping h now (notes s') (searchTerm s') = Normal g
        /\ OnScreen s' g n).
Proof.
  intros Hb Hn Hm Heday.
  pose proof Hn as Hi. apply list_elem_of_lookup_1 in Hi as [i Hi].
  split.
  - intros Hrday s' Heff.
    destruct (Framed_reads s s') as [-> ->].
    { by apply (proj1 (effects_Framed h effectClock s)). }
    eexists. split; [by apply (App_grouping_SameDay h renderClock now)|].
    destruct (App.isToday h now n) eqn:Htoday.
    { left. cbn [today]. apply elem_of_filter. split; [|done].
      by apply elem_of_filter. }
    assert (HA : n ∈ filterAt (λ i n, App.matchesSearch (searchTerm s) n
                        && negb (App.isToday h (effectClock i) n)) 0 (notes s)).
    { apply elem_of_filterAt. exists i. split; [done|]. cbn beta.
      by rewrite Hm, (isToday_same_day h _ now n (Heday _)), Htoday. }
    pose proof Heff as Heff'.
    rewrite (App_effect_nonblank h effectClock s Hb) in Heff'. cbn zeta in Heff'.
    destruct (reduceM _ _ _) as [r|e] eqn:Hr; [|done].
    destruct (reduceM_expandFor_dated h _ _ _ Hr n HA) as [ts Hts].
    assert (Hday : localDate h (toDate ts) <> localDate h now).
    { rewrite (isToday_dated h now n ts Hts) in Htoday.
      by apply bool_decide_eq_false in Htoday. }
    assert (Hk : forall k,
              k = yearKey h (toDate ts) \/ k = yearMonthKey h (toDate ts) ->
              Component.isExpanded s' k = true /\ showPastNotes s' = true).
    { intros k Hk. apply (App_effect_opens h effectClock s k s' Hb); [|done].
      exists i, n, ts. by rewrite (Heday i). }
    apply (past_note_on_screen h s' _ n ts Hts).
    + cbn [pastRaw]. apply elem_of_filter. split; [by apply elem_of_filter|].
      by rewrite Htoday.
    + done.
    + apply (Hk (yearKey h (toDate ts))). by left.
    + apply (Hk (yearKey h (toDate ts))). by left.
    + apply (Hk (yearMonthKey h (toDate ts))). by right.
  - intros [ts Hts].
    destruct (proj2 (effects_Framed h effectClock s)) as (s' & Heff & Hfr).
    exists s'. eexists. split; [exact Heff|].
    destruct (Framed_reads s s' Hfr) as [-> ->].
    split; [apply Earlier_grouping_Normal|].
    destruct (App.isToday h now n) eqn:Htoday.
    { left. cbn [today]. apply elem_of_filter.
      split; [by apply elem_of_filter | cbn beta; by rewrite earlier_isToday]. }
    assert (Hday : localDate h (toDate ts) <> localDate h now).
    { rewrite (isToday_dated h now n ts Hts) in Htoday.
      by apply bool_decide_eq_false in Htoday. }
    assert (Hk : forall k,
      k = yearKey h (toDate ts) \/ k = yearMonthKey h (toDate ts) ->
      Component.isExpanded s' k = true /\ showPastNotes s' = true).
    { intros k Hk.
      destruct (Earlier_effect_opens h effectClock s k Hb) as (s2 & Hs2 & H1 & H2).
      - exists i, n, ts. by rewrite (Heday i).
      - assert (s2 = s') as -> by congruence. done. }
    apply (past_note_on_screen h _ _ n ts Hts).
    + cbn [pastRaw]. rewrite filter_filter. apply elem_of_filter.
      split; [done|]. rewrite Hm. cbn [andb].
      rewrite <- earlier_isToday in Htoday.
      unfold App.dateStringOpt, App.toDateOpt in *. rewrite Hts in *.
      cbn in *. by rewrite Htoday.
    + done.
    + apply (Hk (yearKey h (toDate ts))). by left.
    + apply (Hk (yearKey h (toDate ts))). by left.
    + apply (Hk (yearMonthKey h (toDate ts))). by right.
Qed.

Lemma search_reveals_matching_notes_witness :
  exists s' g,
    App.searchExpansionEffect utcEnglish (Samples.steady Samples.now)
      Samples.searching = Normal s'
    /\ App.grouping utcEnglish (Samples.steady Samples.now)
         (notes s') (searchTerm s') = Normal g
    /\ OnScreen s' g Samples.jan2024.
Proof.
  destruct (completes_Normal
              (App.searchExpansionEffect utcEnglish (Samples.steady Samples.now)
                 Samples.searching)) as [s' Hs']; [by vm_compute|].
  destruct (proj1 (search_reveals_matching_notes utcEnglish
                     (Samples.steady Samples.now) (Samples.steady Samples.now)
                     Samples.now Samples.searching Samples.jan2024
                     ltac:(vm_compute; discriminate)
                     ltac:(apply (list_elem_of_lookup_2 _ 1%nat);
                           vm_compute; reflexivity)
                     ltac:(vm_compute; reflexivity)
                     ltac:(by intros i))
              ltac:(by intros i) s' Hs') as (g & Hg & Hon).
  by exists s', g.
Defined.

End RevealFacts.

(** ** The handlers and the store, end to end *)

Module ActionFacts.
Import Calendar Notes JS Store GroupingSpec HandlersSpec ViewSpec.
Import GroupingFacts StoreFacts HandlersFacts SnapshotFacts ViewFacts RevealFacts.

(** X11: the snapshot listener leaves the notes newest first (a note
    without a timestamp sorting as the epoch), one note for each document
    of the collection, with distinct ids, and clears the database error;
    its error callback records a message and leaves the notes as they
    were. *)
Theorem snapshot_listener_orders_notes (c : gmap string NoteDoc)
    (code message : string) (s : AppState) :
  let s' := Component.onSnapshotNext c s in
  NewestFirst (notes s')
  /\ NoDup (id <$> notes s')
  /\ length (notes s') = size c
  /\ (forall n, n ∈ notes s' <-> c !! id n = Some (docOf n))
  /\ firestoreError s' = None
  /\ notes (Component.onSnapshotError code message s) = notes s
  /\ is_Some (firestoreError (Component.onSnapshotError code message s)).
Proof.
  cbn zeta. change (notes (Component.onSnapshotNext c s)) with (snapshotNotes c).
  split_and!.
  - apply NewestFirst_snapshotNotes.
  - rewrite snapshotNotes_ids. apply NoDup_fst_map_to_list.
  - rewrite <- (length_fmap id), snapshotNotes_ids, length_fmap.
    apply length_map_to_list.
  - apply elem_of_snapshotNotes.
  - done.
  - unfold Component.onSnapshotError. by destruct (String.eqb _ _).
  - unfold Component.onSnapshotError. by destruct (String.eqb _ _); eexists.
Qed.

(** X12: a note counts as of today exactly when it has a timestamp whose
    local day number, the whole days of local time since the epoch, is that
    of the clock reading; the guarded test of the earlier revision is the
    same test. *)
Theorem today_is_the_local_day (h : Host) (now : Date) (n : Note) :
  (App.isToday h now n = true
   <-> exists ts, timestamp n = Some ts
                  /\ (getTime (toDate ts) + tzOffsetMinutes h (getTime (toDate ts)) * 60000)
                       / 86400000
                     = (getTime now + tzOffsetMinutes h (getTime now) * 60000)
                       / 86400000)
  /\ Earlier.guardedDateTest h (λ d, bool_decide (d = toDateString h now)) n
     = Normal (App.isToday h now n).
Proof.
  split.
  - destruct (timestamp n) as [ts|] eqn:Hts.
    + rewrite (isToday_dated h now n ts Hts), bool_decide_eq_true. split.
      * intros Hd. exists ts. split; [done|]. by apply CalendarFacts.civil_inj.
      * intros (ts' & [= <-] & Hd). unfold localDate, dayNumber, localTime, msPerDay.
        by rewrite Hd.
    + rewrite (isToday_undated h now n Hts). split; [done|]. by intros (ts & [=] & _).
  - by rewrite guardedDateTest_Normal, earlier_isToday.
Qed.

Lemma expandedItems_toggleExpand key s :
  expandedItems (App.toggleExpand key s)
  = <[key := negb (Component.isExpanded s key)]> (expandedItems s).
Proof. reflexivity. Qed.

(** X13: [toggleExpand] flips the key it is given, read as a condition,
    and leaves every other key and every other cell; toggling twice gives
    back what the render shows. *)
Theorem toggleExpand_flips_one_key (key : string) (s : AppState) :
  let s' := App.toggleExpand key s in
  Component.isExpanded s' key = negb (Component.isExpanded s key)
  /\ (forall k, k <> key -> expandedItems s' !! k = expandedItems s !! k)
  /\ (forall k, Component.isExpanded (App.toggleExpand key s') k
                = Component.isExpanded s k)
  /\ s' = setExpandedItems (λ _, expandedItems s') s.
Proof.
  cbn zeta. split_and!.
  - unfold Component.isExpanded at 1.
    by rewrite expandedItems_toggleExpand, lookup_insert_eq.
  - intros k Hk. by rewrite expandedItems_toggleExpand, lookup_insert_ne.
  - intros k. unfold Component.isExpanded at 1.
    rewrite !expandedItems_toggleExpand.
    destruct (decide (key = k)) as [->|Hk].
    + rewrite lookup_insert_eq. cbn. unfold Component.isExpanded at 1.
      rewrite expandedItems_toggleExpand, lookup_insert_eq. cbn.
      by rewrite negb_involutive.
    + by rewrite !lookup_insert_ne.
  - by destruct s.
Qed.

Lemma deleteAt_deleteAt db ref : deleteAt (deleteAt db ref) ref = deleteAt db ref.
Proof.
  unfold deleteAt. rewrite alter_alter_eq. apply alter_ext. intros c _.
  cbn. apply delete_delete_eq.
Qed.

(** X14: with a user signed in [deleteNote] removes the document of that
    id from the user's collection and touches no other document; the notes
    the listener then stores are the notes of before without that id;
    deleting again changes nothing more.  The earlier revision makes the
    same call, and neither makes any call with no user. *)
Theorem deleteNote_removes_one_document (s : AppState) (u : User)
    (docId : string) (db : Firestore) :
  user s = Some u ->
  let db' := run db (App.deleteNote s docId) in
  lookupDoc db' (notesPath u) docId = None
  /\ (forall path docId',
        (path, docId') <> (notesPath u, docId) ->
        lookupDoc db' path docId' = lookupDoc db path docId')
  /\ (forall n,
        n ∈ snapshotNotes (collectionOf db' (notesPath u))
        <-> n ∈ snapshotNotes (collectionOf db (notesPath u)) /\ id n <> docId)
  /\ run db' (App.deleteNote s docId) = db'
  /\ EarlierComponent.deleteNote s docId = App.deleteNote s docId
  /\ (forall s0, user s0 = None -> App.deleteNote s0 docId = []).
Proof.
  intros Hu. cbn zeta. unfold App.deleteNote, EarlierComponent.deleteNote.
  rewrite Hu. cbn [run foldl apply].
  assert (Hl : forall path docId',
            lookupDoc (deleteAt db (notesPath u, docId)) path docId'
            = if decide ((notesPath u, docId) = (path, docId')) then None
              else lookupDoc db path docId') by (intros; apply lookupDoc_deleteAt).
  split_and!.
  - by rewrite Hl, decide_True.
  - intros path docId' Hne. rewrite Hl, decide_False; [done|congruence].
  - intros n. rewrite !elem_of_snapshotNotes.
    change (collectionOf ?d ?p !! ?i) with (lookupDoc d p i). rewrite Hl.
    case_decide as Hd.
    + injection Hd as Hd. split; [done|]. intros [_ Hne]. congruence.
    + split; [|by intros [? _]]. intros Hn. split; [done|]. congruence.
  - apply deleteAt_deleteAt.
  - done.
  - by intros s0 ->.
Qed.

Lemma deleteNote_removes_one_document_witness :
  lookupDoc (run Samples.db (App.deleteNote Samples.synced "a"))
    "users/alice/notes" "a" = None
  /\ lookupDoc (run Samples.db (App.deleteNote Samples.synced "a"))
       "users/alice/notes" "b"
     = lookupDoc Samples.db "users/alice/notes" "b".
Proof.
  destruct (deleteNote_removes_one_document Samples.synced Samples.alice "a"
              Samples.db eq_refl) as (H1 & H2 & _).
  split; [exact H1|]. apply H2. discriminate.
Defined.

Lemma elem_of_refs (u : User) (l : list Note) (path docId : string) :
  (path, docId) ∈ (λ n, (notesPath u, id n)) <$> l
  <-> path = notesPath u /\ docId ∈ id <$> l.
Proof.
  rewrite !list_elem_of_fmap. split.
  - intros (n & [= -> ->] & Hn). split; [done|]. by exists n.
  - intros (-> & n & -> & Hn). by exists n.
Qed.

Lemma collectionOf_eq (db db' : Firestore) (path path' : string) :
  (forall docId, lookupDoc db' path' docId = lookupDoc db path docId) ->
  collectionOf db' path' = collectionOf db path.
Proof. intros H. apply map_eq. exact H. Qed.

Lemma snapshotNotes_empty : snapshotNotes ∅ = [].
Proof. unfold snapshotNotes. by rewrite map_to_list_empty. Qed.

(** X15: confirming "Delete All" commits one batch that removes from the
    user's collection the documents of the notes held in the state and no
    other, and leaves every other collection; the dialog closes once the
    commit has resolved and stays open, the state as it was, when the
    commit is rejected.  When the notes are the snapshot of the collection,
    the collection is empty after the batch and so is the next snapshot.
    In the earlier revision the documents are read from the store at that
    moment, so the collection is empty after the batch whatever the state
    holds, and the dialog closes whatever the store answers. *)
Theorem delete_all_empties_the_collection (h : Host) (answer : Answer)
    (db : Firestore) (s : AppState) (u : User) :
  user s = Some u ->
  showDeleteConfirm s = Some SelAll ->
  let db' := run db (App.handleConfirmDelete h answer s).2 in
  (forall docId,
     lookupDoc db' (notesPath u) docId
     = if decide (docId ∈ id <$> notes s) then None
       else lookupDoc db (notesPath u) docId)
  /\ (forall path, path <> notesPath u ->
        collectionOf db' path = collectionOf db path)
  /\ showDeleteConfirm (App.handleConfirmDelete h Resolved s).1 = None
  /\ (notes s <> [] -> (App.handleConfirmDelete h Rejected s).1 = s)
  /\ (notes s = snapshotNotes (collectionOf db (notesPath u)) ->
      collectionOf db' (notesPath u) = ∅
      /\ snapshotNotes (collectionOf db' (notesPath u)) = [])
  /\ collectionOf
       (run db (EarlierComponent.handleConfirmDeleteAll Resolved db s).2)
       (notesPath u)
     = ∅
  /\ showDeleteConfirm (EarlierComponent.handleConfirmDeleteAll answer db s).1
     = None.
Proof.
  intros Hu Hsel. cbn zeta.
  rewrite (run_confirmDelete h answer s u SelAll db Hu Hsel).
  cbn [App.toDelete].
  assert (Hl : forall docId,
     lookupDoc (foldl deleteAt db ((λ n, (notesPath u, id n)) <$> notes s))
       (notesPath u) docId
     = if decide (docId ∈ id <$> notes s) then None
       else lookupDoc db (notesPath u) docId).
  { intros docId. rewrite lookupDoc_batch.
    destruct (decide (docId ∈ id <$> notes s)) as [Hin|Hin].
    - rewrite decide_True; [done|]. by apply elem_of_refs.
    - rewrite decide_False; [done|]. rewrite elem_of_refs. tauto. }
  split_and!.
  - exact Hl.
  - intros path Hp. apply collectionOf_eq. intros docId.
    rewrite lookupDoc_batch, decide_False; [done|]. rewrite elem_of_refs. tauto.
  - unfold App.handleConfirmDelete. rewrite Hu, Hsel.
    by destruct (_ =? _)%nat.
  - intros Hne. unfold App.handleConfirmDelete. rewrite Hu, Hsel.
    cbn [App.toDelete]. by destruct (notes s).
  - intros Hn.
    assert (He : collectionOf
              (foldl deleteAt db ((λ n, (notesPath u, id n)) <$> notes s))
              (notesPath u) = ∅).
    { apply map_eq. intros docId. rewrite lookup_empty.
      change (collectionOf ?d ?p !! ?i) with (lookupDoc d p i). rewrite Hl.
      case_decide as Hin; [done|].
      destruct (lookupDoc db (notesPath u) docId) as [d|] eqn:Hd; [|done].
      destruct Hin. rewrite Hn.
      apply (list_elem_of_fmap_2' id _
               {| id := docId; text := docText d; timestamp := docTimestamp d |});
        [|done].
      apply elem_of_snapshotNotes. by destruct d. }
    split; [exact He|]. by rewrite He, snapshotNotes_empty.
  - unfold EarlierComponent.handleConfirmDeleteAll. rewrite Hu.
    cbn [snd run foldl apply]. apply map_eq. intros docId.
    rewrite lookup_empty.
    change (collectionOf ?d ?p !! ?i) with (lookupDoc d p i).
    rewrite lookupDoc_batch.
    destruct (lookupDoc db (notesPath u) docId) as [d|] eqn:Hd.
    + rewrite decide_True; [done|]. apply list_elem_of_fmap.
      exists (docId, d). split; [done|]. by apply elem_of_map_to_list.
    + by case_decide.
  - unfold EarlierComponent.handleConfirmDeleteAll. rewrite Hu.
    by destruct answer.
Qed.

Lemma delete_all_empties_the_collection_witness :
  let s := setShowDeleteConfirm (Some SelAll) Samples.synced in
  collectionOf (run Samples.db (App.handleConfirmDelete utcEnglish Resolved s).2)
    "users/alice/notes" = ∅
  /\ showDeleteConfirm (App.handleConfirmDelete utcEnglish Resolved s).1 = None
  /\ (App.handleConfirmDelete utcEnglish Rejected s).1 = s.
Proof.
  cbn zeta.
  destruct (delete_all_empties_the_collection utcEnglish Resolved Samples.db
              (setShowDeleteConfirm (Some SelAll) Samples.synced) Samples.alice
              eq_refl eq_refl) as (_ & _ & Hclosed & Hopen & Hempty & _).
  split; [exact (proj1 (Hempty eq_refl))|]. split; [exact Hclosed|].
  apply Hopen. vm_compute. discriminate.
Defined.

Lemma apply_update_same db path docId d :
  lookupDoc db path docId = Some d ->
  apply db (UpdateDoc path docId (docText d)) = db.
Proof.
  intros Hd. cbn [apply]. apply alter_id. intros c Hc.
  apply alter_id. intros d' Hd'.
  unfold lookupDoc, collectionOf in Hd. rewrite Hc in Hd. cbn in Hd.
  assert (d' = d) as -> by congruence. by destruct d.
Qed.

(** X16: opening a note for editing and saving it unchanged writes the
    text the document already has, so the store is as it was; the editing
    state is cleared once the write has resolved, and is left as it is when
    the write is rejected.  The note is one the store holds. *)
Theorem edit_saved_unchanged_keeps_store (answer : Answer) (s : AppState)
    (u : User) (n : Note) (db : Firestore) :
  user s = Some u ->
  lookupDoc db (notesPath u) (id n) = Some (docOf n) ->
  let s1 := App.startEditing n s in
  (App.saveEdit answer s1).2 = [UpdateDoc (notesPath u) (id n) (text n)]
  /\ run db (App.saveEdit answer s1).2 = db
  /\ (App.saveEdit Resolved s1).1 = setEditText "" (setEditingNote None s)
  /\ (App.saveEdit Rejected s1).1 = s1
  /\ Earlier.saveEdit answer s1 = App.saveEdit answer s1.
Proof.
  intros Hu Hd. cbn zeta.
  assert (Hreq : (App.saveEdit answer (App.startEditing n s)).2
                 = [UpdateDoc (notesPath u) (id n) (text n)]).
  { unfold App.saveEdit, App.startEditing. cbn. by rewrite Hu. }
  split_and!.
  - exact Hreq.
  - rewrite Hreq. cbn [run foldl]. by apply (apply_update_same db _ _ (docOf n)).
  - unfold App.saveEdit, App.startEditing. cbn. rewrite Hu. by destruct s.
  - unfold App.saveEdit, App.startEditing. cbn. by rewrite Hu.
  - unfold Earlier.saveEdit, App.saveEdit, App.startEditing. cbn. by rewrite Hu.
Qed.

Lemma edit_saved_unchanged_keeps_store_witness :
  run Samples.db
    (App.saveEdit Resolved (App.startEditing Samples.nov2023 Samples.synced)).2
  = Samples.db
  /\ (App.saveEdit Resolved (App.startEditing Samples.nov2023 Samples.synced)).1
     = setEditText "" (setEditingNote None Samples.synced)
  /\ (App.saveEdit Rejected (App.startEditing Samples.nov2023 Samples.synced)).1
     = App.startEditing Samples.nov2023 Samples.synced.
Proof.
  destruct (edit_saved_unchanged_keeps_store Resolved Samples.synced
              Samples.alice Samples.nov2023 Samples.db eq_refl)
    as (_ & H1 & H2 & H3 & _).
  - vm_compute. reflexivity.
  - exact (conj H1 (conj H2 H3)).
Defined.

(** X17: a note that was just added is, once the listener has stored the
    next snapshot, among the notes with the trimmed text and the stamp of
    the client clock, under an id that was not in use; and a render whose
    readings of the clock all fall on the local day of that stamp lists it
    under "Today" exactly when it matches the search term. *)
Theorem new_note_shows_under_today (h : Host) (clk : Clocks) (clock : Readings)
    (s : AppState) (u : User) (text0 : string) (db : Firestore) :
  user s = Some u ->
  trim text0 <> "" ->
  SameDay h clock {| getTime := clientNow clk |} ->
  let db' := run db (App.addNote clk s text0) in
  let s' := Component.onSnapshotNext (collectionOf db' (notesPath u)) s in
  exists n g,
    n ∈ notes s'
    /\ text n = trim text0
    /\ timestamp n = Some (Timestamp_now clk)
    /\ lookupDoc db (notesPath u) (id n) = None
    /\ length (notes s') = S (size (collectionOf db (notesPath u)))
    /\ App.grouping h clock (notes s') (searchTerm s') = Normal g
    /\ (n ∈ today g <-> App.matchesSearch (searchTerm s) n = true)
    /\ (forall y m day, n ∉ bucket (structured g) y m day).
Proof.
  intros Hu Ht Hday. cbn zeta.
  assert (Hreq : App.addNote clk s text0
                 = [AddDoc (notesPath u)
                      {| docText := trim text0;
                         docTimestamp := Some (Timestamp_now clk) |}]).
  { unfold App.addNote. rewrite Hu.
    destruct (truthy (trim text0)) eqn:Htr; [done|].
    by apply truthy_trim_false in Htr. }
  rewrite Hreq. cbn [run foldl].
  set (data := {| docText := trim text0; docTimestamp := Some (Timestamp_now clk) |}).
  destruct (collectionOf_add db (notesPath u) data) as (Hfresh & Hc & _).
  rewrite Hc.
  set (c := collectionOf db (notesPath u)) in *.
  set (n := {| id := autoId c; text := trim text0;
               timestamp := Some (Timestamp_now clk) |}).
  change (notes (Component.onSnapshotNext ?c' s)) with (snapshotNotes c').
  change (searchTerm (Component.onSnapshotNext ?c' s)) with (searchTerm s).
  assert (Hn : n ∈ snapshotNotes (<[autoId c := data]> c)).
  { apply elem_of_snapshotNotes. by rewrite lookup_insert_eq. }
  set (now := {| getTime := clientNow clk |}) in *.
  assert (Htoday : App.isToday h now n = true).
  { rewrite (isToday_dated h now n (Timestamp_now clk) eq_refl).
    apply bool_decide_eq_true. unfold Timestamp_now, toDate.
    by rewrite toMillis_fromMillis. }
  exists n. eexists. rewrite (App_grouping_SameDay h clock now) by done.
  split_and!; [exact Hn | done | done | exact Hfresh | | reflexivity | | ].
  - rewrite <- (length_fmap id), snapshotNotes_ids, length_fmap, length_map_to_list.
    by rewrite map_size_insert_None.
  - cbn [today]. rewrite !elem_of_filter. tauto.
  - intros y m day. cbn [structured]. rewrite elem_of_bucket_foldl.
    intros [Hp _]. apply elem_of_filter in Hp as [_ Hp]. by rewrite Htoday in Hp.
Qed.

Lemma new_note_shows_under_today_witness :
  exists n g,
    n ∈ notes (Component.onSnapshotNext
                 (collectionOf (run Samples.db
                    (App.addNote Samples.clocks Samples.synced " hello "))
                    "users/alice/notes") Samples.synced)
    /\ text n = "hello"
    /\ App.grouping utcEnglish (Samples.steady Samples.now)
         (notes (Component.onSnapshotNext
                 (collectionOf (run Samples.db
                    (App.addNote Samples.clocks Samples.synced " hello "))
                    "users/alice/notes") Samples.synced)) "" = Normal g
    /\ (n ∈ today g <-> App.matchesSearch "" n = true).
Proof.
  destruct (new_note_shows_under_today utcEnglish Samples.clocks
              (Samples.steady Samples.now)
              Samples.synced Samples.alice " hello " Samples.db)
    as (n & g & H1 & H2 & _ & _ & _ & H3 & H4 & _).
  - reflexivity.
  - vm_compute. discriminate.
  - intros i. vm_compute. reflexivity.
  - exists n, g. split_and!; [exact H1 | exact H2 | exact H3 | exact H4].
Defined.

End ActionFacts.

(** ** The microphone button and the recognition callbacks *)

Module SpeechFacts.
Import Calendar Notes JS Component.

Lemma truthy_true (t : string) : t <> "" -> truthy t = true.
Proof. by destruct t. Qed.

Lemma addNote_calls clk s t r :
  r ∈ App.addNote clk s t -> exists path data, r = AddDoc path data.
Proof.
  unfold App.addNote. destruct (user s) as [u|]; [|by intros ?%elem_of_nil].
  destruct (truthy (trim t)); [|by intros ?%elem_of_nil].
  intros ->%list_elem_of_singleton. by eexists _, _.
Qed.

(** One event, with a speech error on record. *)
Lemma speechStep_with_error clk s ev :
  micError s <> "" ->
  micError (speechStep clk s ev).1 <> ""
  /\ (RecognitionStart ∉ (speechStep clk s ev).2)
  /\ (RecognitionStop ∉ (speechStep clk s ev).2)
  /\ (isRecording s = false -> isRecording (speechStep clk s ev).1 = false).
Proof.
  intros He. pose proof (truthy_true _ He) as Ht.
  destruct ev as [| |t|e|]; cbn [speechStep].
  - unfold App.handleRecordStart. rewrite Ht. cbn.
    split_and!; [done | | | done]; by intros ?%elem_of_nil.
  - unfold App.handleRecordStop. rewrite Ht. cbn.
    split_and!; [done | | | done]; by intros ?%elem_of_nil.
  - cbn. split_and!; [done | | | done]; by intros ?%elem_of_nil.
  - cbn. split_and!; [done | | | done]; by intros ?%elem_of_nil.
  - unfold onend. cbn [fst snd].
    split_and!; [done | | | done];
      (destruct (truthy (trim (transcriptRef s))); [|by intros ?%elem_of_nil]);
      intros (? & ? & [=])%addNote_calls.
Qed.

Lemma speechRun_cons clk s ev evs :
  speechRun clk s (ev :: evs)
  = ((speechRun clk (speechStep clk s ev).1 evs).1,
     (speechStep clk s ev).2 ++ (speechRun clk (speechStep clk s ev).1 evs).2).
Proof.
  cbn [speechRun]. destruct (speechStep clk s ev) as [s1 r1]. cbn [fst snd].
  by destruct (speechRun clk s1 evs).
Qed.

(** X18: once a speech error is on record, no sequence of presses,
    releases and recognition callbacks clears it or asks the speech
    capability to start or stop, and the recording flag, once down, stays
    down; a browser without speech recognition is in that state from the
    set-up effect on. *)
Theorem speech_error_is_sticky (clk : Clocks) (evs : list SpeechEvent)
    (s : AppState) :
  micError s <> "" ->
  micError (speechRun clk s evs).1 <> ""
  /\ (RecognitionStart ∉ (speechRun clk s evs).2)
  /\ (RecognitionStop ∉ (speechRun clk s evs).2)
  /\ (isRecording s = false -> isRecording (speechRun clk s evs).1 = false)
  /\ (forall e s0, micError (onerror e s0) <> "")
  /\ (forall s0, micError (speechSetupEffect false s0) <> "").
Proof.
  intros He.
  assert (H : micError (speechRun clk s evs).1 <> ""
    /\ (RecognitionStart ∉ (speechRun clk s evs).2)
    /\ (RecognitionStop ∉ (speechRun clk s evs).2)
    /\ (isRecording s = false -> isRecording (speechRun clk s evs).1 = false)).
  { revert s He. induction evs as [|ev evs IH]; intros s He.
    - cbn. split_and!; [done | | | done]; by intros ?%elem_of_nil.
    - rewrite speechRun_cons. cbn [fst snd].
      destruct (speechStep_with_error clk s ev He) as (He1 & Hs1 & Hp1 & Hr1).
      destruct (IH _ He1) as (He2 & Hs2 & Hp2 & Hr2).
      split_and!; [done | | | auto].
      + rewrite elem_of_app. tauto.
      + rewrite elem_of_app. tauto. }
  destruct H as (H1 & H2 & H3 & H4). split_and!; try done.
Qed.

Lemma speech_error_is_sticky_witness :
  RecognitionStart
  ∉ (speechRun Samples.clocks (onerror "no-speech" Samples.recording)
       [Pressed; Released; Pressed; Heard "again"; Ended]).2.
Proof.
  refine (proj1 (proj2 (speech_error_is_sticky Samples.clocks
            [Pressed; Released; Pressed; Heard "again"; Ended]
            (onerror "no-speech" Samples.recording) _))).
  vm_compute. discriminate.
Defined.

Lemma handleRecordStart_ready s r :
  micError s = "" -> recognitionRef s = Some r ->
  App.handleRecordStart s
  = (setIsRecording true (setTranscript "" s), [RecognitionStart]).
Proof.
  intros He Hr. unfold App.handleRecordStart. rewrite He, Hr.
  by rewrite bool_decide_true by by eexists.
Qed.

Lemma handleRecordStop_recording s r :
  micError s = "" -> recognitionRef s = Some r -> isRecording s = true ->
  App.handleRecordStop s = (s, [RecognitionStop]).
Proof.
  intros He Hr Hrec. unfold App.handleRecordStop. rewrite He, Hr, Hrec.
  by rewrite bool_decide_true by by eexists.
Qed.

(** X19: with no error on record and a recognition object in place, a
    session in which a transcript is heard asks for one start and one stop
    and then makes the call of [addNote] on that transcript, whether the
    result arrives before or after the release; a session in which nothing
    is heard adds nothing, whatever the buffer held before the press; the
    recording flag is down at the end.  The end callback does not clear the
    buffer: the press does. *)
Theorem speech_session_saves_what_was_heard (clk : Clocks) (s : AppState)
    (t : string) :
  micError s = "" ->
  is_Some (recognitionRef s) ->
  (speechRun clk s [Pressed; Heard t; Released; Ended]).2
    = [RecognitionStart; RecognitionStop] ++ App.addNote clk s t
  /\ (speechRun clk s [Pressed; Released; Heard t; Ended]).2
     = [RecognitionStart; RecognitionStop] ++ App.addNote clk s t
  /\ (speechRun clk s [Pressed; Released; Ended]).2
     = [RecognitionStart; RecognitionStop]
  /\ (speechRun clk s [Pressed; Released; Ended]).1
     = setIsRecording false (setTranscript "" s)
  /\ isRecording (speechRun clk s [Pressed; Heard t; Released; Ended]).1 = false
  /\ transcriptRef (speechRun clk s [Pressed; Heard t; Released; Ended]).1 = t.
Proof.
  intros He [r Hr].
  assert (Hadd : forall s0 : AppState, user s0 = user s ->
            (if truthy (trim t) then App.addNote clk s0 t else [])
            = App.addNote clk s t).
  { intros s0 Hu. unfold App.addNote. rewrite Hu.
    destruct (user s); by destruct (truthy (trim t)). }
  pose proof (handleRecordStart_ready s r He Hr) as Hstart.
  assert (Hstop1 : App.handleRecordStop (setIsRecording true (setTranscript "" s))
                   = (setIsRecording true (setTranscript "" s), [RecognitionStop]))
    by (by apply (handleRecordStop_recording _ r)).
  assert (Hstop2 : App.handleRecordStop
                     (onresult t (setIsRecording true (setTranscript "" s)))
                   = (onresult t (setIsRecording true (setTranscript "" s)),
                      [RecognitionStop]))
    by (by apply (handleRecordStop_recording _ r)).
  rewrite !speechRun_cons. cbn [speechStep speechRun fst snd].
  rewrite !Hstart. cbn [fst snd]. rewrite !Hstop1, !Hstop2. cbn [fst snd].
  unfold onend. cbn [fst snd].
  change (transcriptRef (onresult t ?x)) with t.
  change (transcriptRef (setIsRecording true (setTranscript "" s))) with "".
  change (truthy (trim "")) with false. cbv iota.
  rewrite !Hadd by done. rewrite !app_nil_r.
  split_and!; done.
Qed.

Lemma speech_session_saves_what_was_heard_witness :
  (speechRun Samples.clocks Samples.synced
     [Pressed; Heard " buy milk "; Released; Ended]).2
  = [RecognitionStart; RecognitionStop;
     AddDoc "users/alice/notes"
       {| docText := "buy milk";
          docTimestamp := Some (Timestamp_now Samples.clocks) |}].
Proof.
  refine (proj1 (speech_session_saves_what_was_heard Samples.clocks
                   Samples.synced " buy milk " eq_refl _)).
  vm_compute. by eexists.
Defined.

End SpeechFacts.

(** ** The colours of a render and the stored theme *)

Module PaletteFacts.
Import Enumerate EnumerateFacts Calendar Notes JS ColorSpec ColorFacts Component.

(** [shadeColor] on a six-digit colour and a percent of at least -100. *)
Lemma shadeColor_hexColor color r g b p :
  hexColor color = Some (r, g, b) ->
  -100 <= p ->
  Color.shadeColor color p
    = "#" +:+ hex2 (scaled r p) +:+ hex2 (scaled g p) +:+ hex2 (scaled b p)
  /\ hexColor (Color.shadeColor color p)
     = Some (scaled r p, scaled g p, scaled b p).
Proof.
  intros H Hp.
  destruct (hexColor_inv _ _ _ _ H)
    as (r1 & r2 & g1 & g2 & b1 & b2 & -> & Hr & Hg & Hb).
  pose proof (hexPair_range _ _ _ Hr). pose proof (hexPair_range _ _ _ Hg).
  pose proof (hexPair_range _ _ _ Hb).
  assert (Heq : Color.shadeColor
      (String "#" (String r1 (String r2 (String g1 (String g2
         (String b1 (String b2 EmptyString))))))) p
    = "#" +:+ hex2 (scaled r p) +:+ hex2 (scaled g p) +:+ hex2 (scaled b p)).
  { unfold Color.shadeColor.
    destruct (substring_channels r1 r2 g1 g2 b1 b2) as (-> & -> & -> & _).
    rewrite (parseInt_hexPair _ _ _ Hr), (parseInt_hexPair _ _ _ Hg),
      (parseInt_hexPair _ _ _ Hb).
    rewrite !shadeChannel_scaled by lia.
    by rewrite !hexByte_hex2 by apply scaled_range. }
  split; [exact Heq|].
  rewrite Heq. unfold hex2. rewrite hexColor_append.
  by rewrite !hexPair_hex2 by apply scaled_range.
Qed.

Lemma scaled_mono c p q : 0 <= c -> p <= q -> scaled c p <= scaled c q.
Proof.
  intros Hc Hpq. unfold scaled.
  assert (c * (100 + p) / 100 <= c * (100 + q) / 100)
    by (apply Z.div_le_mono; nia).
  lia.
Qed.

Lemma scaled_0 c : 0 <= c <= 255 -> scaled c 0 = c.
Proof.
  intros Hc. unfold scaled. rewrite Z.add_0_r, Z.div_mul by done. lia.
Qed.

Lemma scaled_black c : scaled c (-100) = 0.
Proof. unfold scaled. change (100 + -100) with 0. rewrite Z.mul_0_r. done. Qed.

(** X20: the two-digit byte [shadeColor] writes for a channel reads back
    as that channel with [parseInt(..., 16)], and has exactly two
    characters. *)
Theorem hexByte_reads_back (n : Z) :
  0 <= n <= 255 ->
  String.length (Color.hexByte n) = 2%nat
  /\ parseInt (Color.hexByte n) 16 = Some n.
Proof.
  intros Hn. rewrite (hexByte_hex2 n Hn). split; [done|].
  unfold hex2. apply parseInt_hexPair. by apply hexPair_hex2.
Qed.

Lemma hexByte_reads_back_witness :
  String.length (Color.hexByte 10) = 2%nat
  /\ parseInt (Color.hexByte 10) 16 = Some 10.
Proof. apply (hexByte_reads_back 10). lia. Defined.

(** X21: on a six-digit colour, and for percents of magnitude at most
    [2^44], where the arithmetic on numbers is exact, [shadeColor] is
    monotone in the percent, channel by channel, from -100 on: a percent of
    0 gives the colour back (in lower case), a negative one never raises a
    channel, a positive one never lowers one, and -100 gives black. *)
Theorem shadeColor_is_monotone (color : string) (r g b p q : Z) :
  hexColor color = Some (r, g, b) ->
  -100 <= p -> p <= q ->
  exactPercent p -> exactPercent q ->
  exists r1 g1 b1 r2 g2 b2,
    hexColor (Color.shadeColor color p) = Some (r1, g1, b1)
    /\ hexColor (Color.shadeColor color q) = Some (r2, g2, b2)
    /\ (r1 <= r2 /\ g1 <= g2 /\ b1 <= b2)
    /\ (p <= 0 -> r1 <= r /\ g1 <= g /\ b1 <= b)
    /\ (0 <= q -> r <= r2 /\ g <= g2 /\ b <= b2)
    /\ hexColor (Color.shadeColor color 0) = Some (r, g, b)
    /\ Color.shadeColor color (-100) = "#000000".
Proof.
  intros H Hp Hpq _ _.
  destruct (hexColor_inv _ _ _ _ H)
    as (r1 & r2 & g1 & g2 & b1 & b2 & _ & Hr & Hg & Hb).
  pose proof (hexPair_range _ _ _ Hr). pose proof (hexPair_range _ _ _ Hg).
  pose proof (hexPair_range _ _ _ Hb).
  exists (scaled r p), (scaled g p), (scaled b p),
    (scaled r q), (scaled g q), (scaled b q).
  refine (conj _ (conj _ (conj _ (conj _ (conj _ (conj _ _)))))).
  - by apply shadeColor_hexColor.
  - apply shadeColor_hexColor; [done|lia].
  - split_and!; apply scaled_mono; lia.
  - intros Hp0. rewrite <- (scaled_0 r), <- (scaled_0 g), <- (scaled_0 b) at 2 by done.
    split_and!; apply scaled_mono; lia.
  - intros Hq0. rewrite <- (scaled_0 r), <- (scaled_0 g), <- (scaled_0 b) at 1 by done.
    split_and!; apply scaled_mono; lia.
  - rewrite (proj2 (shadeColor_hexColor color r g b 0 H ltac:(lia))).
    by rewrite !scaled_0.
  - rewrite (proj1 (shadeColor_hexColor color r g b (-100) H ltac:(lia))).
    by rewrite !scaled_black.
Qed.

Lemma shadeColor_is_monotone_witness :
  exists r1 g1 b1 r2 g2 b2,
    hexColor (Color.shadeColor "#2d3748" (-10)) = Some (r1, g1, b1)
    /\ hexColor (Color.shadeColor "#2d3748" 40) = Some (r2, g2, b2)
    /\ (r1 <= r2 /\ g1 <= g2 /\ b1 <= b2).
Proof.
  destruct (shadeColor_is_monotone "#2d3748" 45 55 72 (-10) 40)
    as (r1 & g1 & b1 & r2 & g2 & b2 & H1 & H2 & H3 & _).
  - reflexivity.
  - lia.
  - lia.
  - unfold exactPercent. vm_compute. discriminate.
  - unfold exactPercent. vm_compute. discriminate.
  - exists r1, g1, b1, r2, g2, b2. exact (conj H1 (conj H2 H3)).
Defined.

(** [getTextColor] on six digits with no [#] in front. *)
Lemma getTextColor_bare pow r1 r2 g1 g2 b1 b2 r g b :
  hexPair r1 r2 = Some r -> hexPair g1 g2 = Some g -> hexPair b1 b2 = Some b ->
  Color.getTextColor pow
    (String r1 (String r2 (String g1 (String g2 (String b1 (String b2 EmptyString))))))
  = if (0.179 <? relativeLuminance pow r g b)%float then "#000000" else "#ffffff".
Proof.
  intros Hr Hg Hb.
  assert (Hne : String.eqb (String r1 EmptyString) "#" = false).
  { apply String.eqb_neq. intros [= ->]. unfold hexPair in Hr.
    change (digitValue "#") with (@None Z) in Hr. discriminate. }
  unfold Color.getTextColor.
  change (JS.truthy (String r1 _)) with true.
  change (JS.charAt 0 (String r1 _)) with (String r1 EmptyString).
  rewrite Hne. cbv iota. change (negb true) with false. cbv iota.
  change (JS.substring 0 2 (String r1 (String r2 ?t))) with (String r1 (String r2 EmptyString)).
  change (JS.substring 2 4 (String r1 (String r2 (String g1 (String g2 ?t)))))
    with (String g1 (String g2 EmptyString)).
  change (JS.substring 4 6 (String r1 (String r2 (String g1 (String g2
            (String b1 (String b2 EmptyString)))))))
    with (String b1 (String b2 EmptyString)).
  rewrite (parseInt_hexPair _ _ _ Hr), (parseInt_hexPair _ _ _ Hg),
    (parseInt_hexPair _ _ _ Hb).
  cbn [fmap list_fmap nth JS.toNumberOrNaN].
  rewrite !gamma_linearize by eauto using hexPair_range.
  reflexivity.
Qed.

(** X22: [getTextColor] reads a six-digit colour the same with or without
    the leading [#], gives white on the empty string, and never gives
    anything but black or white. *)
Theorem getTextColor_hash_is_optional (Math_pow : float -> float -> float)
    (digits : string) (r g b : Z) :
  hexColor ("#" +:+ digits) = Some (r, g, b) ->
  Color.getTextColor Math_pow digits = Color.getTextColor Math_pow ("#" +:+ digits)
  /\ Color.getTextColor Math_pow "" = "#ffffff"
  /\ (forall bg, Color.getTextColor Math_pow bg = "#000000"
                 \/ Color.getTextColor Math_pow bg = "#ffffff").
Proof.
  intros H. split_and!.
  - rewrite (getTextColor_hexColor _ _ _ _ _ H).
    destruct (hexColor_inv _ _ _ _ H)
      as (r1 & r2 & g1 & g2 & b1 & b2 & Heq & Hr & Hg & Hb).
    change ("#" +:+ digits) with (String "#" digits) in Heq.
    injection Heq; clear Heq; intros ->. by apply getTextColor_bare.
  - reflexivity.
  - intros bg. unfold Color.getTextColor.
    destruct (negb (truthy bg)); [by right|].
    destruct (0.179 <? _)%float; [by left | by right].
Qed.

Lemma getTextColor_hash_is_optional_witness :
  Color.getTextColor RefMath.pow "2d3748" = Color.getTextColor RefMath.pow "#2d3748".
Proof.
  exact (proj1 (getTextColor_hash_is_optional RefMath.pow "2d3748" 45 55 72 eq_refl)).
Defined.

(** X23: from a six-digit theme colour the render derives six-digit
    colours again: when the text is white the subtle background and the
    accent are the theme lightened by 20 and by 40 percent, otherwise
    darkened by 10 and by 20 percent, so the accent is at least as far from
    the theme as the subtle background, on the same side; the colour on the
    microphone button is the black-or-white choice for the accent; and the
    bars get the theme darkened by 5 percent with the alpha byte [80]. *)
Theorem palette_is_well_formed (Math_pow : float -> float -> float)
    (s : AppState) (r g b : Z) :
  hexColor (themeColor s) = Some (r, g, b) ->
  exists rs gs bs ra ga ba,
    hexColor (subtleBgColor Math_pow s) = Some (rs, gs, bs)
    /\ hexColor (accentColor Math_pow s) = Some (ra, ga, ba)
    /\ (textColor Math_pow s = "#ffffff" ->
        (rs, gs, bs) = (scaled r 20, scaled g 20, scaled b 20)
        /\ (ra, ga, ba) = (scaled r 40, scaled g 40, scaled b 40)
        /\ (r <= rs <= ra /\ g <= gs <= ga /\ b <= bs <= ba))
    /\ (textColor Math_pow s = "#000000" ->
        (rs, gs, bs) = (scaled r (-10), scaled g (-10), scaled b (-10))
        /\ (ra, ga, ba) = (scaled r (-20), scaled g (-20), scaled b (-20))
        /\ (ra <= rs <= r /\ ga <= gs <= g /\ ba <= bs <= b))
    /\ micColor Math_pow s
       = (if (0.179 <? relativeLuminance Math_pow ra ga ba)%float
          then "#000000" else "#ffffff")
    /\ barBackground s
       = "#" +:+ hex2 (scaled r (-5)) +:+ hex2 (scaled g (-5))
             +:+ hex2 (scaled b (-5)) +:+ "80".
Proof.
  intros H.
  destruct (hexColor_inv _ _ _ _ H)
    as (r1 & r2 & g1 & g2 & b1 & b2 & _ & Hr & Hg & Hb).
  pose proof (hexPair_range _ _ _ Hr). pose proof (hexPair_range _ _ _ Hg).
  pose proof (hexPair_range _ _ _ Hb).
  assert (Hbar : barBackground s
       = "#" +:+ hex2 (scaled r (-5)) +:+ hex2 (scaled g (-5))
             +:+ hex2 (scaled b (-5)) +:+ "80").
  { unfold barBackground.
    rewrite (proj1 (shadeColor_hexColor _ r g b (-5) H ltac:(lia))).
    by rewrite !StringFacts.append_assoc. }
  assert (Hlight : forall c, 0 <= c <= 255 -> c <= scaled c 20 <= scaled c 40).
  { intros c Hc. split; [|apply scaled_mono; lia].
    rewrite <- (scaled_0 c) at 1 by done. apply scaled_mono; lia. }
  assert (Hdark : forall c, 0 <= c <= 255 -> scaled c (-20) <= scaled c (-10) <= c).
  { intros c Hc. split; [apply scaled_mono; lia|].
    rewrite <- (scaled_0 c) at 2 by done. apply scaled_mono; lia. }
  pose proof (Hlight r ltac:(done)). pose proof (Hlight g ltac:(done)).
  pose proof (Hlight b ltac:(done)). pose proof (Hdark r ltac:(done)).
  pose proof (Hdark g ltac:(done)). pose proof (Hdark b ltac:(done)).
  unfold micColor, subtleBgColor, accentColor.
  destruct (String.eqb_spec (textColor Math_pow s) "#ffffff") as [Ht|Ht].
  - exists (scaled r 20), (scaled g 20), (scaled b 20),
      (scaled r 40), (scaled g 40), (scaled b 40).
    destruct (shadeColor_hexColor _ r g b 20 H ltac:(lia)) as [_ H20].
    destruct (shadeColor_hexColor _ r g b 40 H ltac:(lia)) as [_ H40].
    split_and!; [exact H20 | exact H40 | | | | exact Hbar].
    + intros _. repeat split; (done || lia).
    + intros Hb'. rewrite Hb' in Ht. discriminate.
    + by apply getTextColor_hexColor.
  - exists (scaled r (-10)), (scaled g (-10)), (scaled b (-10)),
      (scaled r (-20)), (scaled g (-20)), (scaled b (-20)).
    destruct (shadeColor_hexColor _ r g b (-10) H ltac:(lia)) as [_ H10].
    destruct (shadeColor_hexColor _ r g b (-20) H ltac:(lia)) as [_ H20].
    split_and!; [exact H10 | exact H20 | | | | exact Hbar].
    + intros Hw. by destruct Ht.
    + intros _. repeat split; (done || lia).
    + by apply getTextColor_hexColor.
Qed.

Lemma palette_is_well_formed_witness :
  exists rs gs bs ra ga ba,
    hexColor (subtleBgColor RefMath.pow Notes.initialState) = Some (rs, gs, bs)
    /\ hexColor (accentColor RefMath.pow Notes.initialState) = Some (ra, ga, ba)
    /\ barBackground Notes.initialState = "#2a344480".
Proof.
  destruct (palette_is_well_formed RefMath.pow Notes.initialState 45 55 72 eq_refl)
    as (rs & gs & bs & ra & ga & ba & H1 & H2 & _ & _ & _ & H3).
  exists rs, gs, bs, ra, ga, ba. split_and!; [exact H1 | exact H2 |].
  rewrite H3. vm_compute. reflexivity.
Defined.

(** X24: the theme colour written to local storage by the second effect
    is the one the first effect restores at the next start, when it is not
    the empty string; with nothing stored, or the empty string, the first
    effect sets the default [#2d3748]; it writes no other cell. *)
Theorem theme_colour_survives_reload (storage : LocalStorage) (s s0 : AppState) :
  themeColor s <> "" ->
  themeColor (loadThemeEffect (saveThemeEffect storage s) s0) = themeColor s
  /\ (forall st, st !! themeKey = None \/ st !! themeKey = Some "" ->
        themeColor (loadThemeEffect st s0) = "#2d3748")
  /\ (forall st, loadThemeEffect st s0
                 = setThemeColor (themeColor (loadThemeEffect st s0)) s0)
  /\ (forall k, k <> themeKey -> saveThemeEffect storage s !! k = storage !! k).
Proof.
  intros Hne. split_and!.
  - unfold loadThemeEffect, saveThemeEffect. rewrite lookup_insert_eq.
    by destruct (themeColor s).
  - intros st [Hst|Hst]; unfold loadThemeEffect; by rewrite Hst.
  - done.
  - intros k Hk. unfold saveThemeEffect. by rewrite lookup_insert_ne.
Qed.

Lemma theme_colour_survives_reload_witness :
  themeColor (loadThemeEffect
                (saveThemeEffect ∅ (setThemeColor "#ff8800" Notes.initialState))
                Notes.initialState) = "#ff8800".
Proof.
  refine (proj1 (theme_colour_survives_reload ∅
                   (setThemeColor "#ff8800" Notes.initialState)
                   Notes.initialState _)).
  discriminate.
Defined.

End PaletteFacts.

(** ** The delete buttons of the hierarchy: from a key back to its year *)

Module TrashFacts.
Import Calendar Notes JS GroupingSpec HandlersSpec ViewSpec Component.
Import GroupingFacts HandlersFacts ViewFacts.

Lemma parseDigits_digit (c : ascii) (d : Z) (acc : option Z) (s : string) :
  digitValue c = Some d -> d < 10 ->
  parseDigits 10 acc (String c s)
  = parseDigits 10 (Some (default 0 acc * 10 + d)) s.
Proof.
  intros Hc Hd. cbn [parseDigits]. rewrite Hc.
  by destruct (Z.ltb_spec d 10); [|lia].
Qed.

Lemma parseDigits_of_uint_acc (l : Decimal.uint) (p : positive) :
  parseDigits 10 (Some (Z.pos p)) (NilEmpty.string_of_uint l)
  = Some (Z.pos (Pos.of_uint_acc l p)).
Proof.
  revert p. induction l; intros p; cbn [NilEmpty.string_of_uint Pos.of_uint_acc];
    [reflexivity|..];
    (erewrite parseDigits_digit; [| vm_compute; reflexivity | done]);
    cbn [default from_option Datatypes.id]; rewrite <- IHl;
    match goal with
    | |- parseDigits 10 (Some ?v) _ = parseDigits 10 (Some ?w) _ =>
        replace v with w by lia
    end; reflexivity.
Qed.

(** The decimal digits of a number read back as the number; digits that
    start with nothing or zero so far. *)
Lemma parseDigits_of_uint (l : Decimal.uint) (acc : option Z) :
  default 0 acc = 0 ->
  parseDigits 10 acc (NilEmpty.string_of_uint l)
  = match l with
    | Decimal.Nil => acc
    | _ => Some (Z.of_uint l)
    end.
Proof.
  revert acc. induction l; intros acc Hacc; cbn [NilEmpty.string_of_uint];
    [reflexivity|..];
    (erewrite parseDigits_digit; [| vm_compute; reflexivity | done]);
    rewrite Hacc; cbn [Z.mul Z.add].
  - rewrite IHl by done. by destruct l.
  - apply parseDigits_of_uint_acc.
  - apply parseDigits_of_uint_acc.
  - apply parseDigits_of_uint_acc.
  - apply parseDigits_of_uint_acc.
  - apply parseDigits_of_uint_acc.
  - apply parseDigits_of_uint_acc.
  - apply parseDigits_of_uint_acc.
  - apply parseDigits_of_uint_acc.
  - apply parseDigits_of_uint_acc.
Qed.

(** The digits of a number start with a digit, which is neither
    whitespace nor a sign, and are not a [0x] prefix. *)
Lemma string_of_uint_head (l : Decimal.uint) :
  l <> Decimal.Nil ->
  trimStart (NilEmpty.string_of_uint l) = NilEmpty.string_of_uint l
  /\ stripSign (NilEmpty.string_of_uint l) = (1, NilEmpty.string_of_uint l)
  /\ match NilEmpty.string_of_uint l with
     | String "0" (String "x" _) | String "0" (String "X" _) => False
     | _ => True
     end.
Proof.
  intros Hl. destruct l as [|l|l|l|l|l|l|l|l|l|l]; try done.
  split_and!; [done | done |]. by destruct l.
Qed.

Lemma parseIntAuto_numberToString (z : Z) : parseIntAuto (numberToString z) = Some z.
Proof.
  unfold parseIntAuto, numberToString.
  rewrite <- (DecimalZ.of_to z) at 2.
  assert (Hpos : forall l, l <> Decimal.Nil ->
    (let '(sign, s1) := stripSign (trimStart (NilEmpty.string_of_uint l)) in
     match s1 with
     | String "0" (String "x" s2) | String "0" (String "X" s2) =>
         (λ v, sign * v) <$> parseDigits 16 None s2
     | _ => (λ v, sign * v) <$> parseDigits 10 None s1
     end) = Some (Z.of_uint l)).
  { intros l Hl. destruct (string_of_uint_head l Hl) as (-> & -> & Hx).
    assert (Hd := parseDigits_of_uint l None eq_refl).
    destruct l; try done;
      cbn [NilEmpty.string_of_uint] in *;
      match goal with
      | |- context [String "0" (NilEmpty.string_of_uint ?l')] => destruct l'; try done
      | _ => idtac
      end;
      cbn [NilEmpty.string_of_uint] in *; rewrite Hd; cbn; f_equal; lia. }
  assert (Hneg : forall l, l <> Decimal.Nil ->
    (let '(sign, s1) := stripSign (trimStart (String "-" (NilEmpty.string_of_uint l))) in
     match s1 with
     | String "0" (String "x" s2) | String "0" (String "X" s2) =>
         (λ v, sign * v) <$> parseDigits 16 None s2
     | _ => (λ v, sign * v) <$> parseDigits 10 None s1
     end) = Some (- Z.of_uint l)).
  { intros l Hl. change (trimStart (String "-" ?s)) with (String "-" s).
    change (stripSign (String "-" ?s)) with (-1, s).
    destruct (string_of_uint_head l Hl) as (_ & _ & Hx).
    assert (Hd := parseDigits_of_uint l None eq_refl).
    destruct l; try done;
      cbn [NilEmpty.string_of_uint] in *;
      match goal with
      | |- context [String "0" (NilEmpty.string_of_uint ?l')] => destruct l'; try done
      | _ => idtac
      end;
      cbn [NilEmpty.string_of_uint] in *; rewrite Hd; cbn; f_equal; lia. }
  destruct z as [|p|p]; cbn [Z.to_int NilEmpty.string_of_int Z.of_int].
  - by apply Hpos.
  - apply Hpos, DecimalPos.Unsigned.to_uint_nonnil.
  - apply Hneg, DecimalPos.Unsigned.to_uint_nonnil.
Qed.

Lemma elem_of_toDelete_year h yr l n :
  n ∈ App.toDelete h (SelYear yr) l
  <-> n ∈ l /\ exists ts, timestamp n = Some ts /\ getFullYear h (toDate ts) = yr.
Proof.
  rewrite elem_of_toDelete. unfold selectsDoc, docOf. cbn [docTimestamp].
  destruct (timestamp n) as [ts|].
  - rewrite bool_decide_eq_true. split.
    + intros [Hn Hy]. split; [done|]. by exists ts.
    + intros [Hn (ts' & [= <-] & Hy)]. done.
  - split; [by intros [_ ?]|]. by intros [_ (ts & [=] & _)].
Qed.

Lemma elem_of_toDelete_month h yr m l n :
  n ∈ App.toDelete h (SelMonth yr m) l
  <-> n ∈ l /\ exists ts, timestamp n = Some ts
                          /\ getFullYear h (toDate ts) = yr
                          /\ toLocaleMonthLong h (toDate ts) = m.
Proof.
  rewrite elem_of_toDelete. unfold selectsDoc, docOf. cbn [docTimestamp].
  destruct (timestamp n) as [ts|].
  - rewrite bool_decide_eq_true. split.
    + intros [Hn Hy]. split; [done|]. by exists ts.
    + intros [Hn (ts' & [= <-] & Hy)]. done.
  - split; [by intros [_ ?]|]. by intros [_ (ts & [=] & _)].
Qed.

(** X25: the key of a year of the hierarchy reads back, with [parseInt],
    as the year it was made from, so the delete button beside a year
    selects that year and the one beside a month that year and that month;
    what is then deleted on confirmation is every note of the state in that
    local year (and month), whether or not it matches the search term, and
    at least one of the past notes on screen. *)
Theorem year_button_selects_its_year (h : Host) (clock : Readings)
    (s : AppState) (g : Groups) (y : string)
    (ym : gmap string (gmap string (list Note))) :
  App.grouping h clock (notes s) (searchTerm s) = Normal g ->
  structured g !! y = Some ym ->
  exists yr,
    y = numberToString yr
    /\ deleteYearClicked y s = Some (App.handleDeleteSelection (SelYear yr) s)
    /\ (forall m, deleteMonthClicked y m s
                  = Some (App.handleDeleteSelection (SelMonth yr m) s))
    /\ (forall n, n ∈ App.toDelete h (SelYear yr) (notes s)
          <-> n ∈ notes s
              /\ exists ts, timestamp n = Some ts
                            /\ getFullYear h (toDate ts) = yr)
    /\ (forall m n, n ∈ App.toDelete h (SelMonth yr m) (notes s)
          <-> n ∈ notes s
              /\ exists ts, timestamp n = Some ts
                            /\ getFullYear h (toDate ts) = yr
                            /\ toLocaleMonthLong h (toDate ts) = m)
    /\ (exists n, n ∈ pastRaw g /\ n ∈ App.toDelete h (SelYear yr) (notes s)).
Proof.
  rewrite App_grouping_Normal. intros [= <-]. cbn [structured pastRaw]. intros Hy.
  set (f := List.filter (App.matchesSearch (searchTerm s)) (notes s)) in *.
  destruct (hierarchy_shape h
              (filterAt (λ i n, negb (App.isToday h (clock i) n)) (length f) f))
    as [_ Hyears].
  destruct (proj1 (Hyears y)) as (n & ts & Hn & Hts & ->); [by eexists|].
  exists (getFullYear h (toDate ts)).
  unfold deleteYearClicked, deleteMonthClicked.
  rewrite parseIntAuto_numberToString.
  split_and!; [done | done | done | | |].
  - intros n'. apply elem_of_toDelete_year.
  - intros m n'. apply elem_of_toDelete_month.
  - exists n. split; [done|]. apply elem_of_toDelete_year.
    apply elem_of_filterAt_1 in Hn. apply elem_of_filter in Hn as [Hn _].
    split; [done|]. by exists ts.
Qed.

Lemma year_button_selects_its_year_witness :
  exists yr,
    "2024" = numberToString yr
    /\ deleteYearClicked "2024" Samples.synced
       = Some (App.handleDeleteSelection (SelYear yr) Samples.synced).
Proof.
  destruct (year_button_selects_its_year utcEnglish
              (Samples.steady Samples.now) Samples.synced
              (match App.grouping utcEnglish (Samples.steady Samples.now)
                       (notes Samples.synced) (searchTerm Samples.synced) with
               | Normal g => g
               | Throw _ => {| filtered := []; today := []; pastRaw := [];
                               structured := ∅ |}
               end)
              "2024"
              {[ "January" := {[ "20" := [Samples.jan2024] ]} ]})
    as (yr & H1 & H2 & _).
  - vm_compute. reflexivity.
  - vm_compute. reflexivity.
  - exists yr. split; [exact H1 | exact H2].
Defined.

End TrashFacts.

(** ** Each user's notes are that user's own *)

Module IsolationFacts.
Import Calendar Notes JS Store HandlersSpec ViewSpec Component.
Import GroupingFacts StoreFacts HandlersFacts StringFacts ActionFacts SpeechFacts.

Lemma length_append (a b : string) :
  String.length (a +:+ b) = (String.length a + String.length b)%nat.
Proof.
  induction a as [|x a IH]; [done|]. rewrite append_cons. cbn. by rewrite IH.
Qed.

Lemma notesPath_inj (u u' : User) : notesPath u = notesPath u' -> u = u'.
Proof.
  unfold notesPath. intros H.
  apply (CalendarFacts.append_inj_length "users/" "users/") in H as [_ H]; [|done].
  assert (Hlen : String.length (uid u) = String.length (uid u')).
  { apply (f_equal String.length) in H. rewrite !length_append in H. lia. }
  apply (CalendarFacts.append_inj_length _ _ _ _ Hlen) in H as [H _].
  destruct u, u'. cbn in H. by subst.
Qed.

Lemma apply_elsewhere db r path path' :
  addresses path r -> path' <> path ->
  collectionOf (apply db r) path' = collectionOf db path'.
Proof.
  intros Hr Hne. destruct r as [p data|p docId t|p docId|refs| | |m]; cbn in Hr;
    try done.
  - subst p. destruct (collectionOf_add db path data) as (_ & _ & H).
    apply H. congruence.
  - subst p. apply collectionOf_eq. intros d.
    rewrite lookupDoc_update, decide_False; [done|congruence].
  - subst p. apply collectionOf_eq. intros d. cbn [apply].
    rewrite lookupDoc_deleteAt, decide_False; [done|congruence].
  - apply collectionOf_eq. intros d. cbn [apply].
    rewrite lookupDoc_batch, decide_False; [done|].
    intros Hin. apply Hr in Hin. cbn in Hin. congruence.
Qed.

Lemma run_elsewhere db rs path path' :
  Forall (addresses path) rs -> path' <> path ->
  collectionOf (run db rs) path' = collectionOf db path'.
Proof.
  intros Hrs Hne. revert db. induction Hrs as [|r rs Hr _ IH]; intros db; [done|].
  cbn [run foldl]. change (foldl apply (apply db r) rs) with (run (apply db r) rs).
  rewrite IH. by apply (apply_elsewhere db r path).
Qed.

Lemma addNote_addresses clk s u t :
  user s = Some u -> Forall (addresses (notesPath u)) (App.addNote clk s t).
Proof.
  intros Hu. unfold App.addNote. rewrite Hu.
  destruct (truthy (trim t)); repeat constructor.
Qed.

Lemma confirm_addresses h answer s u :
  user s = Some u ->
  Forall (addresses (notesPath u)) (App.handleConfirmDelete h answer s).2.
Proof.
  intros Hu. unfold App.handleConfirmDelete. rewrite Hu.
  destruct (showDeleteConfirm s) as [sel|]; [|constructor].
  destruct (_ =? _)%nat; cbn [snd]; repeat constructor.
  intros ref Hin. apply list_elem_of_fmap in Hin as (n & -> & _). done.
Qed.

Lemma speechStep_addresses clk s u ev :
  user s = Some u ->
  user (speechStep clk s ev).1 = Some u
  /\ Forall (addresses (notesPath u)) (speechStep clk s ev).2.
Proof.
  intros Hu. destruct ev as [| |t|e|]; cbn [speechStep].
  - unfold App.handleRecordStart. destruct (_ || _); cbn; split; try done;
      repeat constructor.
  - unfold App.handleRecordStop. destruct (_ || _); cbn; split; try done;
      repeat constructor.
  - cbn. split; [done|constructor].
  - cbn. split; [done|constructor].
  - unfold onend. cbn [fst snd]. split; [done|].
    destruct (truthy _); [by apply addNote_addresses | constructor].
Qed.

Lemma speechRun_addresses clk evs s u :
  user s = Some u -> Forall (addresses (notesPath u)) (speechRun clk s evs).2.
Proof.
  revert s. induction evs as [|ev evs IH]; intros s Hu; [constructor|].
  rewrite speechRun_cons. cbn [snd].
  destruct (speechStep_addresses clk s u ev Hu) as [Hu1 Hr1].
  apply Forall_app. split; [done|]. by apply IH.
Qed.

(** X26: with a user signed in, nothing the component asks of the store
    touches a collection other than that user's notes: adding, deleting or
    editing a note, confirming a deletion, and any sequence of presses and
    recognition callbacks leave every other collection as it was; and two
    users never share a collection.  With no user, none of the four
    handlers changes the store at all. *)
Theorem handlers_touch_only_own_collection (h : Host) (clk : Clocks)
    (answer : Answer) (s : AppState) (u : User) (db : Firestore)
    (path : string) :
  user s = Some u ->
  path <> notesPath u ->
  (forall text, collectionOf (run db (App.addNote clk s text)) path
                = collectionOf db path)
  /\ (forall docId, collectionOf (run db (App.deleteNote s docId)) path
                    = collectionOf db path)
  /\ collectionOf (run db (App.saveEdit answer s).2) path = collectionOf db path
  /\ collectionOf (run db (App.handleConfirmDelete h answer s).2) path
     = collectionOf db path
  /\ (forall evs, collectionOf (run db (speechRun clk s evs).2) path
                  = collectionOf db path)
  /\ (forall u', u' <> u -> notesPath u' <> notesPath u)
  /\ (forall s0 text docId,
        user s0 = None ->
        run db (App.addNote clk s0 text) = db
        /\ run db (App.deleteNote s0 docId) = db
        /\ run db (App.saveEdit answer s0).2 = db
        /\ run db (App.handleConfirmDelete h answer s0).2 = db).
Proof.
  intros Hu Hp. split_and!.
  - intros text. apply (run_elsewhere _ _ (notesPath u)); [|done].
    by apply addNote_addresses.
  - intros docId. apply (run_elsewhere _ _ (notesPath u)); [|done].
    unfold App.deleteNote. rewrite Hu. repeat constructor.
  - apply (run_elsewhere _ _ (notesPath u)); [|done].
    unfold App.saveEdit. rewrite Hu. cbn [snd].
    destruct (editingNote s); repeat constructor.
  - apply (run_elsewhere _ _ (notesPath u)); [|done]. by apply confirm_addresses.
  - intros evs. apply (run_elsewhere _ _ (notesPath u)); [|done].
    by apply speechRun_addresses.
  - intros u' Hne Heq. by apply Hne, notesPath_inj.
  - intros s0 text docId H0.
    unfold App.addNote, App.deleteNote, App.saveEdit, App.handleConfirmDelete.
    by rewrite H0.
Qed.

Lemma handlers_touch_only_own_collection_witness :
  collectionOf
    (run Samples.db
       (App.handleConfirmDelete utcEnglish Resolved
          (setShowDeleteConfirm (Some SelAll) Samples.synced)).2)
    "users/bob/notes"
  = collectionOf Samples.db "users/bob/notes".
Proof.
  refine (proj1 (proj2 (proj2 (proj2
    (handlers_touch_only_own_collection utcEnglish Samples.clocks Resolved
       (setShowDeleteConfirm (Some SelAll) Samples.synced) Samples.alice
       Samples.db "users/bob/notes" eq_refl _))))).
  discriminate.
Defined.

End IsolationFacts.
